(** * The model asset lifecycle manager of transcribe-audio

    A shallow embedding of the model download manager (the two revisions of
    the manager script that the repository carries) and the properties of its
    status store, startup repair, download, cancel and delete paths. *)

From Stdlib Require Import String Ascii List ZArith Lia Bool Sorted.
From Stdlib Require Import DecimalString DecimalNat DecimalFacts.
From Stdlib Require Import QArith Qround Qpower Lqa.
From Stdlib Require PrimFloat FloatOps SpecFloat Uint63.
Import ListNotations.
Local Open Scope string_scope.
Local Open Scope Z_scope.

(** ** Catalog *)

(** [type ModelKey = 'tiny' | 'base' | 'small' | 'medium' | 'large'] *)
Inductive ModelKey := tiny | base | small | medium | large.

Definition MODEL_KEYS : list ModelKey := [tiny; base; small; medium; large].
Arguments MODEL_KEYS : simpl never.

(** The string a [ModelKey] is at run time. *)
Definition key_name (k : ModelKey) : string :=
  match k with
  | tiny => "tiny" | base => "base" | small => "small"
  | medium => "medium" | large => "large"
  end.

Definition ModelKey_eqb (a b : ModelKey) : bool :=
  match a, b with
  | tiny, tiny | base, base | small, small | medium, medium | large, large => true
  | _, _ => false
  end.

(** The manager script exists in two revisions.  [RevA] reads the store
    through a [loadStates] that resets 'downloading' records inline;
    [RevB] has a [loadStates] that only merges, and a separate
    [normalizeStatesOnStartup]. *)
Inductive revision := RevA | RevB.

(** ** JavaScript values that JSON can carry *)

(** Numbers are the integers: the code compares [progress] with 0, 100 and
    the rounded percentage only, and writes nothing else. *)
#[warnings="-register-all"]
Inductive json :=
| JNull
| JBool (b : bool)
| JNum (n : Z)
| JStr (s : string)
| JArr (xs : list json)
| JObj (fields : list (string * json)).

(** The own enumerable properties of an object, in insertion order. *)
Definition props := list (string * json).

(** A JSON text may repeat a member name, and the parser keeps the last
    value: the lookup is the last binding. *)
Fixpoint assoc (k : string) (ps : props) : option json :=
  match ps with
  | [] => None
  | (k', v) :: r =>
      match assoc k r with
      | Some x => Some x
      | None => if String.eqb k k' then Some v else None
      end
  end.

Definition without (k : string) (ps : props) : props :=
  filter (fun kv => negb (String.eqb k (fst kv))) ps.

(** [obj[k] = v]: an existing property keeps its place, a new one goes
    last; the property is then bound once. *)
Fixpoint assoc_set (k : string) (v : json) (ps : props) : props :=
  match ps with
  | [] => [(k, v)]
  | (k', v') :: r =>
      if String.eqb k k' then (k, v) :: without k r
      else (k', v') :: assoc_set k v r
  end.

(** The property name of an array (or string) index. *)
Definition index_name (i : nat) : string :=
  NilEmpty.string_of_uint (Nat.to_uint i).

Fixpoint index_from {A} (i : nat) (mk : A -> json) (xs : list A) : props :=
  match xs with
  | [] => []
  | x :: r => (index_name i, mk x) :: index_from (S i) mk r
  end.

(** What [Object.keys] and object spread see of a non-null value. *)
Definition own_props (v : json) : props :=
  match v with
  | JObj fs => fs
  | JArr xs => index_from 0%nat (fun x => x) xs
  | JStr s => index_from 0%nat (fun c => JStr (String c EmptyString)) (list_ascii_of_string s)
  | JNull | JBool _ | JNum _ => []
  end.

Definition truthy (v : json) : bool :=
  match v with
  | JNull => false
  | JBool b => b
  | JNum n => negb (n =? 0)
  | JStr s => negb (String.eqb s "")
  | JArr _ | JObj _ => true
  end.

(** [x === 'lit'] and [x === n] for a property read [x] ([None] is
    [undefined]). *)
Definition is_str (x : option json) (lit : string) : bool :=
  match x with
  | Some (JStr s) => String.eqb s lit
  | _ => false
  end.

Definition is_num (x : option json) (n : Z) : bool :=
  match x with
  | Some (JNum m) => m =? n
  | _ => false
  end.

(** ** Exceptions *)

Inductive exn := SyntaxError | TypeError | AbortError | OtherError.

(** [Unmodelled] marks what is left out: a named property assigned on an
    array (it would live in memory and be dropped by [JSON.stringify]), and
    an awaited call that settles with a value of the wrong kind.  No
    [try]/[catch] of the model intercepts it. *)
Inductive outcome (A : Type) :=
| Ok (a : A)
| Throw (e : exn)
| Unmodelled.
Arguments Ok {A} a.
Arguments Throw {A} e.
Arguments Unmodelled {A}.

Definition obind {A B} (c : outcome A) (f : A -> outcome B) : outcome B :=
  match c with
  | Ok a => f a
  | Throw e => Throw e
  | Unmodelled => Unmodelled
  end.

Declare Scope js_scope.
Delimit Scope js_scope with js.
Notation "x <- c ;; k" := (obind c (fun x => k))
  (at level 61, c at next level, right associativity) : js_scope.
Local Open Scope js_scope.

(** [v[k]] for a value [v]; reading a property of [null] throws. *)
Definition get (v : json) (k : string) : outcome (option json) :=
  match v with
  | JNull => Throw TypeError
  | _ => Ok (assoc k (own_props v))
  end.

(** [x[k]] where [x] may be [undefined]. *)
Definition get_of (x : option json) (k : string) : outcome (option json) :=
  match x with
  | None => Throw TypeError
  | Some v => get v k
  end.

(** [v.f = x] on a value held in a variable (module code is strict: a
    primitive target throws). *)
Definition set_field (v : json) (f : string) (x : json) : outcome json :=
  match v with
  | JObj fs => Ok (JObj (assoc_set f x fs))
  | JArr _ => Unmodelled
  | JNull | JBool _ | JNum _ | JStr _ => Throw TypeError
  end.

(** [obj[k].f = x] on the properties [ps] of [obj]. *)
Definition assign (ps : props) (k f : string) (x : json) : outcome props :=
  match assoc k ps with
  | None => Throw TypeError
  | Some r => r' <- set_field r f x ;; Ok (assoc_set k r' ps)
  end.

(** [{ ...base, ...v }] *)
Definition spread_props (base extra : props) : props :=
  fold_left (fun acc kv => assoc_set (fst kv) (snd kv) acc) extra base.

Definition spread (base : props) (v : json) : props :=
  spread_props base (own_props v).

(** [xs.forEach(...)] and [for (... of xs)] with a threaded state. *)
Fixpoint forEach {S K} (body : S -> K -> outcome S) (xs : list K) (s : S)
  : outcome S :=
  match xs with
  | [] => Ok s
  | x :: r => s' <- body s x ;; forEach body r s'
  end.

(** ** The persisted status store *)

(** The string under [STORAGE_KEY], seen through [JSON.parse]: a text the
    parser rejects, or a text it accepts together with the value it denotes.
    [JSON.stringify] writes a text of the second kind, and parsing it gives
    the value back.  The empty string (the one falsy string) is
    [Unparseable ""]. *)
Inductive stored :=
| Unparseable (text : string)
| Parses (v : json).

Definition JSON_parse (raw : stored) : outcome json :=
  match raw with
  | Unparseable _ => Throw SyntaxError
  | Parses v => Ok v
  end.

Definition JSON_stringify (v : json) : stored := Parses v.

(** [!raw] for a string [raw] *)
Definition is_empty (raw : stored) : bool :=
  match raw with
  | Unparseable t => String.eqb t ""
  | Parses _ => false
  end.

(** [{ state: 'not-downloaded', progress: 0 }] *)
Definition fresh_record : json :=
  JObj [("state", JStr "not-downloaded"); ("progress", JNum 0)].

Definition defaultState : props :=
  fold_left (fun obj k => assoc_set (key_name k) fresh_record obj) MODEL_KEYS [].
Arguments defaultState : simpl never.

(** RevA, the body of [Object.keys(parsed).forEach((k) => ...)], on the own
    properties of [parsed]. *)
Definition reset_downloading (parsed : props) (k : string) : outcome props :=
  st <- get_of (assoc k parsed) "state" ;;
  if is_str st "downloading" then
    p1 <- assign parsed k "state" (JStr "not-downloaded") ;;
    assign p1 k "progress" (JNum 0)
  else Ok parsed.

(** [Object.keys(v)]: throws on [null]. *)
Definition Object_keys (v : json) : outcome (list string) :=
  match v with
  | JNull => Throw TypeError
  | _ => Ok (map fst (own_props v))
  end.

(** The [try] block of [loadStates], given the stored string. *)
Definition loadStates_try (rev : revision) (raw : stored) : outcome props :=
  if is_empty raw then Ok defaultState else
  parsed <- JSON_parse raw ;;
  match rev with
  | RevA =>
      ks <- Object_keys parsed ;;
      ps <- forEach reset_downloading ks (own_props parsed) ;;
      Ok (spread_props defaultState ps)
  | RevB => Ok (spread defaultState parsed)
  end.

(** [loadStates()], as a function of what [localStorage.getItem] returns
    ([None] is [null]).  The [catch] returns the default. *)
Definition loadStates (rev : revision) (item : option stored) : outcome props :=
  match item with
  | None => Ok defaultState
  | Some raw =>
      match loadStates_try rev raw with
      | Ok m => Ok m
      | Throw _ => Ok defaultState
      | Unmodelled => Unmodelled
      end
  end.

(** ** The world the manager runs in *)

Record World := mkWorld {
  localStorage : option stored;      (* the item under STORAGE_KEY *)
  disk : list string;                (* files present under AppLocalData *)
  abortControllers : list (ModelKey * nat);  (* the registry, by controller number *)
  aborted : list nat;                (* controllers whose abort() was called *)
  created : nat;                     (* AbortControllers created so far *)
  container : bool                   (* the page has the #models element *)
}.

Definition with_storage (s : option stored) (w : World) : World :=
  mkWorld s (disk w) (abortControllers w) (aborted w) (created w) (container w).

Definition with_disk (d : list string) (w : World) : World :=
  mkWorld (localStorage w) d (abortControllers w) (aborted w) (created w) (container w).

Definition with_registry (r : list (ModelKey * nat)) (w : World) : World :=
  mkWorld (localStorage w) (disk w) r (aborted w) (created w) (container w).

Definition with_aborted (a : list nat) (w : World) : World :=
  mkWorld (localStorage w) (disk w) (abortControllers w) a (created w) (container w).

Definition with_created (n : nat) (w : World) : World :=
  mkWorld (localStorage w) (disk w) (abortControllers w) (aborted w) n (container w).

(** Code that reads and writes a state and may throw. *)
Definition jsM (S A : Type) := S -> S * outcome A.

(** Code over the world alone. *)
Definition js := jsM World.

Definition ret {S A} (a : A) : jsM S A := fun s => (s, Ok a).

Definition lift {S A} (o : outcome A) : jsM S A := fun s => (s, o).

Definition bind {S A B} (c : jsM S A) (f : A -> jsM S B) : jsM S B :=
  fun s =>
    match c s with
    | (s1, Ok a) => f a s1
    | (s1, Throw e) => (s1, Throw e)
    | (s1, Unmodelled) => (s1, Unmodelled)
    end.

(** [try { c } catch (e) { h e }] *)
Definition try_catch {S A} (c : jsM S A) (h : exn -> jsM S A) : jsM S A :=
  fun s =>
    match c s with
    | (s1, Throw e) => h e s1
    | r => r
    end.

Notation "x <~ c ;; k" := (bind c (fun x => k))
  (at level 61, c at next level, right associativity) : js_scope.
Notation "'exec' c ;; k" := (bind c (fun _ => k))
  (at level 61, c at next level, right associativity) : js_scope.

(** The outcome of a file-system or network call: [None] when it resolves,
    [Some e] when it rejects with [e]. *)
Definition io_result := option exn.

Definition load (rev : revision) : js props :=
  fun w => (w, loadStates rev (localStorage w)).

(** [saveStates(states)] *)
Definition saveStates (states : props) : js unit :=
  fun w => (with_storage (Some (JSON_stringify (JObj states))) w, Ok tt).

(** [getModelPath(key)] *)
Definition getModelPath (key : ModelKey) : string :=
  "models/" ++ key_name key ++ ".bin".

(** [render()]: the DOM apart, it reads [states[key].state] of every catalog
    key when the container is there. *)
Definition render (rev : revision) : js unit :=
  fun w =>
    if container w then
      (w, states <- loadStates rev (localStorage w) ;;
          forEach (fun (_ : unit) key =>
                     _ <- get_of (assoc (key_name key) states) "state" ;; Ok tt)
                  MODEL_KEYS tt)
    else (w, Ok tt).

(** [remove(filename, ...)] with the outcome the file system gives. *)
Definition remove (filename : string) (r : io_result) : js unit :=
  fun w =>
    match r with
    | None => (with_disk (filter (fun f => negb (String.eqb f filename)) (disk w)) w, Ok tt)
    | Some e => (w, Throw e)
    end.

(** [exists(filename, ...)] *)
Definition file_exists (files : list string) (filename : string) : bool :=
  existsb (String.eqb filename) files.

(** [v[k] = x] on a value held in a variable. *)
Definition set_prop (v : json) (k : string) (x : json) : outcome json :=
  match v with
  | JObj fs => Ok (JObj (assoc_set k x fs))
  | JArr _ => Unmodelled
  | JNull | JBool _ | JNum _ | JStr _ => Throw TypeError
  end.

(** RevB, the body of [MODEL_KEYS.forEach((key) => ...)] in
    [normalizeStatesOnStartup], on [parsed] and [changed]. *)
Definition normalize_key (s : json * bool) (key : ModelKey) : outcome (json * bool) :=
  st <- get (fst s) (key_name key) ;;
  match st with
  | None => Ok s
  | Some st =>
      if negb (truthy st) then Ok s else
      state <- get st "state" ;;
      progress <- get st "progress" ;;
      s1 <- (if (is_str state "downloading" || is_str state "not-downloaded")
                && (negb (is_num progress 0) || is_str state "downloading")
             then parsed <- set_prop (fst s) (key_name key) fresh_record ;;
                  Ok (parsed, true)
             else Ok s) ;;
      if is_str state "downloaded" && negb (is_num progress 100) then
        cur <- get (fst s1) (key_name key) ;;
        match cur with
        | None => Throw TypeError
        | Some cur =>
            cur' <- set_field cur "progress" (JNum 100) ;;
            parsed <- set_prop (fst s1) (key_name key) cur' ;;
            Ok (parsed, true)
        end
      else Ok s1
  end.

Definition normalizeStatesOnStartup : js unit :=
  try_catch
    (fun w =>
       match localStorage w with
       | None => (w, Ok tt)
       | Some raw =>
           if is_empty raw then (w, Ok tt) else
           match (parsed <- JSON_parse raw ;;
                  forEach normalize_key MODEL_KEYS (parsed, false)) with
           | Ok (parsed, true) =>
               (with_storage (Some (JSON_stringify parsed)) w, Ok tt)
           | Ok (_, false) => (w, Ok tt)
           | Throw e => (w, Throw e)
           | Unmodelled => (w, Unmodelled)
           end
       end)
    (fun _ => ret tt).

(** The body of [for (const key of MODEL_KEYS)] in [checkExistingFiles]. *)
Definition check_key (files : list string) (s : props * bool) (key : ModelKey)
  : outcome (props * bool) :=
  st <- get_of (assoc (key_name key) (fst s)) "state" ;;
  if is_str st "downloaded" then
    if file_exists files (getModelPath key) then Ok s
    else
      s1 <- assign (fst s) (key_name key) "state" (JStr "not-downloaded") ;;
      s2 <- assign s1 (key_name key) "progress" (JNum 0) ;;
      Ok (s2, true)
  else Ok s.

Definition checkExistingFiles (rev : revision) : js unit :=
  states <~ load rev ;;
  r <~ (fun w => (w, forEach (check_key (disk w)) MODEL_KEYS (states, false))) ;;
  exec (if snd r then saveStates (fst r) else ret tt) ;;
  render rev.

(** The [DOMContentLoaded] handler.  [checkExistingFiles] is not awaited:
    a rejection of it is not the handler's. *)
Definition onDOMContentLoaded (rev : revision) : js unit :=
  exec (match rev with RevA => ret tt | RevB => normalizeStatesOnStartup end) ;;
  exec render rev ;;
  try_catch (checkExistingFiles rev) (fun _ => ret tt).

(** [deleteDownload(key)], given the outcome of [remove]. *)
Definition deleteDownload (rev : revision) (key : ModelKey) (rm : io_result) : js unit :=
  try_catch
    (exec remove (getModelPath key) rm ;;
     states <~ load rev ;;
     s1 <~ lift (assign states (key_name key) "state" (JStr "not-downloaded")) ;;
     s2 <~ lift (assign s1 (key_name key) "progress" (JNum 0)) ;;
     exec saveStates s2 ;;
     render rev)
    (fun _ => ret tt).

(** [abortControllers[key]] *)
Fixpoint registered (key : ModelKey) (r : list (ModelKey * nat)) : option nat :=
  match r with
  | [] => None
  | (k, c) :: r' => if ModelKey_eqb key k then Some c else registered key r'
  end.

(** [delete abortControllers[key]] *)
Definition unregister (key : ModelKey) (w : World) : World :=
  with_registry (filter (fun kc => negb (ModelKey_eqb key (fst kc))) (abortControllers w)) w.

(** [if (abortControllers[key]) { abortControllers[key].abort(); delete
    abortControllers[key]; }] *)
Definition abort_registered (key : ModelKey) : js unit :=
  fun w =>
    match registered key (abortControllers w) with
    | Some c => (unregister key (with_aborted (c :: aborted w) w), Ok tt)
    | None => (w, Ok tt)
    end.

(** [cancelDownload(key)] up to its first suspension: the abort and the
    reset of the record. *)
Definition cancel_reset (rev : revision) (key : ModelKey) : js unit :=
  exec abort_registered key ;;
  states <~ load rev ;;
  s' <~ lift (match rev with
              | RevA =>
                  s1 <- assign states (key_name key) "state" (JStr "not-downloaded") ;;
                  assign s1 (key_name key) "progress" (JNum 0)
              | RevB => Ok (assoc_set (key_name key) fresh_record states)
              end) ;;
  exec saveStates s' ;;
  render rev.

(** The rest of [cancelDownload(key)]: the removal of the file, with its
    [catch] that ignores the failure. *)
Definition cancel_cleanup (key : ModelKey) (rm : io_result) : js unit :=
  try_catch (remove (getModelPath key) rm) (fun _ => ret tt).

Definition cancelDownload (rev : revision) (key : ModelKey) (rm : io_result) : js unit :=
  exec cancel_reset rev key ;; cancel_cleanup key rm.

(** ** A download attempt *)

(** [startDownload] is an async function: it runs until an [await], and
    goes on when the awaited call settles.  A [phase] names the [await] an
    attempt is suspended at. *)
Inductive phase :=
| AwaitPath                 (* await getModelPath(key) *)
| AwaitMkdir                (* await mkdir('models', ...) *)
| AwaitFetch                (* await fetch(MODEL_URLS[key], ...) *)
| AwaitCreate               (* await create(filename, ...) *)
| AwaitRead                 (* await reader.read() *)
| AwaitWrite (len : nat)    (* await fileHandle.write(value), value.length = len *)
| AwaitClose                (* await fileHandle.close() *)
| AwaitDataDir              (* await appLocalDataDir() *)
| AwaitJoin.                (* await join(baseDir, 'models', ...) *)

(** The local variables of a suspended [startDownload(key)]. *)
Record Task := mkTask {
  t_key : ModelKey;
  t_controller : nat;
  t_states : props;           (* states *)
  t_total : Z;                (* totalLength *)
  t_received : Z;             (* receivedLength *)
  t_lastRender : Z;           (* lastRenderTime *)
  t_phase : phase
}.

Definition with_states (s : props) (t : Task) : Task :=
  mkTask (t_key t) (t_controller t) s (t_total t) (t_received t) (t_lastRender t) (t_phase t).

Definition with_total (n : Z) (t : Task) : Task :=
  mkTask (t_key t) (t_controller t) (t_states t) n (t_received t) (t_lastRender t) (t_phase t).

Definition with_received (n : Z) (t : Task) : Task :=
  mkTask (t_key t) (t_controller t) (t_states t) (t_total t) n (t_lastRender t) (t_phase t).

Definition with_lastRender (n : Z) (t : Task) : Task :=
  mkTask (t_key t) (t_controller t) (t_states t) (t_total t) (t_received t) n (t_phase t).

Definition with_phase (p : phase) (t : Task) : Task :=
  mkTask (t_key t) (t_controller t) (t_states t) (t_total t) (t_received t) (t_lastRender t) p.

(** What an awaited call settles with. *)
Inductive reply :=
| Resolved                                   (* nothing of interest in the value *)
| Response (ok body : bool) (content_length : option Z)
                                             (* fetch: response.ok, a body, and the
                                                content-length header read by parseInt
                                                ([None]: no header, or not a number) *)
| Chunk (len : nat)                          (* reader.read(): { done: false, value } *)
| Done                                       (* reader.read(): { done: true } *)
| Rejected (e : exn).

(** The world together with the locals of the running attempt. *)
Definition frame := (World * Task)%type.

Definition in_world {A} (c : js A) : jsM frame A :=
  fun fr => match c (fst fr) with (w, r) => ((w, snd fr), r) end.

Definition locals : jsM frame Task := fun fr => (fr, Ok (snd fr)).

Definition set_locals (f : Task -> Task) : jsM frame unit :=
  fun fr => ((fst fr, f (snd fr)), Ok tt).

(** [states[key].f = x] on the local [states] *)
Definition assign_states (f : string) (x : json) : jsM frame unit :=
  t <~ locals ;;
  s <~ lift (assign (t_states t) (key_name (t_key t)) f x) ;;
  set_locals (with_states s).

(** [saveStates(states)] with the local [states] *)
Definition save_states : jsM frame unit :=
  t <~ locals ;; in_world (saveStates (t_states t)).

(** [loadStates()[key].state] *)
Definition stored_state (rev : revision) : jsM frame (option json) :=
  t <~ locals ;;
  latest <~ in_world (load rev) ;;
  lift (get_of (assoc (key_name (t_key t)) latest) "state").

(** [create(filename, ...)] once it resolved: the file is there. *)
Definition create (filename : string) : js unit :=
  fun w =>
    (if file_exists (disk w) filename then w else with_disk (filename :: disk w) w, Ok tt).

(** ** Double arithmetic *)

(** [Math.round((receivedLength / totalLength) * 100)] goes through two
    roundings to a double.  A double is given here as the rational it is;
    the exponent range of doubles plays no role for lengths below 2^53,
    where every integer is a double. *)

(** [floor (log2 x)], for [x > 0]. *)
Definition ilog2 (x : Q) : Z :=
  let e := Z.log2 (Qnum x) - Z.log2 (Zpos (Qden x)) in
  if Qle_bool (2 ^ e) x then e else e - 1.

(** The integer nearest to [x], the even one of two that are equally near. *)
Definition nearest_even (x : Q) : Z :=
  let f := Qfloor x in
  match (x - inject_Z f ?= 1 # 2)%Q with
  | Lt => f
  | Gt => f + 1
  | Eq => if Z.even f then f else f + 1
  end.

(** The double nearest to [x > 0]: [x] with its significand rounded to 53
    bits, ties to even. *)
Definition round_pos (x : Q) : Q :=
  let e := ilog2 x - 52 in
  (inject_Z (nearest_even (x / 2 ^ e)) * 2 ^ e)%Q.

Definition round_double (x : Q) : Q :=
  match (x ?= 0)%Q with
  | Eq => 0%Q
  | Gt => round_pos x
  | Lt => (- round_pos (- x))%Q
  end.

(** [Math.round(x)]: the nearest integer, a half going up. *)
Definition Math_round (x : Q) : Z := Qfloor (x + (1 # 2)).

(** [Math.round((receivedLength / totalLength) * 100)] *)
Definition percent (receivedLength totalLength : Z) : Z :=
  Math_round
    (round_double
       (round_double (inject_Z receivedLength / inject_Z totalLength) * 100)).
Arguments percent : simpl never.

(** The same expression on the kernel's binary64 numbers, to compare
    with: the lengths as doubles, their quotient, the product with 100,
    and [Math.round] of the rational the result is. *)
Definition float_of_Z (z : Z) : PrimFloat.float :=
  PrimFloat.of_uint63 (Uint63.of_Z z).

Definition float_round (x : PrimFloat.float) : Z :=
  match FloatOps.Prim2SF x with
  | SpecFloat.S754_finite s m e =>
      Math_round ((if s then - inject_Z (Z.pos m) else inject_Z (Z.pos m)) * 2 ^ e)%Q
  | _ => 0
  end.

Definition percent_binary64 (receivedLength totalLength : Z) : Z :=
  float_round
    (PrimFloat.mul (PrimFloat.div (float_of_Z receivedLength) (float_of_Z totalLength))
                   (float_of_Z 100)).

(** The lengths [(r, t)] with [0 < t <= tmax] and [0 <= r <= 2 t + 1]. *)
Definition length_grid (tmax : nat) : list (Z * Z) :=
  flat_map (fun t => map (fun r => (Z.of_nat r, Z.of_nat t)) (seq 0 (2 * t + 2)))
           (seq 1 tmax).

(** After the loop.  RevB looks at the stored state once more and writes
    100% before closing the file. *)
Definition after_loop (rev : revision) : jsM frame (option phase) :=
  match rev with
  | RevA => ret (Some AwaitClose)
  | RevB =>
      st <~ stored_state rev ;;
      if negb (is_str st "downloading") then ret None else
      exec assign_states "progress" (JNum 100) ;;
      exec save_states ;;
      exec in_world (render rev) ;;
      ret (Some AwaitClose)
  end.

(** The head of [while (true)].  RevB leaves the loop when the stored state
    is no longer 'downloading'. *)
Definition loop_head (rev : revision) : jsM frame (option phase) :=
  match rev with
  | RevA => ret (Some AwaitRead)
  | RevB =>
      st <~ stored_state rev ;;
      if negb (is_str st "downloading") then after_loop rev
      else ret (Some AwaitRead)
  end.

(** The statements of the loop body after [await fileHandle.write(value)],
    at time [now]. *)
Definition on_chunk (rev : revision) (now : Z) (len : nat) : jsM frame unit :=
  exec set_locals (fun t => with_received (t_received t + Z.of_nat len) t) ;;
  t <~ locals ;;
  if t_total t >? 0 then
    let percent := percent (t_received t) (t_total t) in
    cur <~ lift (get_of (assoc (key_name (t_key t)) (t_states t)) "progress") ;;
    if negb (is_num cur percent) then
      exec assign_states "progress" (JNum percent) ;;
      match rev with
      | RevA => exec save_states ;; in_world (render rev)
      | RevB =>
          if now - t_lastRender t >? 30 then
            exec save_states ;;
            exec in_world (render rev) ;;
            set_locals (with_lastRender now)
          else ret tt
      end
    else ret tt
  else ret tt.

(** [startDownload] from the [await] it is suspended at, given what the
    awaited call settled with: up to the next [await] ([Some phase]) or to
    the end of the [try] block ([None]). *)
Definition resume_body (rev : revision) (now : Z) (r : reply)
  : jsM frame (option phase) :=
  t <~ locals ;;
  match t_phase t, r with
  | _, Rejected e => lift (Throw e)
  | AwaitPath, Resolved => ret (Some AwaitMkdir)
  | AwaitMkdir, Resolved => ret (Some AwaitFetch)
  | AwaitFetch, Response ok body content_length =>
      if negb ok || negb body then lift (Throw OtherError) else
      exec set_locals (with_total (match content_length with
                                   | Some n => n
                                   | None => 0
                                   end)) ;;
      ret (Some AwaitCreate)
  | AwaitCreate, Resolved =>
      exec in_world (create (getModelPath (t_key t))) ;;
      exec set_locals (fun t => with_lastRender 0 (with_received 0 t)) ;;
      loop_head rev
  | AwaitRead, Done => after_loop rev
  | AwaitRead, Chunk len => ret (Some (AwaitWrite len))
  | AwaitWrite len, Resolved =>
      exec on_chunk rev now len ;;
      loop_head rev
  | AwaitClose, Resolved => ret (Some AwaitDataDir)
  | AwaitDataDir, Resolved => ret (Some AwaitJoin)
  | AwaitJoin, Resolved =>
      exec assign_states "state" (JStr "downloaded") ;;
      exec assign_states "progress" (JNum 100) ;;
      exec save_states ;;
      exec in_world (render rev) ;;
      ret None
  | _, _ => lift Unmodelled
  end.

(** The [catch] block, for an error that is not an AbortError. *)
Definition on_failure (rev : revision) : jsM frame unit :=
  exec assign_states "state" (JStr "not-downloaded") ;;
  exec save_states ;;
  in_world (render rev).

(** A stretch [body] of the [try] block under its [catch] and [finally]:
    the attempt is suspended again ([Some task]), or it is over ([None], or
    a rejection) and the controller is out of the registry. *)
Definition guarded (rev : revision) (body : jsM frame (option phase))
  : frame -> World * outcome (option Task) :=
  fun fr =>
    match try_catch body
            (fun e => match e with
                      | AbortError => ret None
                      | _ => exec on_failure rev ;; ret None
                      end) fr with
    | ((w, t), Ok (Some ph)) => (w, Ok (Some (with_phase ph t)))
    | ((w, t), Ok None) => (unregister (t_key t) w, Ok None)
    | ((w, t), Throw e) => (unregister (t_key t) w, Throw e)
    | ((w, t), Unmodelled) => (w, Unmodelled)
    end.

(** [abortControllers[key] = controller] *)
Definition register (key : ModelKey) (c : nat) (w : World) : World :=
  with_registry
    ((key, c) :: filter (fun kc => negb (ModelKey_eqb key (fst kc))) (abortControllers w)) w.

(** [startDownload(key)] up to its first [await]. *)
Definition startDownload (rev : revision) (key : ModelKey) : js (option Task) :=
  states <~ load rev ;;
  st <~ lift (get_of (assoc (key_name key) states) "state") ;;
  if is_str st "downloading" then ret None else
  fun w =>
    let c := created w in
    guarded rev
      (exec assign_states "state" (JStr "downloading") ;;
       exec assign_states "progress" (JNum 0) ;;
       exec save_states ;;
       exec in_world (render rev) ;;
       ret (Some AwaitPath))
      (register key c (with_created (S c) w), mkTask key c states 0 0 0 AwaitPath).

(** A suspended attempt goes on when its awaited call settles. *)
Definition resume (rev : revision) (now : Z) (r : reply) (t : Task)
  : js (option Task) :=
  fun w => guarded rev (resume_body rev now r) (w, t).

(** An attempt driven through the calls it awaits, one after the other,
    each settling at a time with a reply. *)
Fixpoint run (rev : revision) (t : Task) (replies : list (Z * reply))
  : js (option Task) :=
  match replies with
  | [] => ret (Some t)
  | (now, r) :: rest =>
      t' <~ resume rev now r t ;;
      match t' with
      | Some t' => run rev t' rest
      | None => ret None
      end
  end.

(** The progress the local [states] holds for the attempt's key. *)
Definition progress_of (t : Task) : option json :=
  match assoc (key_name (t_key t)) (t_states t) with
  | Some r => assoc "progress" (own_props r)
  | None => None
  end.

(** The record a store holds for [key], as [loadStates] of RevB reads it
    (the stored value, or the default where the store has none). *)
Definition record_of (item : option stored) (key : ModelKey) : option json :=
  match loadStates RevB item with
  | Ok states => assoc (key_name key) states
  | _ => None
  end.

(** The lifecycle fields of a record. *)
Definition has_state (r : option json) (state : string) : bool :=
  match r with
  | Some v => is_str (assoc "state" (own_props v)) state
  | None => false
  end.

Definition has_progress (r : option json) (n : Z) : bool :=
  match r with
  | Some v => is_num (assoc "progress" (own_props v)) n
  | None => false
  end.

(** [startDownload(key)] followed through the calls it awaits. *)
Definition attempt (rev : revision) (key : ModelKey) (replies : list (Z * reply))
  : js (option Task) :=
  t <~ startDownload rev key ;;
  match t with
  | Some t => run rev t replies
  | None => ret None
  end.

(** A stretch of [startDownload] from the [await] it is suspended at, under
    its [catch], with the frame it ends in ([guarded] is this stretch
    followed by the [finally]). *)
Definition settle (rev : revision) (now : Z) (r : reply) : jsM frame (option phase) :=
  try_catch (resume_body rev now r)
    (fun e => match e with
              | AbortError => ret None
              | _ => exec on_failure rev ;; ret None
              end).






(** The bytes of a list of chunks. *)
Definition total_bytes (chunks : list (Z * nat)) : Z :=
  fold_right (fun c acc => Z.of_nat (snd c) + acc) 0 chunks.

(** ** Predicates of the statements *)

(** A name that does not start with a decimal digit. *)
Definition is_name (k : string) : bool :=
  match k with
  | EmptyString => true
  | String c _ =>
      let n := nat_of_ascii c in negb ((48 <=? n)%nat && (n <=? 57)%nat)
  end.

(** What RevA's inline reset makes of a 'downloading' record with the
    fields [fs]. *)
Definition reset_record (fs : props) : json :=
  JObj (assoc_set "progress" (JNum 0) (assoc_set "state" (JStr "not-downloaded") fs)).

(** A record that is there, is not [null] and does not claim
    'downloading'. *)
Definition settled (r : option json) : bool :=
  match r with
  | None | Some JNull => false
  | Some v => negb (is_str (assoc "state" (own_props v)) "downloading")
  end.

(** The two conditions under which [normalizeStatesOnStartup] rewrites a
    record [st]. *)
Definition needs_reset (st : json) : bool :=
  let state := assoc "state" (own_props st) in
  let progress := assoc "progress" (own_props st) in
  (is_str state "downloading" || is_str state "not-downloaded")
  && (negb (is_num progress 0) || is_str state "downloading").

Definition needs_100 (st : json) : bool :=
  let state := assoc "state" (own_props st) in
  let progress := assoc "progress" (own_props st) in
  is_str state "downloaded" && negb (is_num progress 100).

(** A property the normalization leaves as it is. *)
Definition is_normal (r : option json) : bool :=
  match r with
  | None => true
  | Some st => negb (truthy st) || negb (needs_reset st || needs_100 st)
  end.

(** A record with state 'not-downloaded' and progress 0. *)
Definition is_fresh (r : option json) : bool :=
  has_state r "not-downloaded" && has_progress r 0.

(** The page renders the store: [render()] returns. *)
Definition renders (rev : revision) (w : World) : Prop :=
  snd (render rev w) = Ok tt.

(** A record that is an object. *)
Definition is_record (r : option json) : bool :=
  match r with
  | Some (JObj _) => true
  | _ => false
  end.

(** A record [checkExistingFiles] leaves as it is: it is there, is not
    [null], and is not 'downloaded' without its file among [files]. *)
Definition is_checked (files : list string) (s : props) (key : ModelKey) : bool :=
  match assoc (key_name key) s with
  | None | Some JNull => false
  | Some r =>
      negb (is_str (assoc "state" (own_props r)) "downloaded")
      || file_exists files (getModelPath key)
  end.

(** A store in which the normalization finds nothing to rewrite. *)
Definition normal_store (item : option stored) : Prop :=
  match item with
  | Some (Parses (JObj fs)) => forall key, is_normal (assoc (key_name key) fs) = true
  | _ => True
  end.

(** The startup repair: the normalization, then the check against the
    disk. *)
Definition reconcile : js unit :=
  exec normalizeStatesOnStartup ;; checkExistingFiles RevB.

(** ** What an attempt leaves alone *)

(** The record [saveStates(states)] stores for [key]. *)
Definition saved_record_of (states : props) (key : ModelKey) : option json :=
  record_of (Some (JSON_stringify (JObj states))) key.

(** A stretch of [startDownload(key)] from the frame [fr] to the frame
    [fr']: it creates and aborts no controller and changes no entry of the
    registry, it keeps its key, its controller and the records it loaded
    for the other keys, it stores for another key either what the store
    held or the record it loaded at its start, and on the disk it can only
    add the file of its key. *)
Definition attempt_frame (fr fr' : frame) : Prop :=
  abortControllers (fst fr') = abortControllers (fst fr) /\
  aborted (fst fr') = aborted (fst fr) /\
  created (fst fr') = created (fst fr) /\
  container (fst fr') = container (fst fr) /\
  t_key (snd fr') = t_key (snd fr) /\
  t_controller (snd fr') = t_controller (snd fr) /\
  (forall k, k <> key_name (t_key (snd fr)) ->
             assoc k (t_states (snd fr')) = assoc k (t_states (snd fr))) /\
  (forall key, key <> t_key (snd fr) ->
     record_of (localStorage (fst fr')) key = record_of (localStorage (fst fr)) key \/
     record_of (localStorage (fst fr')) key = saved_record_of (t_states (snd fr)) key) /\
  (forall f, f <> getModelPath (t_key (snd fr)) ->
             file_exists (disk (fst fr')) f = file_exists (disk (fst fr)) f) /\
  (file_exists (disk (fst fr)) (getModelPath (t_key (snd fr))) = true ->
   file_exists (disk (fst fr')) (getModelPath (t_key (snd fr))) = true).

(** A world [w'] that differs from [w] only by what an attempt for [key]
    that loaded [snapshot] may do: the registry, the store and the files of
    the other keys are as in [w], but for stored records of other keys put
    back to what [snapshot] has for them; the file of [key] is not
    removed. *)
Definition confined (key : ModelKey) (snapshot : props) (w w' : World) : Prop :=
  aborted w' = aborted w /\
  created w' = created w /\
  container w' = container w /\
  (forall key', key' <> key ->
     registered key' (abortControllers w') = registered key' (abortControllers w)) /\
  (forall key', key' <> key ->
     record_of (localStorage w') key' = record_of (localStorage w) key' \/
     record_of (localStorage w') key' = saved_record_of snapshot key') /\
  (forall f, f <> getModelPath key -> file_exists (disk w') f = file_exists (disk w) f) /\
  (file_exists (disk w) (getModelPath key) = true ->
   file_exists (disk w') (getModelPath key) = true).

(** ** A transfer that runs to its end *)

(** The replies of a transfer in which every awaited call resolves: the
    path, the directory, a response that is ok and has a body, the file,
    then each chunk and its write at its time, the end of the stream, and
    the close and the two path calls. *)
Definition chunk_replies (chunks : list (Z * nat)) : list (Z * reply) :=
  flat_map (fun c => [(fst c, Chunk (snd c)); (fst c, Resolved)]) chunks.

Definition transfer_replies (content_length : option Z) (chunks : list (Z * nat))
  : list (Z * reply) :=
  [(0, Resolved); (0, Resolved); (0, Response true true content_length); (0, Resolved)]
  ++ chunk_replies chunks
  ++ [(0, Done); (0, Resolved); (0, Resolved); (0, Resolved)].

(** An attempt for [key] that nobody interferes with: its own record and
    the stored record of [key] say 'downloading', and the records it would
    store are such that the page renders. *)
Definition running (rev : revision) (key : ModelKey) (w : World) (t : Task) : Prop :=
  t_key t = key /\
  (exists fs, assoc (key_name key) (t_states t) = Some (JObj fs) /\
              is_str (assoc "state" fs) "downloading" = true) /\
  has_state (record_of (localStorage w) key) "downloading" = true /\
  (rev = RevA \/ container w = false \/
   forall key', saved_record_of (t_states t) key' <> Some JNull).

(** The record [startDownload] writes over a record with the fields [fs]. *)
Definition downloading_record (fs : props) : json :=
  JObj (assoc_set "progress" (JNum 0) (assoc_set "state" (JStr "downloading") fs)).

(** A record [checkExistingFiles] downgrades: it is 'downloaded' and its
    file is not among [files]. *)
Definition is_stale (files : list string) (s : props) (key : ModelKey) : bool :=
  has_state (assoc (key_name key) s) "downloaded"
  && negb (file_exists files (getModelPath key)).

(** ** What the page shows (RevA) *)






(** * The main page *)

(** ** The extension check *)

(** [s.split(".")]: the first piece and the pieces after it. *)
Fixpoint split_dot (s : string) : string * list string :=
  match s with
  | EmptyString => (EmptyString, [])
  | String c r =>
      let (p, ps) := split_dot r in
      if Ascii.eqb c "." then (EmptyString, p :: ps) else (String c p, ps)
  end.

(** [s.split(".").pop()] *)
Definition last_piece (s : string) : string :=
  let (p, ps) := split_dot s in last ps p.

(** [toLowerCase()] on the letters A to Z.  Other characters are left as
    they are: no character outside them lower-cases to a letter of an
    allowed extension. *)
Definition lower (c : ascii) : ascii :=
  let n := nat_of_ascii c in
  if ((65 <=? n) && (n <=? 90))%nat then ascii_of_nat (n + 32) else c.

Fixpoint toLowerCase (s : string) : string :=
  match s with
  | EmptyString => EmptyString
  | String c r => String (lower c) (toLowerCase r)
  end.

Definition allowedExtensions : list string := ["wav"].

Definition isValidFileExtension (filePath : string) : bool :=
  let extension := toLowerCase (last_piece filePath) in
  if negb (String.eqb extension "") then existsb (String.eqb extension) allowedExtensions
  else false.

(** ** The page *)

Record select_option := mkOption {
  opt_value : string;
  opt_text : string;
  opt_disabled : bool
}.

(** The texts the status line is set to. *)
Inductive status_text :=
| StatusText (s : string)
| ModelFileNotFound (fullPath : string)       (* `Model file not found: ${fullPath}` *)
| StartingTranscription (model : string) (file : option string)
                                              (* `Starting transcription ... model: ${...}, file: ${...}` *)
| FailedToSend (e : exn).                     (* `Failed to send parameters: ${error}` *)

(** [selectedFilePath] and what the handlers read and write of the
    elements; [None] is an element the page does not have. *)
Record Page := mkPage {
  selectedFilePath : option string;
  selectedFileLabel : option string;          (* textContent of #selected-file-label *)
  startBtn : option bool;                     (* disabled of #start-btn *)
  statusEl : option status_text;              (* textContent of #status *)
  dropZone : option bool;                     (* #file-drop-zone has the class dragover *)
  modelSelect : option (list select_option);  (* the options of #model-select *)
  alerts : nat                                (* alerts shown *)
}.

Definition set_selected (path : option string) (p : Page) : Page :=
  mkPage path (selectedFileLabel p) (startBtn p) (statusEl p) (dropZone p)
         (modelSelect p) (alerts p).

(** [if (el) el.textContent = s] and the like *)
Definition set_label (s : string) (p : Page) : Page :=
  mkPage (selectedFilePath p)
         (match selectedFileLabel p with Some _ => Some s | None => None end)
         (startBtn p) (statusEl p) (dropZone p) (modelSelect p) (alerts p).

Definition set_start (disabled : bool) (p : Page) : Page :=
  mkPage (selectedFilePath p) (selectedFileLabel p)
         (match startBtn p with Some _ => Some disabled | None => None end)
         (statusEl p) (dropZone p) (modelSelect p) (alerts p).

Definition set_status (s : status_text) (p : Page) : Page :=
  mkPage (selectedFilePath p) (selectedFileLabel p) (startBtn p)
         (match statusEl p with Some _ => Some s | None => None end)
         (dropZone p) (modelSelect p) (alerts p).

Definition set_dragover (b : bool) (p : Page) : Page :=
  mkPage (selectedFilePath p) (selectedFileLabel p) (startBtn p) (statusEl p)
         (match dropZone p with Some _ => Some b | None => None end)
         (modelSelect p) (alerts p).

Definition set_options (opts : list select_option) (p : Page) : Page :=
  mkPage (selectedFilePath p) (selectedFileLabel p) (startBtn p) (statusEl p)
         (dropZone p)
         (match modelSelect p with Some _ => Some opts | None => None end)
         (alerts p).

Definition alert (p : Page) : Page :=
  mkPage (selectedFilePath p) (selectedFileLabel p) (startBtn p) (statusEl p)
         (dropZone p) (modelSelect p) (S (alerts p)).

(** The truth value of a path that may be [null] or [undefined]. *)
Definition is_path (path : option string) : bool :=
  match path with
  | Some s => negb (String.eqb s "")
  | None => false
  end.

(** ** Selecting a file *)

(** [setSelectedFile(path)] of the [DOMContentLoaded] handler *)
Definition setSelectedFile (path : option string) (p : Page) : Page :=
  if is_path path
     && negb (isValidFileExtension (match path with Some s => s | None => "" end))
  then alert p
  else
    set_start (negb (is_path path))
      (set_label (match path with Some s => s | None => "No file selected" end)
         (set_selected path p)).

(** The payload of a native drag and drop event. *)
Inductive DragDropEvent :=
| DragEnter
| DragOver
| DragLeave
| DragDrop (paths : option (list string))
| DragOther.

(** [forwardDragDropToUi(dropZone, setSelectedFile, event)], for a drop zone
    that is there. *)
Definition forwardDragDropToUi (setSelectedFile : string -> Page -> Page)
    (payload : DragDropEvent) (p : Page) : Page :=
  match payload with
  | DragEnter | DragOver => set_dragover true p
  | DragLeave => set_dragover false p
  | DragDrop paths =>
      let p1 := set_dragover false p in
      match match paths with Some (firstPath :: _) => Some firstPath | _ => None end with
      | Some firstPath =>
          if is_path (Some firstPath) then setSelectedFile firstPath p1 else p1
      | None => p1
      end
  | DragOther => p
  end.

(** A [File] of a drop or of the file input: its [path], where the
    environment gives one, and its [name]. *)
Record File := mkFile { file_path : option string; file_name : string }.

(** [(f as any).path ?? f.name] *)
Definition path_or_name (f : File) : string :=
  match file_path f with
  | Some s => s
  | None => file_name f
  end.

(** The [dataTransfer] of a drop: its first file and its text. *)
Record DataTransfer := mkDataTransfer { dt_file : option File; dt_text : string }.

(** The listener of [drop] on the drop zone *)
Definition on_zone_drop (dt : option DataTransfer) (p : Page) : Page :=
  let p1 := set_dragover false p in
  match dt with
  | None => p1
  | Some dt =>
      match dt_file dt with
      | Some file => setSelectedFile (Some (path_or_name file)) p1
      | None =>
          if is_path (Some (dt_text dt)) then setSelectedFile (Some (dt_text dt)) p1
          else p1
      end
  end.

(** The listener of [change] on the file input *)
Definition on_file_input (f : option File) (p : Page) : Page :=
  match f with
  | None => p
  | Some f => setSelectedFile (Some (path_or_name f)) p
  end.

(** [chooseFile(labelEl, startBtn)] once the dialog has resolved with
    [selection] ([None]: not a string). *)
Definition chooseFile (selection : option string) (p : Page) : Page :=
  let p1 :=
    match selection with
    | Some s => set_label s (set_selected (Some s) p)
    | None => set_label "No file selected" (set_selected None p)
    end in
  set_start (negb (is_path (selectedFilePath p1))) p1.

(** ** The models on offer *)

(** [exists(filename, ...)] under its [try]: a rejection counts as absent. *)
Definition exists_or_false (files : list string) (filename : string) (r : io_result)
  : bool :=
  match r with
  | None => file_exists files filename
  | Some _ => false
  end.

(** The options [refreshModelSelect] appends, given the files on the disk
    and the outcome of each [exists] call. *)
Definition model_options (files : list string) (probe : ModelKey -> io_result)
  : list select_option :=
  fold_left
    (fun opts key =>
       if exists_or_false files ("models/" ++ key_name key ++ ".bin") (probe key)
       then (opts ++ [mkOption (key_name key) (key_name key) false])%list
       else opts)
    MODEL_KEYS [].

(** [refreshModelSelect()], from its call to its return. *)
Definition refreshModelSelect (files : list string) (probe : ModelKey -> io_result)
    (p : Page) : Page :=
  match modelSelect p with
  | None => p
  | Some _ =>
      let opts := model_options files probe in
      if (length opts =? 0)%nat then
        set_start true (set_options (opts ++ [mkOption "" "No models downloaded" true])%list p)
      else
        set_start (negb (is_path (selectedFilePath p))) (set_options opts p)
  end.

(** The model select offers [key]. *)
Definition offers (p : Page) (key : ModelKey) : bool :=
  match modelSelect p with
  | Some opts =>
      existsb (fun o => String.eqb (opt_value o) (key_name key) && negb (opt_disabled o)) opts
  | None => false
  end.

(** ** Starting a transcription *)

(** What [Number.parseInt] returns. *)
Inductive number := NaN | Num (z : Z) | PosInfinity | NegInfinity.

(** [Number.isNaN(parsed) || parsed <= 0] *)
Definition not_positive (n : number) : bool :=
  match n with
  | NaN | NegInfinity => true
  | Num z => z <=? 0
  | PosInfinity => false
  end.

(** [parsePositiveInt(input, fallback)], given what [Number.parseInt] makes
    of the input's value ([None]: no input element). *)
Definition parsePositiveInt (input : option number) (fallback : number) : number :=
  match input with
  | None => fallback
  | Some parsed => if not_positive parsed then fallback else parsed
  end.

(** [getOutputFormat()], given the value of the checked radio, if any. *)
Definition getOutputFormat (radio : option string) : string :=
  match radio with
  | Some v => v
  | None => "srt"
  end.

Record TranscriptionRequest := mkRequest {
  filePath : option string;
  outputFormat : string;
  model : string;
  maxSegmentLength : number;
  maxCharactersPerSegment : number
}.

(** What the start handler reads of the form. *)
Record Form := mkForm {
  select_value : string;                (* modelSelect.value *)
  radio : option string;                (* the checked output-format radio *)
  maxSegmentInput : option number;
  maxCharInput : option number
}.

(** The [await] the start handler is suspended at. *)
Inductive click_phase :=
| AtDataDir                             (* await appLocalDataDir() *)
| AtJoin                                (* await join(baseDir, 'models', ...) *)
| AtExists (fullPath : string)          (* await exists(fullPath, ...).catch(...) *)
| AtInvoke.                             (* await invoke("transcribe_command", ...) *)

Inductive click_reply :=
| Path (s : string)
| Exists (b : bool)
| Transcript (s : string)
| Fails (e : exn).

Inductive click_result :=
| Awaiting (ph : click_phase)
| Invoked (request : TranscriptionRequest)   (* suspended at [AtInvoke], the backend called *)
| Finished
| Rejects (e : exn)
| Stuck.                                     (* a reply of the wrong kind *)

(** The start handler up to its first [await]. *)
Definition start_click (form : Form) (p : Page) : Page * click_result :=
  if negb (is_path (selectedFilePath p)) then
    (set_status (StatusText "Please select a file before starting.") p, Finished)
  else
    match modelSelect p with
    | None => (set_status (StatusText "No model selected.") p, Finished)
    | Some _ =>
        if negb (is_path (Some (select_value form))) then
          (set_status (StatusText "No model selected.") p, Finished)
        else (p, Awaiting AtDataDir)
    end.

(** [runTranscription(request, statusEl)] once [invoke] has settled: the
    [catch] logs the error. *)
Definition runTranscription (r : click_reply) (p : Page) : Page * outcome unit :=
  match r with
  | Transcript _ => (set_status (StatusText "Transcription completed!") p, Ok tt)
  | Fails _ => (p, Ok tt)
  | _ => (p, Unmodelled)
  end.

(** The start handler from the [await] it is suspended at. *)
Definition click_resume (form : Form) (ph : click_phase) (r : click_reply) (p : Page)
  : Page * click_result :=
  match ph, r with
  | AtDataDir, Path _ => (p, Awaiting AtJoin)
  | AtDataDir, Fails e => (p, Rejects e)
  | AtJoin, Path fullPath => (p, Awaiting (AtExists fullPath))
  | AtJoin, Fails e => (p, Rejects e)
  | AtExists fullPath, (Exists _ | Fails _) =>
      let modelExists := match r with Exists b => b | _ => false end in
      if negb modelExists then (set_status (ModelFileNotFound fullPath) p, Finished)
      else
        let request :=
          mkRequest (selectedFilePath p) (getOutputFormat (radio form)) fullPath
                    (parsePositiveInt (maxSegmentInput form) (Num 8))
                    (parsePositiveInt (maxCharInput form) (Num 80)) in
        (set_status (StartingTranscription (select_value form) (selectedFilePath p))
           (set_start true p),
         Invoked request)
  | AtInvoke, _ =>
      match runTranscription r p with
      | (p1, Ok _) => (set_start (negb (is_path (selectedFilePath p1))) p1, Finished)
      | (p1, Throw e) =>
          (set_start (negb (is_path (selectedFilePath p1)))
             (set_status (FailedToSend e) p1), Finished)
      | (p1, Unmodelled) => (p1, Stuck)
      end
  | _, _ => (p, Stuck)
  end.

(** The start handler followed through the calls it awaits, with nothing
    else happening in between. *)
Fixpoint click_run (form : Form) (st : Page * click_result) (replies : list click_reply)
  : Page * click_result :=
  match replies with
  | [] => st
  | r :: rest =>
      match snd st with
      | Awaiting ph => click_run form (click_resume form ph r (fst st)) rest
      | Invoked _ => click_run form (click_resume form AtInvoke r (fst st)) rest
      | _ => st
      end
  end.

(** What happens on the page. *)
Inductive event :=
| NativeDragDrop (payload : DragDropEvent)   (* onDragDropEvent, with a drop zone *)
| ZoneDragOver
| ZoneDragEnter
| ZoneDragLeave
| ZoneDrop (dt : option DataTransfer)
| FileInputChange (f : option File)
| FileChosen (selection : option string)     (* the dialog of chooseFile resolved *)
| ModelsRefreshed (files : list string) (probe : ModelKey -> io_result)
| StartClicked (form : Form)
| StartResumed (form : Form) (ph : click_phase) (r : click_reply).

Definition handle (p : Page) (e : event) : Page :=
  match e with
  | NativeDragDrop payload =>
      match dropZone p with
      | Some _ => forwardDragDropToUi (fun path => setSelectedFile (Some path)) payload p
      | None => p
      end
  | ZoneDragOver | ZoneDragEnter => set_dragover true p
  | ZoneDragLeave => set_dragover false p
  | ZoneDrop dt => match dropZone p with Some _ => on_zone_drop dt p | None => p end
  | FileInputChange f => on_file_input f p
  | FileChosen selection => chooseFile selection p
  | ModelsRefreshed files probe => refreshModelSelect files probe p
  | StartClicked form => fst (start_click form p)
  | StartResumed form ph r => fst (click_resume form ph r p)
  end.



(** The start button, where there is one, is enabled only with a file
    selected. *)
Definition start_guarded (p : Page) : Prop :=
  startBtn p = Some false -> is_path (selectedFilePath p) = true.

(** A number a segment limit can be: above 0. *)
Definition positive (n : number) : Prop :=
  match n with
  | Num z => 0 < z
  | PosInfinity => True
  | NaN | NegInfinity => False
  end.

(** A string with a dot in it. *)
Fixpoint has_dot (s : string) : bool :=
  match s with
  | EmptyString => false
  | String c r => Ascii.eqb c "." || has_dot r
  end.

(** * Properties *)

(** ** Association lists *)

Lemma assoc_without_same k ps : assoc k (without k ps) = None.
Proof.
  induction ps as [|[k' v] r IH]; simpl; auto.
  destruct (String.eqb k k') eqn:E; simpl; auto.
  now rewrite IH, E.
Qed.

Lemma assoc_without_other k k' ps :
  k <> k' -> assoc k (without k' ps) = assoc k ps.
Proof.
  intros N. induction ps as [|[k0 v] r IH]; simpl; auto.
  destruct (String.eqb k' k0) eqn:E; simpl.
  - apply String.eqb_eq in E. subst k0. rewrite IH.
    destruct (assoc k r); auto.
    apply String.eqb_neq in N. now rewrite N.
  - now rewrite IH.
Qed.

Lemma assoc_set_same k v ps : assoc k (assoc_set k v ps) = Some v.
Proof.
  induction ps as [|[k' v'] r IH]; simpl.
  - now rewrite String.eqb_refl.
  - destruct (String.eqb k k') eqn:E; simpl.
    + now rewrite assoc_without_same, String.eqb_refl.
    + now rewrite IH.
Qed.

Lemma assoc_set_other k k' v ps :
  k <> k' -> assoc k (assoc_set k' v ps) = assoc k ps.
Proof.
  intros N. pose proof N as N'. apply String.eqb_neq in N'.
  induction ps as [|[k0 v0] r IH]; simpl.
  - now rewrite N'.
  - destruct (String.eqb k' k0) eqn:E; simpl.
    + apply String.eqb_eq in E. subst k0.
      rewrite assoc_without_other by assumption. now rewrite N'.
    + now rewrite IH.
Qed.

Lemma assoc_set_lookup k k' v ps :
  assoc k (assoc_set k' v ps) = if String.eqb k k' then Some v else assoc k ps.
Proof.
  destruct (String.eqb k k') eqn:E.
  - apply String.eqb_eq in E. subst. apply assoc_set_same.
  - apply String.eqb_neq in E. now apply assoc_set_other.
Qed.

(** A spread reads the later object first. *)
Lemma assoc_spread_props k extra : forall base,
  assoc k (spread_props base extra) =
  match assoc k extra with
  | Some v => Some v
  | None => assoc k base
  end.
Proof.
  unfold spread_props.
  induction extra as [|[k0 v0] r IH]; intros base; simpl; auto.
  rewrite IH. destruct (assoc k r); auto.
  rewrite assoc_set_lookup. now destruct (String.eqb k k0).
Qed.

Lemma key_name_inj a b : key_name a = key_name b -> a = b.
Proof. destruct a, b; simpl; intros H; try reflexivity; discriminate H. Qed.

Lemma defaultState_lookup key : assoc (key_name key) defaultState = Some fresh_record.
Proof. now destruct key. Qed.

(** The lookups that rewrite away. *)
Create Rewrite HintDb lookups.
#[export] Hint Rewrite assoc_without_same assoc_set_same assoc_spread_props
  defaultState_lookup : lookups.

(** ** Index names are not names of the code *)

Lemma to_uint_not_Nil i : Nat.to_uint i <> Decimal.Nil.
Proof.
  intros H.
  pose proof (DecimalNat.Unsigned.to_of (Nat.to_uint i)) as T.
  rewrite DecimalNat.Unsigned.of_to in T.
  rewrite H in T. discriminate T.
Qed.

Lemma index_name_not_name i : is_name (index_name i) = false.
Proof.
  unfold index_name. pose proof (to_uint_not_Nil i) as N.
  destruct (Nat.to_uint i); try reflexivity. now elim N.
Qed.

Lemma assoc_index_from {A} k (mk : A -> json) xs : forall i,
  is_name k = true -> assoc k (index_from i mk xs) = None.
Proof.
  induction xs as [|x r IH]; intros i N; simpl; auto.
  rewrite IH by assumption.
  destruct (String.eqb k (index_name i)) eqn:E; auto.
  apply String.eqb_eq in E. rewrite E, index_name_not_name in N. discriminate N.
Qed.

(** Only an object has a property with a proper name. *)
Lemma named_prop_object v k x :
  is_name k = true -> assoc k (own_props v) = Some x -> exists fs, v = JObj fs.
Proof.
  intros N H. destruct v; simpl in H; try discriminate H.
  - rewrite assoc_index_from in H by assumption. discriminate H.
  - rewrite assoc_index_from in H by assumption. discriminate H.
  - now exists fields.
Qed.

Lemma key_name_is_name key : is_name (key_name key) = true.
Proof. now destruct key. Qed.

(** ** RevA: the inline reset of [loadStates] *)

Lemma reset_downloading_spec p k :
  match assoc k p with
  | None | Some JNull => reset_downloading p k = Throw TypeError
  | Some r =>
      if is_str (assoc "state" (own_props r)) "downloading" then
        exists fs, r = JObj fs /\
          reset_downloading p k =
          Ok (assoc_set k (reset_record fs)
                (assoc_set k (JObj (assoc_set "state" (JStr "not-downloaded") fs)) p))
      else reset_downloading p k = Ok p
  end.
Proof.
  unfold reset_downloading, get_of, get.
  destruct (assoc k p) as [r|] eqn:E; [|reflexivity].
  destruct r; simpl; try reflexivity.
  - rewrite assoc_index_from by reflexivity. reflexivity.
  - rewrite assoc_index_from by reflexivity. reflexivity.
  - destruct (is_str (assoc "state" fields) "downloading") eqn:D.
    + exists fields. split; [reflexivity|].
      unfold assign. rewrite E. simpl.
      rewrite assoc_set_same. reflexivity.
    + reflexivity.
Qed.

Lemma reset_downloading_modelled p k : reset_downloading p k <> Unmodelled.
Proof.
  pose proof (reset_downloading_spec p k) as S.
  destruct (assoc k p) as [r|]; [|congruence].
  destruct r; try congruence;
    destruct (is_str _ "downloading"); try congruence;
    destruct S as (fs & _ & ->); congruence.
Qed.

Lemma forEach_reset_modelled ks : forall p,
  forEach reset_downloading ks p <> Unmodelled.
Proof.
  induction ks as [|k r IH]; intros p; simpl; [congruence|].
  pose proof (reset_downloading_modelled p k) as M.
  destruct (reset_downloading p k); simpl; [apply IH|congruence|congruence].
Qed.

Lemma settled_reset_record fs : settled (Some (reset_record fs)) = true.
Proof.
  unfold settled, reset_record. simpl.
  rewrite assoc_set_other by discriminate. now rewrite assoc_set_same.
Qed.

(** One step of the reset settles its key and unsettles no other. *)
Lemma reset_downloading_step p k p' :
  reset_downloading p k = Ok p' ->
  settled (assoc k p') = true /\
  (forall k', settled (assoc k' p) = true -> settled (assoc k' p') = true) /\
  (forall k', assoc k' p' <> None -> assoc k' p <> None).
Proof.
  intros H. pose proof (reset_downloading_spec p k) as S.
  destruct (assoc k p) as [r|] eqn:E; [|congruence].
  destruct (is_str (assoc "state" (own_props r)) "downloading") eqn:D.
  - assert (exists fs, r = JObj fs /\ reset_downloading p k =
      Ok (assoc_set k (reset_record fs)
            (assoc_set k (JObj (assoc_set "state" (JStr "not-downloaded") fs)) p)))
      as (fs & -> & R) by (destruct r; try congruence; exact S).
    rewrite R in H. injection H as <-.
    split; [|split].
    + rewrite assoc_set_same. apply settled_reset_record.
    + intros k' Hk'. rewrite assoc_set_lookup.
      destruct (String.eqb k' k) eqn:K; [apply settled_reset_record|].
      apply String.eqb_neq in K. now rewrite assoc_set_other.
    + intros k' Hk'. rewrite assoc_set_lookup in Hk'.
      destruct (String.eqb k' k) eqn:K.
      * apply String.eqb_eq in K. subst k'. congruence.
      * apply String.eqb_neq in K. now rewrite assoc_set_other in Hk'.
  - assert (reset_downloading p k = Ok p) as R
      by (destruct r; try congruence; exact S).
    rewrite R in H. injection H as <-.
    split; [|split]; auto.
    rewrite E. unfold settled. destruct r; try congruence; now rewrite D.
Qed.

Lemma forEach_reset_settles ks : forall p p',
  forEach reset_downloading ks p = Ok p' ->
  (forall k, In k ks -> settled (assoc k p') = true) /\
  (forall k', settled (assoc k' p) = true -> settled (assoc k' p') = true) /\
  (forall k', assoc k' p' <> None -> assoc k' p <> None).
Proof.
  induction ks as [|k r IH]; intros p p' H; simpl in H.
  - injection H as <-. split; [intros k []|split; auto].
  - destruct (reset_downloading p k) as [p1| |] eqn:R; simpl in H; try discriminate H.
    destruct (reset_downloading_step _ _ _ R) as (S1 & S2 & S3).
    destruct (IH _ _ H) as (I1 & I2 & I3).
    split; [|split].
    + intros k0 [<-|Hin]; auto.
    + auto.
    + auto.
Qed.

Lemma assoc_in_keys k ps : assoc k ps <> None -> In k (map fst ps).
Proof.
  induction ps as [|[k' v] r IH]; simpl; [congruence|].
  destruct (assoc k r); [intros _; right; apply IH; congruence|].
  destruct (String.eqb k k') eqn:E; [|congruence].
  apply String.eqb_eq in E. now left.
Qed.

(** [loadStates] returns, in both revisions. *)
Lemma loadStates_returns rev item : exists m, loadStates rev item = Ok m.
Proof.
  destruct item as [raw|]; [|now exists defaultState].
  unfold loadStates, loadStates_try.
  destruct (is_empty raw); [now exists defaultState|].
  destruct raw as [t|v]; simpl; [now exists defaultState|].
  destruct rev; [|eexists; reflexivity].
  destruct (Object_keys v) as [ks| |] eqn:K; simpl;
    [|now exists defaultState|destruct v; discriminate K].
  pose proof (forEach_reset_modelled ks (own_props v)) as M.
  destruct (forEach reset_downloading ks (own_props v)); simpl;
    [eexists; reflexivity|now exists defaultState|congruence].
Qed.

(** What RevA's [loadStates] returns has a settled record for every
    catalog key. *)
Lemma loadStates_RevA_settled item m key :
  loadStates RevA item = Ok m -> settled (assoc (key_name key) m) = true.
Proof.
  assert (D : settled (assoc (key_name key) defaultState) = true)
    by now rewrite defaultState_lookup.
  destruct item as [raw|]; simpl; [|intros H; injection H as <-; exact D].
  unfold loadStates_try.
  destruct (is_empty raw); [intros H; injection H as <-; exact D|].
  destruct raw as [t|v]; simpl; [intros H; injection H as <-; exact D|].
  destruct (Object_keys v) as [ks| |] eqn:K; simpl;
    [|intros H; injection H as <-; exact D|discriminate].
  destruct (forEach reset_downloading ks (own_props v)) as [ps| |] eqn:F; simpl;
    [|intros H; injection H as <-; exact D|discriminate].
  intros H. injection H as <-.
  rewrite assoc_spread_props.
  destruct (assoc (key_name key) ps) as [x|] eqn:A; [|exact D].
  destruct (forEach_reset_settles _ _ _ F) as (I1 & _ & I3).
  rewrite <- A. apply I1.
  assert (ks = map fst (own_props v)) as -> by (destruct v; cbn in K |- *; congruence).
  apply assoc_in_keys, I3. congruence.
Qed.

(** C6: [loadStates] is total and never fails.  Whatever the storage holds
    (no item, a text that [JSON.parse] rejects, or any text it accepts),
    both revisions return a mapping; with no item, and with a text on which
    [JSON.parse] throws, they return the catalog default, which has a record
    of state 'not-downloaded' and progress 0 for each of the five catalog
    identifiers and nothing else. *)
Theorem loadStates_never_fails (rev : revision) :
  (forall item, exists states, loadStates rev item = Ok states) /\
  loadStates rev None = Ok defaultState /\
  (forall text, JSON_parse (Unparseable text) = Throw SyntaxError /\
                loadStates rev (Some (Unparseable text)) = Ok defaultState) /\
  defaultState = map (fun key => (key_name key, fresh_record)) MODEL_KEYS.
Proof.
  split; [intros item; apply loadStates_returns|].
  split; [reflexivity|]. split; [|reflexivity].
  intros text. split; [reflexivity|].
  unfold loadStates, loadStates_try.
  destruct (is_empty (Unparseable text)); reflexivity.
Qed.

(** C9: from a persisted mapping that lacks some catalog identifiers,
    [loadStates] (RevB) returns a mapping with a record for each of the
    five catalog identifiers: the stored record where the mapping has one,
    and a record of state 'not-downloaded' with progress 0 where it has
    none. *)
Theorem loadStates_fills_missing (fields : props) :
  exists states,
    loadStates RevB (Some (Parses (JObj fields))) = Ok states /\
    forall key,
      assoc (key_name key) states =
      match assoc (key_name key) fields with
      | Some r => Some r
      | None => Some fresh_record
      end.
Proof.
  eexists. split; [reflexivity|].
  intros key. unfold spread. simpl.
  now autorewrite with lookups.
Qed.

(** ** RevB: [normalizeStatesOnStartup] *)

Lemma is_str_exclusive x a b :
  is_str x a = true -> a <> b -> is_str x b = false.
Proof.
  destruct x as [[]|]; simpl; try discriminate.
  intros E N. apply String.eqb_eq in E. subst. now apply String.eqb_neq.
Qed.

Lemma get_truthy st k :
  truthy st = true -> get st k = Ok (assoc k (own_props st)).
Proof. destruct st; simpl; congruence. Qed.

Lemma needs_reset_not_100 st : needs_reset st = true -> needs_100 st = false.
Proof.
  unfold needs_reset, needs_100. intros H.
  apply andb_true_iff in H. destruct H as [H _].
  apply orb_true_iff in H.
  destruct H as [H|H]; erewrite is_str_exclusive; eauto; discriminate.
Qed.

(** One step of the normalization on an object. *)
Lemma normalize_key_obj fs c key :
  match assoc (key_name key) fs with
  | None => normalize_key (JObj fs, c) key = Ok (JObj fs, c)
  | Some st =>
      if negb (truthy st) then normalize_key (JObj fs, c) key = Ok (JObj fs, c)
      else if needs_reset st then
        normalize_key (JObj fs, c) key =
        Ok (JObj (assoc_set (key_name key) fresh_record fs), true)
      else if needs_100 st then
        exists f, st = JObj f /\
          normalize_key (JObj fs, c) key =
          Ok (JObj (assoc_set (key_name key)
                      (JObj (assoc_set "progress" (JNum 100) f)) fs), true)
      else normalize_key (JObj fs, c) key = Ok (JObj fs, c)
  end.
Proof.
  unfold normalize_key. simpl.
  destruct (assoc (key_name key) fs) as [st|] eqn:E; [|reflexivity].
  destruct (truthy st) eqn:T; simpl; [|reflexivity].
  rewrite !get_truthy by assumption. simpl.
  destruct (needs_reset st) eqn:R.
  - pose proof (needs_reset_not_100 _ R) as N.
    unfold needs_reset in R. unfold needs_100 in N.
    rewrite R. simpl. rewrite N. reflexivity.
  - unfold needs_reset in R. rewrite R. simpl.
    destruct (needs_100 st) eqn:N.
    + unfold needs_100 in N. rewrite N. rewrite E.
      apply andb_true_iff in N. destruct N as [N _].
      destruct (assoc "state" (own_props st)) as [x|] eqn:S; [|discriminate N].
      destruct (named_prop_object st "state" x eq_refl S) as (f & ->).
      exists f. split; reflexivity.
    + unfold needs_100 in N. rewrite N. reflexivity.
Qed.

Lemma is_normal_fresh : is_normal (Some fresh_record) = true.
Proof. reflexivity. Qed.

Lemma normalize_key_step fs c key :
  exists fs1 c1,
    normalize_key (JObj fs, c) key = Ok (JObj fs1, c1) /\
    is_normal (assoc (key_name key) fs1) = true /\
    (forall k', k' <> key_name key -> assoc k' fs1 = assoc k' fs) /\
    (c1 = false -> fs1 = fs /\ c = false) /\
    (is_normal (assoc (key_name key) fs) = true -> fs1 = fs /\ c1 = c) /\
    (has_state (assoc (key_name key) fs) "downloading" = true ->
     assoc (key_name key) fs1 = Some fresh_record).
Proof.
  pose proof (normalize_key_obj fs c key) as S.
  assert (D : forall st, has_state (Some st) "downloading" = true ->
                         truthy st = true /\ needs_reset st = true).
  { intros st H. simpl in H. unfold needs_reset. rewrite H. simpl.
    rewrite orb_true_r. split; [|reflexivity].
    destruct (assoc "state" (own_props st)) as [x|] eqn:A; [|discriminate H].
    destruct (named_prop_object st "state" x eq_refl A) as (f & ->).
    reflexivity. }
  destruct (assoc (key_name key) fs) as [st|] eqn:E.
  2:{ exists fs, c. rewrite E. repeat split; auto; discriminate. }
  destruct (truthy st) eqn:T; simpl in S.
  2:{ exists fs, c. rewrite E. simpl. rewrite T. repeat split; auto.
      intros H. apply D in H. destruct H as [H _]. congruence. }
  destruct (needs_reset st) eqn:R.
  { exists (assoc_set (key_name key) fresh_record fs), true.
    rewrite assoc_set_same. simpl. rewrite T, R. simpl.
    repeat split; auto; try discriminate.
    intros k' N. now apply assoc_set_other. }
  destruct (needs_100 st) eqn:N.
  { destruct S as (f & -> & S).
    exists (assoc_set (key_name key) (JObj (assoc_set "progress" (JNum 100) f)) fs), true.
    rewrite assoc_set_same.
    assert (is_normal (Some (JObj (assoc_set "progress" (JNum 100) f))) = true) as NM.
    { unfold is_normal, needs_reset, needs_100. simpl.
      unfold needs_100 in N. simpl in N.
      apply andb_true_iff in N. destruct N as [N _].
      rewrite assoc_set_other by discriminate. rewrite assoc_set_same.
      rewrite (is_str_exclusive _ _ "downloading" N) by discriminate.
      rewrite (is_str_exclusive _ _ "not-downloaded" N) by discriminate.
      rewrite N. reflexivity. }
    split; [exact S|]. split; [exact NM|].
    split; [intros k' K; now apply assoc_set_other|].
    split; [discriminate|].
    split.
    - simpl. rewrite R, N. discriminate.
    - intros H. apply D in H. destruct H as [_ H]. congruence. }
  exists fs, c. rewrite E. simpl. rewrite T, R, N.
  repeat split; auto.
  intros H. apply D in H. destruct H as [_ H]. congruence.
Qed.

Lemma normalize_loop ks : forall fs c,
  exists fs' c',
    forEach normalize_key ks (JObj fs, c) = Ok (JObj fs', c') /\
    (forall key, In key ks -> is_normal (assoc (key_name key) fs') = true) /\
    (forall k', is_normal (assoc k' fs) = true -> is_normal (assoc k' fs') = true) /\
    (c' = false -> fs' = fs /\ c = false) /\
    ((forall key, In key ks -> is_normal (assoc (key_name key) fs) = true) ->
     fs' = fs /\ c' = c) /\
    (forall key, In key ks ->
       has_state (assoc (key_name key) fs) "downloading" = true ->
       assoc (key_name key) fs' = Some fresh_record) /\
    (forall k', assoc k' fs = Some fresh_record -> assoc k' fs' = Some fresh_record).
Proof.
  induction ks as [|k0 ks IH]; intros fs c.
  - exists fs, c. simpl. repeat split; auto; intros key [].
  - destruct (normalize_key_step fs c k0) as (fs1 & c1 & S & S1 & S2 & S3 & S4 & S5).
    destruct (IH fs1 c1) as (fs' & c' & L & L1 & L2 & L3 & L4 & L5 & L6).
    assert (P : forall k', is_normal (assoc k' fs) = true -> is_normal (assoc k' fs1) = true).
    { intros k' H. destruct (String.eqb k' (key_name k0)) eqn:K.
      - apply String.eqb_eq in K. now subst k'.
      - apply String.eqb_neq in K. now rewrite S2. }
    assert (F : forall k', assoc k' fs = Some fresh_record -> assoc k' fs1 = Some fresh_record).
    { intros k' H. destruct (String.eqb k' (key_name k0)) eqn:K.
      - apply String.eqb_eq in K. subst k'.
        destruct S4 as [-> _]; [rewrite H; apply is_normal_fresh|exact H].
      - apply String.eqb_neq in K. now rewrite S2. }
    exists fs', c'. simpl. rewrite S. simpl.
    split; [exact L|].
    split; [intros key [<-|Hin]; auto|].
    split; [auto|].
    split; [intros H; destruct (L3 H) as [-> H1]; auto|].
    split.
    { intros H. destruct S4 as [-> ->]; [apply H; now left|].
      apply L4. intros key Hin. apply H. now right. }
    split; [|auto].
    intros key Hin D.
    destruct (String.eqb (key_name key) (key_name k0)) eqn:K.
    + apply String.eqb_eq, key_name_inj in K. subst key. auto.
    + apply String.eqb_neq in K. destruct Hin as [<-|Hin]; [congruence|].
      apply L5; [exact Hin|]. now rewrite S2.
Qed.

(** On a value that is neither an object nor [null] the loop finds no
    record. *)
Lemma normalize_loop_other parsed ks : forall c,
  parsed <> JNull -> (forall fs, parsed <> JObj fs) ->
  forEach normalize_key ks (parsed, c) = Ok (parsed, c).
Proof.
  intros c N O. induction ks as [|k0 ks IH]; simpl; [reflexivity|].
  assert (normalize_key (parsed, c) k0 = Ok (parsed, c)) as ->; [|exact IH].
  unfold normalize_key. simpl.
  destruct (assoc (key_name k0) (own_props parsed)) as [x|] eqn:A.
  - destruct (named_prop_object _ _ _ (key_name_is_name k0) A) as (fs & ->).
    now elim (O fs).
  - destruct parsed; simpl in *; try congruence; now rewrite A.
Qed.

(** [normalizeStatesOnStartup] returns; it writes the storage only, and
    only for a stored object in which the loop changed a record. *)
Lemma normalizeStatesOnStartup_spec w :
  snd (normalizeStatesOnStartup w) = Ok tt /\
  match localStorage w with
  | Some (Parses (JObj fs)) =>
      exists fs' c',
        forEach normalize_key MODEL_KEYS (JObj fs, false) = Ok (JObj fs', c') /\
        fst (normalizeStatesOnStartup w) =
        (if c' then with_storage (Some (Parses (JObj fs'))) w else w)
  | _ => fst (normalizeStatesOnStartup w) = w
  end.
Proof.
  unfold normalizeStatesOnStartup, try_catch.
  destruct (localStorage w) as [[t|v]|] eqn:E; cbn -[forEach].
  - destruct (String.eqb t ""); simpl; auto.
  - destruct v as [| | | | |fields];
      try (rewrite normalize_loop_other by (try discriminate; intros; discriminate));
      try (split; reflexivity).
    destruct (normalize_loop MODEL_KEYS fields false) as (fs' & c' & L & _).
    rewrite L. destruct c'; simpl; split; try reflexivity; exists fs'.
    + exists true. split; reflexivity.
    + exists false. split; reflexivity.
  - split; reflexivity.
Qed.

(** ** Startup: a record claiming 'downloading' does not survive *)

Lemma is_fresh_reset_record fs : is_fresh (Some (reset_record fs)) = true.
Proof.
  unfold is_fresh, has_state, has_progress, reset_record. simpl.
  rewrite assoc_set_same.
  rewrite assoc_set_other by discriminate. now rewrite assoc_set_same.
Qed.

Lemma fresh_not_downloading r :
  is_fresh r = true -> has_state r "downloading" = false.
Proof.
  unfold is_fresh. intros H. apply andb_true_iff in H. destruct H as [H _].
  destruct r as [v|]; [|reflexivity]. simpl in *.
  eapply is_str_exclusive; eauto. discriminate.
Qed.

Lemma reset_downloading_fresh p k p' :
  reset_downloading p k = Ok p' ->
  (forall k', k' <> k -> assoc k' p' = assoc k' p) /\
  (forall k', is_fresh (assoc k' p) = true -> is_fresh (assoc k' p') = true) /\
  (has_state (assoc k p) "downloading" = true -> is_fresh (assoc k p') = true).
Proof.
  intros H. pose proof (reset_downloading_spec p k) as S.
  destruct (assoc k p) as [r|] eqn:E; [|congruence].
  destruct (is_str (assoc "state" (own_props r)) "downloading") eqn:D.
  - assert (exists fs, r = JObj fs /\ reset_downloading p k =
      Ok (assoc_set k (reset_record fs)
            (assoc_set k (JObj (assoc_set "state" (JStr "not-downloaded") fs)) p)))
      as (fs & -> & R) by (destruct r; try congruence; exact S).
    rewrite R in H. injection H as <-.
    assert (O : forall k', k' <> k ->
                assoc k' (assoc_set k (reset_record fs)
                  (assoc_set k (JObj (assoc_set "state" (JStr "not-downloaded") fs)) p))
                = assoc k' p)
      by (intros k' N; now rewrite !assoc_set_other).
    split; [exact O|]. split.
    + intros k' F. destruct (String.eqb k' k) eqn:K.
      * apply String.eqb_eq in K. subst k'.
        rewrite assoc_set_same. apply is_fresh_reset_record.
      * apply String.eqb_neq in K. now rewrite O.
    + intros _. rewrite assoc_set_same. apply is_fresh_reset_record.
  - assert (reset_downloading p k = Ok p) as R
      by (destruct r; try congruence; exact S).
    rewrite R in H. injection H as <-.
    split; [auto|]. split; [auto|].
    rewrite E. simpl. congruence.
Qed.

Lemma forEach_reset_fresh ks : forall p p',
  forEach reset_downloading ks p = Ok p' ->
  (forall k', is_fresh (assoc k' p) = true -> is_fresh (assoc k' p') = true) /\
  (forall k, In k ks -> has_state (assoc k p) "downloading" = true ->
             is_fresh (assoc k p') = true).
Proof.
  induction ks as [|k0 ks IH]; intros p p' H; simpl in H.
  - injection H as <-. split; [auto|intros k []].
  - destruct (reset_downloading p k0) as [p1| |] eqn:R; simpl in H; try discriminate H.
    destruct (reset_downloading_fresh _ _ _ R) as (S1 & S2 & S3).
    destruct (IH _ _ H) as (I1 & I2).
    split; [auto|].
    intros k Hin D. destruct (String.eqb k k0) eqn:K.
    + apply String.eqb_eq in K. subst k. auto.
    + apply String.eqb_neq in K. destruct Hin as [->|Hin]; [congruence|].
      apply I2; [exact Hin|]. now rewrite S1.
Qed.

(** The record [loadStates] of RevB reads for a key. *)
Lemma record_of_cases item key :
  record_of item key =
  match item with
  | Some (Parses v) =>
      match assoc (key_name key) (own_props v) with
      | Some r => Some r
      | None => Some fresh_record
      end
  | _ => Some fresh_record
  end.
Proof.
  unfold record_of, loadStates, loadStates_try.
  destruct item as [[t|v]|]; simpl.
  - destruct (String.eqb t ""); simpl; apply defaultState_lookup.
  - unfold spread. now rewrite assoc_spread_props, defaultState_lookup.
  - apply defaultState_lookup.
Qed.

(** A stored record claims 'downloading' only inside a stored object. *)
Lemma record_downloading item key :
  has_state (record_of item key) "downloading" = true ->
  exists fs, item = Some (Parses (JObj fs)) /\
             has_state (assoc (key_name key) fs) "downloading" = true.
Proof.
  rewrite record_of_cases.
  destruct item as [[t|v]|]; try discriminate.
  destruct (assoc (key_name key) (own_props v)) as [r|] eqn:A; [|discriminate].
  destruct (named_prop_object _ _ _ (key_name_is_name key) A) as (fs & ->).
  intros H. exists fs. simpl in A. rewrite A. auto.
Qed.

Lemma downloading_needs_reset st :
  has_state (Some st) "downloading" = true ->
  truthy st = true /\ needs_reset st = true.
Proof.
  intros H. simpl in H. unfold needs_reset. rewrite H. simpl.
  rewrite orb_true_r. split; [|reflexivity].
  destruct (assoc "state" (own_props st)) as [x|] eqn:A; [|discriminate H].
  destruct (named_prop_object st "state" x eq_refl A) as (f & ->).
  reflexivity.
Qed.

Lemma normal_not_downloading r :
  is_normal r = true -> has_state r "downloading" = false.
Proof.
  destruct r as [st|]; [|reflexivity].
  intros N. destruct (has_state (Some st) "downloading") eqn:D; [|reflexivity].
  destruct (downloading_needs_reset _ D) as [T R].
  simpl in N. rewrite T, R in N. discriminate N.
Qed.

(** The storage after [normalizeStatesOnStartup], when it held an object. *)
Lemma normalized_storage w fs :
  localStorage w = Some (Parses (JObj fs)) ->
  exists fs' c',
    forEach normalize_key MODEL_KEYS (JObj fs, false) = Ok (JObj fs', c') /\
    fst (normalizeStatesOnStartup w) =
      (if c' then with_storage (Some (Parses (JObj fs'))) w else w) /\
    localStorage (fst (normalizeStatesOnStartup w)) = Some (Parses (JObj fs')).
Proof.
  intros E. destruct (normalizeStatesOnStartup_spec w) as [_ S].
  rewrite E in S. destruct S as (fs' & c' & L & W).
  exists fs', c'. split; [exact L|]. split; [exact W|].
  rewrite W. destruct c'; [reflexivity|].
  destruct (normalize_loop MODEL_KEYS fs false) as (fs2 & c2 & L' & _ & _ & L3 & _).
  rewrite L in L'. injection L' as <- <-.
  destruct (L3 eq_refl) as [-> _]. exact E.
Qed.

Lemma In_MODEL_KEYS key : In key MODEL_KEYS.
Proof. unfold MODEL_KEYS. destruct key; simpl; auto 6. Qed.

Lemma normalized_no_downloading w key :
  has_state (record_of (localStorage (fst (normalizeStatesOnStartup w))) key)
            "downloading" = false.
Proof.
  destruct (has_state _ "downloading") eqn:D; [|reflexivity].
  destruct (record_downloading _ _ D) as (fs1 & E1 & D1).
  destruct (normalizeStatesOnStartup_spec w) as [_ S].
  destruct (localStorage w) as [[t|v]|] eqn:E.
  - rewrite S, E in E1. discriminate E1.
  - destruct v as [| | | | |fs];
      try (rewrite S, E in E1; discriminate E1).
    destruct (normalized_storage w fs E) as (fs' & c' & L & _ & W).
    rewrite W in E1. injection E1 as <-.
    destruct (normalize_loop MODEL_KEYS fs false) as (fs2 & c2 & L' & L1 & _).
    rewrite L in L'. injection L' as <- <-.
    rewrite (normal_not_downloading _ (L1 key (In_MODEL_KEYS key))) in D1.
    discriminate D1.
  - rewrite S, E in E1. discriminate E1.
Qed.

(** C1: when the persisted store has a record of state 'downloading' for
    a catalog identifier, startup resets it.  In RevB, after
    [normalizeStatesOnStartup] the store holds the record of state
    'not-downloaded' with progress 0 for that identifier, and for no
    identifier a record of state 'downloading'.  In RevA, the inline reset
    of [loadStates] returns a mapping in which that identifier's record has
    state 'not-downloaded' and progress 0, and no identifier's record has
    state 'downloading'. *)
Theorem downloading_reset_on_startup (w : World) (key : ModelKey) :
  has_state (record_of (localStorage w) key) "downloading" = true ->
  (record_of (localStorage (fst (normalizeStatesOnStartup w))) key = Some fresh_record /\
   forall key',
     has_state (record_of (localStorage (fst (normalizeStatesOnStartup w))) key')
               "downloading" = false) /\
  (exists states,
     loadStates RevA (localStorage w) = Ok states /\
     is_fresh (assoc (key_name key) states) = true /\
     forall key', has_state (assoc (key_name key') states) "downloading" = false).
Proof.
  intros D. destruct (record_downloading _ _ D) as (fs & E & Dk).
  split.
  - split; [|intros key'; apply normalized_no_downloading].
    destruct (normalized_storage w fs E) as (fs' & c' & L & _ & W).
    rewrite W, record_of_cases. simpl.
    destruct (normalize_loop MODEL_KEYS fs false) as (fs2 & c2 & L' & _ & _ & _ & _ & L5 & _).
    rewrite L in L'. injection L' as <- <-.
    now rewrite (L5 key (In_MODEL_KEYS key) Dk).
  - destruct (loadStates_returns RevA (localStorage w)) as (states & LS).
    exists states. split; [exact LS|]. split.
    + assert (F0 : is_fresh (assoc (key_name key) defaultState) = true)
        by now rewrite defaultState_lookup.
      rewrite E in LS. cbn -[forEach] in LS.
      destruct (forEach reset_downloading (map fst fs) fs) as [ps| |] eqn:F;
        cbn -[forEach] in LS;
        [|injection LS as <-; exact F0|discriminate LS].
      injection LS as <-.
      destruct (forEach_reset_fresh _ _ _ F) as (_ & I2).
      assert (Fk : is_fresh (assoc (key_name key) ps) = true).
      { apply I2; [|exact Dk]. apply assoc_in_keys.
        destruct (assoc (key_name key) fs); [discriminate|discriminate Dk]. }
      rewrite assoc_spread_props.
      destruct (assoc (key_name key) ps); [exact Fk|discriminate Fk].
    + intros key'. pose proof (loadStates_RevA_settled _ _ key' LS) as St.
      unfold settled in St. unfold has_state.
      destruct (assoc (key_name key') states) as [v|]; [|reflexivity].
      destruct v; try discriminate St; now apply negb_true_iff in St.
Qed.

Lemma downloading_reset_on_startup_witness :
  let w := mkWorld (Some (Parses (JObj [("base", JObj [("state", JStr "downloading");
                                                         ("progress", JNum 37)])])))
                   [] [] [] 0 true in
  record_of (localStorage (fst (normalizeStatesOnStartup w))) base = Some fresh_record.
Proof.
  intros w.
  exact (proj1 (proj1 (downloading_reset_on_startup w base eq_refl))).
Defined.

(** ** [render] *)

Lemma render_world rev w : fst (render rev w) = w.
Proof. unfold render. now destruct (container w). Qed.

Lemma forEach_reads {K A} (f : K -> outcome A) ks :
  (forall k, In k ks -> exists x, f k = Ok x) ->
  forEach (fun (_ : unit) k => _ <- f k ;; Ok tt) ks tt = Ok tt.
Proof.
  induction ks as [|k r IH]; intros H; simpl; [reflexivity|].
  destruct (H k (or_introl eq_refl)) as (x & ->). simpl.
  apply IH. intros k' Hin. apply H. now right.
Qed.

Lemma forEach_reads_inv {K A} (f : K -> outcome A) ks :
  forEach (fun (_ : unit) k => _ <- f k ;; Ok tt) ks tt = Ok tt ->
  forall k, In k ks -> exists x, f k = Ok x.
Proof.
  induction ks as [|k r IH]; intros H k' Hin; [destruct Hin|].
  simpl in H. destruct (f k) as [x| |] eqn:E; simpl in H; try discriminate H.
  destruct Hin as [<-|Hin]; [now exists x|now apply IH].
Qed.

Lemma get_of_ok r k :
  (exists x, get_of r k = Ok x) <-> (r <> None /\ r <> Some JNull).
Proof.
  split.
  - intros (x & H). destruct r as [[]|]; simpl in H; try discriminate H;
      split; congruence.
  - intros [N1 N2]. destruct r as [v|]; [|congruence].
    destruct v; simpl; eauto. congruence.
Qed.

(** RevA always renders: its [loadStates] never hands out a [null]
    record. *)
Lemma render_RevA w : render RevA w = (w, Ok tt).
Proof.
  unfold render. destruct (container w); [|reflexivity]. f_equal.
  destruct (loadStates_returns RevA (localStorage w)) as (m & L).
  rewrite L. cbn -[forEach]. apply forEach_reads.
  intros key _. apply get_of_ok.
  pose proof (loadStates_RevA_settled _ _ key L) as S.
  destruct (assoc (key_name key) m) as [[]|]; simpl in S; try discriminate S;
    split; congruence.
Qed.

(** RevB renders when the page has no container or no catalog record is
    [null]. *)
Lemma render_RevB w :
  renders RevB w <->
  (container w = false \/
   forall key, record_of (localStorage w) key <> Some JNull).
Proof.
  unfold renders, render, record_of.
  destruct (container w); cbn -[forEach]; [|split; auto].
  destruct (loadStates_returns RevB (localStorage w)) as (m & L).
  rewrite L. cbn -[forEach]. split.
  - intros H. right. intros key.
    apply (proj1 (get_of_ok _ _) (forEach_reads_inv _ _ H key (In_MODEL_KEYS key))).
  - intros [H|H]; [discriminate H|].
    apply forEach_reads. intros key _. apply get_of_ok. split; [|apply H].
    pose proof (record_of_cases (localStorage w) key) as R.
    unfold record_of in R. rewrite L in R. rewrite R.
    destruct (localStorage w) as [[t|v]|]; try discriminate.
    destruct (assoc (key_name key) (own_props v)); discriminate.
Qed.

Lemma renders_after rev w w' :
  renders rev w ->
  container w' = container w ->
  (forall key, record_of (localStorage w') key = record_of (localStorage w) key \/
               record_of (localStorage w') key <> Some JNull) ->
  renders rev w'.
Proof.
  destruct rev; [intros; unfold renders; now rewrite render_RevA|].
  intros R C H. apply render_RevB. apply render_RevB in R.
  destruct R as [R|R]; [left; congruence|right].
  intros key. destruct (H key) as [E|N]; [rewrite E; apply R|exact N].
Qed.

(** ** The record an operation reads for its key *)

Lemma reset_downloading_record p k p' :
  reset_downloading p k = Ok p' ->
  forall k', is_record (assoc k' p) = true -> is_record (assoc k' p') = true.
Proof.
  intros H k' R. pose proof (reset_downloading_spec p k) as S.
  destruct (assoc k p) as [r|] eqn:E; [|congruence].
  destruct (is_str (assoc "state" (own_props r)) "downloading") eqn:D.
  - assert (exists fs, r = JObj fs /\ reset_downloading p k =
      Ok (assoc_set k (reset_record fs)
            (assoc_set k (JObj (assoc_set "state" (JStr "not-downloaded") fs)) p)))
      as (fs & -> & Q) by (destruct r; try congruence; exact S).
    rewrite Q in H. injection H as <-.
    rewrite assoc_set_lookup. destruct (String.eqb k' k) eqn:K; [reflexivity|].
    apply String.eqb_neq in K. now rewrite assoc_set_other.
  - assert (reset_downloading p k = Ok p) as Q
      by (destruct r; try congruence; exact S).
    rewrite Q in H. now injection H as <-.
Qed.

Lemma forEach_reset_record ks : forall p p',
  forEach reset_downloading ks p = Ok p' ->
  forall k', is_record (assoc k' p) = true -> is_record (assoc k' p') = true.
Proof.
  induction ks as [|k0 ks IH]; intros p p' H; simpl in H.
  - now injection H as <-.
  - destruct (reset_downloading p k0) as [p1| |] eqn:R; simpl in H; try discriminate H.
    intros k' Hk. eapply IH; [exact H|]. eapply reset_downloading_record; eauto.
Qed.

(** Where the store has an object for [key], so has what [loadStates]
    returns, in both revisions. *)
Lemma loadStates_record rev item key :
  is_record (record_of item key) = true ->
  exists states fs,
    loadStates rev item = Ok states /\
    assoc (key_name key) states = Some (JObj fs).
Proof.
  intros R. destruct (loadStates_returns rev item) as (m & L).
  exists m. enough (is_record (assoc (key_name key) m) = true) as Q.
  { destruct (assoc (key_name key) m) as [[]|]; try discriminate Q. eauto. }
  destruct rev.
  2:{ unfold record_of in R. now rewrite L in R. }
  assert (D : is_record (assoc (key_name key) defaultState) = true)
    by now rewrite defaultState_lookup.
  rewrite record_of_cases in R.
  destruct item as [[t|v]|]; unfold loadStates, loadStates_try in L;
    cbn -[forEach defaultState] in L.
  - destruct (String.eqb t ""); cbn -[defaultState] in L; injection L as <-; exact D.
  - destruct (Object_keys v) as [ks| |] eqn:K; cbn -[forEach defaultState] in L;
      [|injection L as <-; exact D|discriminate L].
    destruct (forEach reset_downloading ks (own_props v)) as [ps| |] eqn:F;
      cbn -[forEach defaultState] in L;
      [|injection L as <-; exact D|discriminate L].
    injection L as <-. rewrite assoc_spread_props.
    destruct (assoc (key_name key) ps) as [x|] eqn:A; [|exact D].
    destruct (assoc (key_name key) (own_props v)) as [r|] eqn:B.
    + rewrite <- A. eapply forEach_reset_record; [exact F|]. now rewrite B.
    + destruct (forEach_reset_settles _ _ _ F) as (_ & _ & I3).
      elim (I3 (key_name key)); congruence.
  - injection L as <-. exact D.
Qed.

(** ** Cancel and delete *)

Lemma saved_record s key :
  record_of (Some (Parses (JObj s))) key =
  match assoc (key_name key) s with
  | Some r => Some r
  | None => Some fresh_record
  end.
Proof. now rewrite record_of_cases. Qed.

Lemma abort_registered_spec key w :
  snd (abort_registered key w) = Ok tt /\
  localStorage (fst (abort_registered key w)) = localStorage w /\
  disk (fst (abort_registered key w)) = disk w /\
  container (fst (abort_registered key w)) = container w.
Proof.
  unfold abort_registered.
  destruct (registered key (abortControllers w)); simpl; auto.
Qed.

Lemma is_fresh_fresh_record : is_fresh (Some fresh_record) = true.
Proof. reflexivity. Qed.

(** [states[key].state = 'not-downloaded'; states[key].progress = 0] on an
    object record. *)
Lemma assign_fresh states k fs :
  assoc k states = Some (JObj fs) ->
  exists s',
    (s1 <- assign states k "state" (JStr "not-downloaded") ;;
     assign s1 k "progress" (JNum 0)) = Ok s' /\
    assoc k s' = Some (reset_record fs) /\
    (forall k', k' <> k -> assoc k' s' = assoc k' states).
Proof.
  intros E. unfold assign. rewrite E. simpl. rewrite assoc_set_same. simpl.
  eexists. split; [reflexivity|]. split; [apply assoc_set_same|].
  intros k' N. now rewrite !assoc_set_other.
Qed.

Lemma key_name_neq a b : a <> b -> key_name a <> key_name b.
Proof. intros N E. apply N. now apply key_name_inj. Qed.

Lemma ModelKey_eq_dec (a b : ModelKey) : {a = b} + {a <> b}.
Proof. decide equality. Qed.

(** The reset of [cancelDownload]: the record of [key] is stored with
    state 'not-downloaded' and progress 0, the other records as they were
    read. *)
Lemma cancel_reset_spec rev key w :
  (rev = RevA -> is_record (record_of (localStorage w) key) = true) ->
  renders rev w ->
  snd (cancel_reset rev key w) = Ok tt /\
  is_fresh (record_of (localStorage (fst (cancel_reset rev key w))) key) = true /\
  disk (fst (cancel_reset rev key w)) = disk w /\
  container (fst (cancel_reset rev key w)) = container w /\
  renders rev (fst (cancel_reset rev key w)).
Proof.
  intros R Rn.
  destruct (abort_registered_spec key w) as (A0 & A1 & A2 & A3).
  unfold cancel_reset, bind, load, lift, saveStates.
  destruct (abort_registered key w) as [w1 o]. simpl in A0, A1, A2, A3.
  subst o. rewrite A1.
  destruct rev.
  - destruct (loadStates_record RevA _ key (R eq_refl)) as (states & fs & L & E).
    rewrite L.
    destruct (assign_fresh _ _ _ E) as (s' & -> & E' & _).
    rewrite render_RevA. simpl.
    rewrite saved_record, E', is_fresh_reset_record.
    repeat split; auto. unfold renders. now rewrite render_RevA.
  - destruct (loadStates_returns RevB (localStorage w)) as (states & L).
    rewrite L.
    assert (Rn' : renders RevB (with_storage
              (Some (JSON_stringify (JObj (assoc_set (key_name key) fresh_record states)))) w1)).
    { apply (renders_after RevB w); [exact Rn|exact A3|].
      intros key'. simpl. unfold JSON_stringify. rewrite saved_record.
      rewrite assoc_set_lookup.
      destruct (String.eqb (key_name key') (key_name key)); [right; discriminate|].
      left. pose proof (record_of_cases (localStorage w) key') as C.
      unfold record_of in *. rewrite L in *.
      destruct (assoc (key_name key') states); [reflexivity|].
      destruct (localStorage w) as [[|v]|]; try discriminate C.
      destruct (assoc (key_name key') (own_props v)); discriminate C. }
    pose proof Rn' as Q. unfold renders in Q.
    pose proof (render_world RevB (with_storage
              (Some (JSON_stringify (JObj (assoc_set (key_name key) fresh_record states)))) w1)) as W.
    destruct (render RevB _) as [w2 o]. simpl in Q, W. subst o w2. simpl.
    unfold JSON_stringify. rewrite saved_record, assoc_set_same.
    repeat split; auto.
Qed.

Lemma remove_disk filename rm w :
  disk (fst (try_catch (remove filename rm) (fun _ => ret tt) w)) =
  match rm with
  | None => filter (fun f => negb (String.eqb f filename)) (disk w)
  | Some _ => disk w
  end /\
  localStorage (fst (try_catch (remove filename rm) (fun _ => ret tt) w)) = localStorage w /\
  snd (try_catch (remove filename rm) (fun _ => ret tt) w) = Ok tt.
Proof. unfold try_catch, remove, ret. destruct rm; simpl; auto. Qed.

Lemma removed_absent filename files :
  file_exists (filter (fun f => negb (String.eqb f filename)) files) filename = false.
Proof.
  unfold file_exists. induction files as [|f r IH]; simpl; [reflexivity|].
  destruct (String.eqb f filename) eqn:E; simpl; [exact IH|].
  rewrite String.eqb_sym, E. exact IH.
Qed.

Lemma cancelDownload_on_any (rev : revision) (key : ModelKey)
    (rm : io_result) (w : World) :
  (rev = RevA -> is_record (record_of (localStorage w) key) = true) ->
  renders rev w ->
  snd (cancelDownload rev key rm w) = Ok tt /\
  is_fresh (record_of (localStorage (fst (cancelDownload rev key rm w))) key) = true /\
  disk (fst (cancelDownload rev key rm w)) =
    match rm with
    | None => filter (fun f => negb (String.eqb f (getModelPath key))) (disk w)
    | Some _ => disk w
    end /\
  (rm = None ->
   file_exists (disk (fst (cancelDownload rev key rm w))) (getModelPath key) = false).
Proof.
  intros R Rn.
  destruct (cancel_reset_spec rev key w R Rn) as (C0 & C1 & C2 & _).
  unfold cancelDownload, bind, cancel_cleanup.
  destruct (cancel_reset rev key w) as [w1 o]. simpl in C0, C1, C2. subst o.
  destruct (remove_disk (getModelPath key) rm w1) as (D1 & D2 & D3).
  rewrite D3, D2, D1, C2. repeat split; auto.
  intros ->. apply removed_absent.
Qed.

(** C10: [cancelDownload] looks at no lifecycle state.  For every
    identifier, whatever state its record is in ('downloaded' and
    'not-downloaded' included), it stores the record with state
    'not-downloaded' and progress 0 and then tries to remove the model
    file: when the removal succeeds the file is gone from the disk, so a
    fully downloaded model is deleted; when it fails the failure is
    swallowed and the disk is as before.  (RevA assigns the two fields, so
    the record has to be an object; RevB replaces the record.  The page has
    to render, which it always does in RevA.) *)
Theorem cancelDownload_unconditional (rev : revision) (key : ModelKey)
    (rm : io_result) (w : World) :
  (rev = RevA -> is_record (record_of (localStorage w) key) = true) ->
  renders rev w ->
  snd (cancelDownload rev key rm w) = Ok tt /\
  is_fresh (record_of (localStorage (fst (cancelDownload rev key rm w))) key) = true /\
  disk (fst (cancelDownload rev key rm w)) =
    match rm with
    | None => filter (fun f => negb (String.eqb f (getModelPath key))) (disk w)
    | Some _ => disk w
    end /\
  (rm = None ->
   file_exists (disk (fst (cancelDownload rev key rm w))) (getModelPath key) = false).
Proof. apply cancelDownload_on_any. Qed.

Lemma cancelDownload_unconditional_witness :
  let w := mkWorld (Some (Parses (JObj [("base", JObj [("state", JStr "downloaded");
                                                         ("progress", JNum 100)])])))
                   ["models/base.bin"] [] [] 0 true in
  is_fresh (record_of (localStorage (fst (cancelDownload RevA base None w))) base) = true /\
  file_exists (disk (fst (cancelDownload RevA base None w))) (getModelPath base) = false.
Proof.
  intros w.
  pose proof (cancelDownload_unconditional RevA base None w (fun _ => eq_refl) eq_refl) as H.
  split; [exact (proj1 (proj2 H))|exact (proj2 (proj2 (proj2 H)) eq_refl)].
Defined.

Lemma render_modelled rev w : snd (render rev w) <> Unmodelled.
Proof.
  destruct rev; [rewrite render_RevA; discriminate|].
  unfold render. destruct (container w); [|discriminate]. cbn -[forEach].
  destruct (loadStates_returns RevB (localStorage w)) as (m & ->). cbn -[forEach].
  generalize MODEL_KEYS. intros ks. induction ks as [|k r IH]; simpl; [discriminate|].
  destruct (assoc (key_name k) m) as [[]|]; simpl; try discriminate; exact IH.
Qed.

Lemma downloaded_is_record r :
  has_state r "downloaded" = true -> is_record r = true.
Proof.
  destruct r as [v|]; [|discriminate]. simpl. intros H.
  destruct (assoc "state" (own_props v)) as [x|] eqn:A; [|discriminate H].
  now destruct (named_prop_object v "state" x eq_refl A) as (f & ->).
Qed.

(** [deleteDownload] when the removal went through. *)
Lemma deleteDownload_removed rev key w :
  is_record (record_of (localStorage w) key) = true ->
  snd (deleteDownload rev key None w) = Ok tt /\
  is_fresh (record_of (localStorage (fst (deleteDownload rev key None w))) key) = true /\
  disk (fst (deleteDownload rev key None w)) =
    filter (fun f => negb (String.eqb f (getModelPath key))) (disk w).
Proof.
  intros R.
  destruct (loadStates_record rev _ key R) as (states & fs & L & E).
  destruct (assign_fresh _ _ _ E) as (s' & A & E' & _).
  unfold deleteDownload, try_catch, bind, remove, load, lift, saveStates. simpl.
  rewrite L.
  unfold assign in A |- *. rewrite E in A |- *. simpl in A |- *.
  rewrite assoc_set_same in A |- *. simpl in A |- *. injection A as <-.
  match goal with |- context [render rev ?x] =>
    pose proof (render_world rev x) as W;
    pose proof (render_modelled rev x) as M;
    destruct (render rev x) as [w2 [u|e|]]
  end; simpl in W, M; subst; try congruence; try destruct u; simpl;
    unfold JSON_stringify; rewrite saved_record, assoc_set_same;
    (split; [reflexivity|split; [apply is_fresh_reset_record|reflexivity]]).
Qed.

(** C5, as the code has it: on a record of state 'downloaded',
    [deleteDownload] returns without an error whatever the removal does.
    When the removal succeeds, the file is gone and the record is stored
    with state 'not-downloaded' and progress 0.  When the removal fails, the
    failure is caught and logged and nothing is changed: the record stays
    'downloaded'. *)
Theorem deleteDownload_reverts_after_removal (rev : revision) (key : ModelKey)
    (rm : io_result) (w : World) :
  has_state (record_of (localStorage w) key) "downloaded" = true ->
  snd (deleteDownload rev key rm w) = Ok tt /\
  match rm with
  | None =>
      is_fresh (record_of (localStorage (fst (deleteDownload rev key rm w))) key) = true /\
      file_exists (disk (fst (deleteDownload rev key rm w))) (getModelPath key) = false
  | Some _ => fst (deleteDownload rev key rm w) = w
  end.
Proof.
  intros D. destruct rm as [e|].
  - split; reflexivity.
  - destruct (deleteDownload_removed rev key w (downloaded_is_record _ D)) as (H1 & H2 & H3).
    split; [exact H1|]. split; [exact H2|].
    rewrite H3. apply removed_absent.
Qed.

Lemma deleteDownload_reverts_after_removal_witness :
  let w := mkWorld (Some (Parses (JObj [("base", JObj [("state", JStr "downloaded");
                                                         ("progress", JNum 100)])])))
                   ["models/base.bin"] [] [] 0 true in
  is_fresh (record_of (localStorage (fst (deleteDownload RevB base None w))) base) = true /\
  file_exists (disk (fst (deleteDownload RevB base None w))) (getModelPath base) = false.
Proof.
  intros w.
  exact (proj2 (deleteDownload_reverts_after_removal RevB base None w eq_refl)).
Defined.

(** C5 as stated fails: with the record of 'base' at 'downloaded' and a
    removal that fails, [deleteDownload] leaves the record 'downloaded', in
    both revisions. *)
Lemma deleteDownload_failed_removal_keeps_state :
  let w := mkWorld (Some (Parses (JObj [("base", JObj [("state", JStr "downloaded");
                                                         ("progress", JNum 100)])])))
                   ["models/base.bin"] [] [] 0 true in
  has_state (record_of (localStorage w) base) "downloaded" = true /\
  is_fresh (record_of (localStorage (fst (deleteDownload RevA base (Some OtherError) w))) base) = false /\
  is_fresh (record_of (localStorage (fst (deleteDownload RevB base (Some OtherError) w))) base) = false /\
  has_state (record_of (localStorage (fst (deleteDownload RevB base (Some OtherError) w))) base)
            "downloaded" = true.
Proof. repeat split; reflexivity. Qed.

(** ** The guard of [startDownload] *)

(** RevB: on a record of state 'downloading', [startDownload] returns at
    its guard: no controller is created or registered, no record is
    written, no attempt is started. *)
Lemma startDownload_RevB_guard key w :
  has_state (record_of (localStorage w) key) "downloading" = true ->
  startDownload RevB key w = (w, Ok None).
Proof.
  intros D. unfold startDownload, bind, load, lift.
  unfold record_of in D.
  destruct (loadStates RevB (localStorage w)) as [states| |]; try discriminate D.
  destruct (assoc (key_name key) states) as [r|] eqn:A; [|discriminate D].
  simpl in D. assert (r <> JNull) by (intros ->; discriminate D).
  assert (get_of (Some r) "state" = Ok (assoc "state" (own_props r))) as ->
    by (destruct r; simpl; congruence).
  now rewrite D.
Qed.

(** RevA: the guard never fires, because [loadStates] has already reset
    the record it tests. *)
Lemma startDownload_RevA_guard_never_fires w key states :
  loadStates RevA (localStorage w) = Ok states ->
  is_str (assoc "state" (match assoc (key_name key) states with
                          | Some r => own_props r
                          | None => []
                          end)) "downloading" = false.
Proof.
  intros L. pose proof (loadStates_RevA_settled _ _ key L) as S.
  destruct (assoc (key_name key) states) as [[]|]; simpl in S |- *;
    try discriminate S; try reflexivity; now apply negb_true_iff in S.
Qed.

(** C2 on RevA: with the record of 'base' stored as 'downloading' at 37%
    and a transfer registered for it, [startDownload('base')] does not
    return at its guard.  It creates a second controller, puts it in the
    registry in place of the first, stores the record with progress 0
    again and starts a second attempt. *)
Theorem startDownload_RevA_starts_again :
  let w := mkWorld (Some (Parses (JObj [("base", JObj [("state", JStr "downloading");
                                                         ("progress", JNum 37)])])))
                   ["models/base.bin"] [(base, 0%nat)] [] 1 true in
  has_state (record_of (localStorage w) base) "downloading" = true /\
  exists w' t,
    startDownload RevA base w = (w', Ok (Some t)) /\
    created w' = 2%nat /\
    abortControllers w' = [(base, 1%nat)] /\
    t_controller t = 1%nat /\
    t_phase t = AwaitPath /\
    has_state (record_of (localStorage w') base) "downloading" = true /\
    has_progress (record_of (localStorage w') base) 0 = true.
Proof.
  split; [reflexivity|].
  eexists. eexists. split; [vm_compute; reflexivity|].
  repeat split; reflexivity.
Qed.

(** ** A failed attempt *)

(** C4 on both revisions: an attempt for 'base' with a declared length of
    100 bytes receives a chunk of 50 bytes, and the next read fails with an
    error that is not an abort.  The [catch] block stores the state
    'not-downloaded' and leaves the progress at 50. *)
Theorem failed_download_keeps_progress :
  let w := mkWorld None [] [] [] 0 true in
  let replies := [(0, Resolved); (0, Resolved); (0, Response true true (Some 100));
                  (0, Resolved); (1000, Chunk 50); (1000, Resolved);
                  (1000, Rejected OtherError)] in
  (snd (attempt RevA base replies w) = Ok None /\
   has_state (record_of (localStorage (fst (attempt RevA base replies w))) base)
             "not-downloaded" = true /\
   has_progress (record_of (localStorage (fst (attempt RevA base replies w))) base) 50 = true /\
   has_progress (record_of (localStorage (fst (attempt RevA base replies w))) base) 0 = false) /\
  (snd (attempt RevB base replies w) = Ok None /\
   has_state (record_of (localStorage (fst (attempt RevB base replies w))) base)
             "not-downloaded" = true /\
   has_progress (record_of (localStorage (fst (attempt RevB base replies w))) base) 50 = true /\
   has_progress (record_of (localStorage (fst (attempt RevB base replies w))) base) 0 = false).
Proof. vm_compute. repeat split; reflexivity. Qed.

(** A failure before the first chunk (the fetch rejects, the response is
    not ok or has no body) leaves the progress at the 0 written at the
    start. *)
Lemma failed_before_first_chunk :
  let w := mkWorld None [] [] [] 0 true in
  forall rev r,
    In r [Rejected OtherError; Response false true (Some 100); Response true false None] ->
    snd (attempt rev base [(0, Resolved); (0, Resolved); (0, r)] w) = Ok None /\
    is_fresh (record_of (localStorage
      (fst (attempt rev base [(0, Resolved); (0, Resolved); (0, r)] w))) base) = true.
Proof.
  intros w rev r H. simpl in H.
  destruct H as [<-|[<-|[<-|[]]]]; destruct rev; vm_compute; split; reflexivity.
Qed.

(** ** Cancel against a running attempt *)

(** C3 on both revisions: an attempt for 'small' has read its whole stream
    and waits for the file to close; the stored record is 'downloading'.
    [cancelDownload('small')] stores 'not-downloaded' with progress 0 and
    removes the file.  The attempt then goes on from its [await]s and
    stores 'downloaded' with progress 100, for a file that is gone. *)
Theorem cancel_after_stream_end_reaches_downloaded :
  let w0 := mkWorld None [] [] [] 0 true in
  let stream := [(0, Resolved); (0, Resolved); (0, Response true true (Some 4));
                 (0, Resolved); (1000, Chunk 4); (1000, Resolved); (1000, Done)] in
  let ending := [(1001, Resolved); (1001, Resolved); (1001, Resolved)] in
  forall rev,
  exists w1 t w2 w3,
    attempt rev small stream w0 = (w1, Ok (Some t)) /\
    t_phase t = AwaitClose /\
    has_state (record_of (localStorage w1) small) "downloading" = true /\
    cancelDownload rev small None w1 = (w2, Ok tt) /\
    is_fresh (record_of (localStorage w2) small) = true /\
    file_exists (disk w2) (getModelPath small) = false /\
    run rev t ending w2 = (w3, Ok None) /\
    has_state (record_of (localStorage w3) small) "downloaded" = true /\
    has_progress (record_of (localStorage w3) small) 100 = true /\
    file_exists (disk w3) (getModelPath small) = false.
Proof.
  intros w0 stream ending rev.
  destruct rev; do 4 eexists;
    (split; [vm_compute; reflexivity|]);
    (split; [reflexivity|]);
    (split; [reflexivity|]);
    (split; [vm_compute; reflexivity|]);
    (split; [reflexivity|]);
    (split; [reflexivity|]);
    (split; [vm_compute; reflexivity|]);
    repeat split; reflexivity.
Qed.

(** What [cancelDownload] itself leaves behind on a 'downloading' record:
    the record stored with state 'not-downloaded' and progress 0, the file
    removed when the removal succeeds, the failure swallowed when not. *)
Lemma cancelDownload_on_downloading rev key rm w :
  has_state (record_of (localStorage w) key) "downloading" = true ->
  renders rev w ->
  snd (cancelDownload rev key rm w) = Ok tt /\
  is_fresh (record_of (localStorage (fst (cancelDownload rev key rm w))) key) = true /\
  (rm = None ->
   file_exists (disk (fst (cancelDownload rev key rm w))) (getModelPath key) = false).
Proof.
  intros D Rn.
  assert (R : is_record (record_of (localStorage w) key) = true).
  { destruct (record_downloading _ _ D) as (fs & E & Dk).
    rewrite E, saved_record.
    destruct (assoc (key_name key) fs) as [r|] eqn:A; [|discriminate Dk].
    simpl in Dk.
    destruct (assoc "state" (own_props r)) as [x|] eqn:B; [|discriminate Dk].
    now destruct (named_prop_object r "state" x eq_refl B) as (f & ->). }
  destruct (cancelDownload_on_any rev key rm w (fun _ => R) Rn) as (H1 & H2 & _ & H4).
  auto.
Qed.

(** ** Rounding to a double *)

Lemma pow2_pos e : (0 < 2 ^ e)%Q.
Proof. apply Qpower_0_lt. reflexivity. Qed.

Lemma pow2_add a b : (2 ^ (a + b) == 2 ^ a * 2 ^ b)%Q.
Proof. apply Qpower_plus. discriminate. Qed.

Lemma pow2_le a b : a <= b -> (2 ^ a <= 2 ^ b)%Q.
Proof. intros H. apply Qpower_le_compat_l; [exact H|discriminate]. Qed.

Lemma pow2_succ a : (2 ^ (a + 1) == 2 * 2 ^ a)%Q.
Proof. rewrite pow2_add. change (2 ^ 1)%Q with 2%Q. ring. Qed.

Lemma pow2_Z a : 0 <= a -> (inject_Z (2 ^ a) == 2 ^ a)%Q.
Proof. intros H. now rewrite Zpower_Qpower. Qed.

(** [ilog2 x] is the binade of [x]. *)
Lemma ilog2_spec x : (0 < x)%Q -> (2 ^ ilog2 x <= x /\ x < 2 ^ (ilog2 x + 1))%Q.
Proof.
  intros P. unfold ilog2.
  destruct x as [n d]. assert (Pn : 0 < n) by (unfold Qlt in P; simpl in P; lia).
  cbn [Qnum Qden].
  set (a := Z.log2 n). set (b := Z.log2 (Z.pos d)).
  assert (A0 : 0 <= a) by apply Z.log2_nonneg.
  assert (B0 : 0 <= b) by apply Z.log2_nonneg.
  destruct (Z.log2_spec n Pn) as [A1 A2]. fold a in A1, A2.
  destruct (Z.log2_spec (Z.pos d) eq_refl) as [B1 B2]. fold b in B1, B2.
  rewrite Zle_Qle, pow2_Z in A1, B1 by lia.
  rewrite Zlt_Qlt, <- Z.add_1_r, pow2_Z, pow2_succ in A2, B2 by lia.
  pose proof (pow2_pos a) as PA. pose proof (pow2_pos b) as PB.
  pose proof (pow2_pos (a - b)) as PE.
  assert (E : (2 ^ (a - b) * 2 ^ b == 2 ^ a)%Q).
  { rewrite <- pow2_add. now replace (a - b + b) with a by lia. }
  assert (X : ((n # d) * inject_Z (Z.pos d) == inject_Z n)%Q).
  { rewrite (Qmake_Qdiv n d). field. discriminate. }
  set (x := (n # d)%Q) in *. set (N := inject_Z n) in *.
  set (D := inject_Z (Z.pos d)) in *.
  set (Ea := (2 ^ a)%Q) in *. set (Eb := (2 ^ b)%Q) in *.
  set (Ee := (2 ^ (a - b))%Q) in *.
  assert (Px : (0 < x)%Q) by exact P.
  assert (U : (x < 2 * Ee)%Q).
  { apply Qnot_le_lt. intros H.
    assert (H1 : (2 * Ee * Eb <= x * Eb)%Q) by (apply Qmult_le_compat_r; lra).
    assert (H2 : (x * Eb <= x * D)%Q) by (apply Qmult_le_l; lra).
    lra. }
  assert (L : (Ee <= 2 * x)%Q).
  { apply Qnot_lt_le. intros H.
    assert (H1 : (2 * x * Eb < Ee * Eb)%Q) by (apply Qmult_lt_r; lra).
    assert (H2 : (x * D < x * (2 * Eb))%Q) by (apply Qmult_lt_l; lra).
    lra. }
  destruct (Qle_bool Ee x) eqn:C.
  - apply Qle_bool_iff in C. rewrite pow2_succ. fold Ee. split; [exact C|exact U].
  - assert (C' : (x < Ee)%Q).
    { apply Qnot_le_lt. intros H. apply Qle_bool_iff in H. congruence. }
    replace (a - b - 1 + 1) with (a - b) by lia. fold Ee. split; [|exact C'].
    assert (H : (2 * 2 ^ (a - b - 1) == Ee)%Q).
    { rewrite <- pow2_succ. now replace (a - b - 1 + 1) with (a - b) by lia. }
    pose proof (pow2_pos (a - b - 1)). nra.
Qed.

Lemma ilog2_mono x y : (0 < x)%Q -> (x <= y)%Q -> ilog2 x <= ilog2 y.
Proof.
  intros P H.
  destruct (ilog2_spec x P) as [X1 _].
  destruct (ilog2_spec y) as [_ Y2]; [lra|].
  destruct (Z_le_gt_dec (ilog2 x) (ilog2 y)) as [L|G]; [exact L|].
  assert (C : (2 ^ (ilog2 y + 1) <= 2 ^ ilog2 x)%Q) by (apply pow2_le; lia).
  exfalso. apply (Qlt_irrefl y).
  eapply Qlt_le_trans; [exact Y2|]. eapply Qle_trans; [exact C|].
  eapply Qle_trans; [exact X1|exact H].
Qed.

(** ** The nearest integer *)

Lemma Qcompare_cases x y :
  match (x ?= y)%Q with
  | Eq => (x == y)%Q
  | Lt => (x < y)%Q
  | Gt => (y < x)%Q
  end.
Proof.
  destruct (x ?= y)%Q eqn:C.
  - now apply Qeq_alt.
  - now apply Qlt_alt.
  - now apply Qgt_alt.
Qed.

Lemma nearest_even_bounds x : Qfloor x <= nearest_even x <= Qfloor x + 1.
Proof.
  unfold nearest_even.
  destruct (x - inject_Z (Qfloor x) ?= 1 # 2)%Q; [destruct (Z.even _)| |]; lia.
Qed.

Lemma nearest_even_Z z : nearest_even (inject_Z z) = z.
Proof.
  unfold nearest_even. rewrite Qfloor_Z.
  assert ((inject_Z z - inject_Z z ?= 1 # 2)%Q = Lt) as ->; [|reflexivity].
  apply Qlt_alt. assert (E : (inject_Z z - inject_Z z == 0)%Q) by ring.
  rewrite E. reflexivity.
Qed.

Lemma nearest_even_mono x y : (x <= y)%Q -> nearest_even x <= nearest_even y.
Proof.
  intros H. pose proof (Qfloor_resp_le _ _ H) as F.
  pose proof (nearest_even_bounds x) as Bx. pose proof (nearest_even_bounds y) as By.
  destruct (Z.eq_dec (Qfloor x) (Qfloor y)) as [E|N]; [|lia].
  unfold nearest_even in *. rewrite <- E in *.
  set (f := inject_Z (Qfloor x)) in *.
  pose proof (Qcompare_cases (x - f) (1 # 2)) as Cx.
  pose proof (Qcompare_cases (y - f) (1 # 2)) as Cy.
  destruct (x - f ?= 1 # 2)%Q; destruct (y - f ?= 1 # 2)%Q;
    try lia; try (destruct (Z.even (Qfloor x)); lia); exfalso; lra.
Qed.

(** ** The nearest double *)

Lemma round_pos_bounds x :
  (0 < x)%Q -> (2 ^ ilog2 x <= round_pos x /\ round_pos x <= 2 ^ (ilog2 x + 1))%Q.
Proof.
  intros P. destruct (ilog2_spec x P) as [L U]. unfold round_pos.
  set (k := ilog2 x) in *. set (e := k - 52).
  pose proof (pow2_pos e) as Pe.
  assert (K : (2 ^ k == inject_Z (2 ^ 52) * 2 ^ e)%Q).
  { rewrite pow2_Z by lia. rewrite <- pow2_add. now replace (52 + e) with k by (unfold e; lia). }
  assert (K1 : (2 ^ (k + 1) == inject_Z (2 ^ 53) * 2 ^ e)%Q).
  { rewrite pow2_Z by lia. rewrite <- pow2_add.
    now replace (53 + e) with (k + 1) by (unfold e; lia). }
  assert (S1 : (inject_Z (2 ^ 52) <= x / 2 ^ e)%Q).
  { apply Qle_shift_div_l; [exact Pe|]. now rewrite <- K. }
  assert (S2 : (x / 2 ^ e <= inject_Z (2 ^ 53))%Q).
  { apply Qle_shift_div_r; [exact Pe|]. rewrite <- K1. lra. }
  apply nearest_even_mono in S1, S2. rewrite nearest_even_Z in S1, S2.
  rewrite Zle_Qle in S1, S2. rewrite K, K1.
  split; apply Qmult_le_compat_r; lra.
Qed.

Lemma round_pos_mono x y : (0 < x)%Q -> (x <= y)%Q -> (round_pos x <= round_pos y)%Q.
Proof.
  intros P H. assert (Py : (0 < y)%Q) by lra.
  pose proof (ilog2_mono x y P H) as M.
  destruct (Z.eq_dec (ilog2 x) (ilog2 y)) as [E|N].
  - unfold round_pos. rewrite <- E. set (e := ilog2 x - 52).
    pose proof (pow2_pos e) as Pe.
    apply Qmult_le_compat_r; [|lra]. rewrite <- Zle_Qle.
    apply nearest_even_mono. apply Qle_shift_div_l; [exact Pe|].
    unfold Qdiv. rewrite <- Qmult_assoc, (Qmult_comm (/ _)), Qmult_inv_r by lra. lra.
  - destruct (round_pos_bounds x P) as [_ U]. destruct (round_pos_bounds y Py) as [L _].
    assert (C : (2 ^ (ilog2 x + 1) <= 2 ^ ilog2 y)%Q) by (apply pow2_le; lia).
    eapply Qle_trans; [exact U|]. eapply Qle_trans; [exact C|exact L].
Qed.

Lemma round_double_nonneg x : (0 <= x)%Q -> (0 <= round_double x)%Q.
Proof.
  intros H. unfold round_double.
  pose proof (Qcompare_cases x 0) as C.
  destruct (x ?= 0)%Q.
  - lra.
  - lra.
  - destruct (round_pos_bounds x C) as [L _].
    pose proof (pow2_pos (ilog2 x)) as Pk.
    eapply Qle_trans; [apply Qlt_le_weak; exact Pk|exact L].
Qed.

Lemma round_double_mono x y :
  (0 <= x)%Q -> (x <= y)%Q -> (round_double x <= round_double y)%Q.
Proof.
  intros P H. unfold round_double at 1.
  pose proof (Qcompare_cases x 0) as C.
  destruct (x ?= 0)%Q.
  - apply round_double_nonneg. lra.
  - lra.
  - unfold round_double.
    assert ((y ?= 0)%Q = Gt) as -> by (apply Qgt_alt; lra).
    now apply round_pos_mono.
Qed.



(** ** The percentage *)

Lemma inject_Z_pos t : 0 < t -> (0 < inject_Z t)%Q.
Proof. intros T. unfold Qlt. simpl. lia. Qed.

Lemma ratio_mono t a b :
  0 < t -> a <= b -> (inject_Z a / inject_Z t <= inject_Z b / inject_Z t)%Q.
Proof.
  intros T H. pose proof (inject_Z_pos t T) as P.
  unfold Qdiv. apply Qmult_le_compat_r; [now rewrite <- Zle_Qle|].
  apply Qlt_le_weak, Qinv_lt_0_compat, P.
Qed.

Lemma ratio_nonneg t a : 0 < t -> 0 <= a -> (0 <= inject_Z a / inject_Z t)%Q.
Proof.
  intros T H. pose proof (inject_Z_pos t T) as P.
  apply Qle_shift_div_l; [exact P|].
  rewrite Qmult_0_l. change 0%Q with (inject_Z 0). now rewrite <- Zle_Qle.
Qed.

Lemma percent_mono t a b : 0 < t -> 0 <= a -> a <= b -> percent a t <= percent b t.
Proof.
  intros T A H. unfold percent, Math_round. apply Qfloor_resp_le.
  apply Qplus_le_l.
  pose proof (ratio_nonneg t a T A) as N. pose proof (ratio_mono t a b T H) as M.
  pose proof (round_double_nonneg _ N) as N1.
  pose proof (round_double_mono _ _ N M) as M1.
  set (qa := round_double (inject_Z a / inject_Z t)) in *.
  set (qb := round_double (inject_Z b / inject_Z t)) in *.
  apply round_double_mono; lra.
Qed.

Lemma percent_0 t : 0 < t -> percent 0 t = 0.
Proof.
  intros T. unfold percent.
  assert (E : (inject_Z 0 / inject_Z t == 0)%Q).
  { unfold Qdiv. apply Qmult_0_l. }
  unfold round_double at 2.
  assert ((inject_Z 0 / inject_Z t ?= 0)%Q = Eq) as -> by now apply Qeq_alt.
  reflexivity.
Qed.

Lemma percent_nonneg t a : 0 < t -> 0 <= a -> 0 <= percent a t.
Proof. intros T H. rewrite <- (percent_0 t T). now apply percent_mono. Qed.


Lemma percent_23_of_40 : percent 23 40 = 57.
Proof. vm_compute. reflexivity. Qed.

(** ** Progress within an attempt *)


(** ** The startup repair is idempotent *)

Lemma is_normal_reset_record fs : is_normal (Some (reset_record fs)) = true.
Proof.
  unfold is_normal, needs_reset, needs_100, reset_record. simpl.
  rewrite assoc_set_same.
  rewrite assoc_set_other by discriminate. rewrite assoc_set_same. reflexivity.
Qed.

Section CheckLoop.

Variable files : list string.

Lemma check_key_spec s c key :
  match assoc (key_name key) s with
  | None | Some JNull => check_key files (s, c) key = Throw TypeError
  | Some r =>
      if is_str (assoc "state" (own_props r)) "downloaded" then
        if file_exists files (getModelPath key) then check_key files (s, c) key = Ok (s, c)
        else exists fs, r = JObj fs /\
          check_key files (s, c) key =
          Ok (assoc_set (key_name key) (reset_record fs)
                (assoc_set (key_name key)
                   (JObj (assoc_set "state" (JStr "not-downloaded") fs)) s), true)
      else check_key files (s, c) key = Ok (s, c)
  end.
Proof.
  unfold check_key, get_of, get. cbn -[file_exists getModelPath assign].
  destruct (assoc (key_name key) s) as [r|] eqn:E; [|reflexivity].
  destruct r as [| | | | |fs]; cbn -[file_exists getModelPath assign];
    try reflexivity;
    try (rewrite assoc_index_from by reflexivity; reflexivity).
  destruct (is_str (assoc "state" fs) "downloaded") eqn:D; [|reflexivity].
  destruct (file_exists files (getModelPath key)); [reflexivity|].
  exists fs. split; [reflexivity|].
  unfold assign. rewrite E. simpl. rewrite assoc_set_same. reflexivity.
Qed.

Lemma check_key_step s c key s1 c1 :
  check_key files (s, c) key = Ok (s1, c1) ->
  is_checked files s1 key = true /\
  (forall k', k' <> key_name key -> assoc k' s1 = assoc k' s) /\
  (forall k', is_normal (assoc k' s) = true -> is_normal (assoc k' s1) = true) /\
  (c1 = false -> s1 = s /\ c = false).
Proof.
  intros H. pose proof (check_key_spec s c key) as S.
  unfold is_checked.
  destruct (assoc (key_name key) s) as [r|] eqn:E; [|congruence].
  assert (N : r <> JNull) by (intros ->; congruence).
  destruct (is_str (assoc "state" (own_props r)) "downloaded") eqn:D.
  - destruct (file_exists files (getModelPath key)) eqn:F.
    + assert (check_key files (s, c) key = Ok (s, c)) as Q
        by (destruct r; try congruence; exact S).
      rewrite Q in H. injection H as <- <-. rewrite E, D.
      split; [destruct r; try congruence; apply orb_true_r|auto].
    + assert (exists fs, r = JObj fs /\ check_key files (s, c) key =
          Ok (assoc_set (key_name key) (reset_record fs)
                (assoc_set (key_name key)
                   (JObj (assoc_set "state" (JStr "not-downloaded") fs)) s), true))
        as (fs & -> & Q) by (destruct r; try congruence; exact S).
      rewrite Q in H. injection H as <- <-.
      rewrite assoc_set_same.
      split.
      { unfold reset_record. simpl.
        rewrite assoc_set_other by discriminate. now rewrite assoc_set_same. }
      split; [intros k' K; now rewrite !assoc_set_other|].
      split; [|discriminate].
      intros k' Hn. rewrite assoc_set_lookup.
      destruct (String.eqb k' (key_name key)) eqn:K; [apply is_normal_reset_record|].
      apply String.eqb_neq in K. now rewrite assoc_set_other.
  - assert (check_key files (s, c) key = Ok (s, c)) as Q
      by (destruct r; try congruence; exact S).
    rewrite Q in H. injection H as <- <-. rewrite E, D.
    split; [destruct r; try congruence; reflexivity|auto].
Qed.

Lemma check_key_checked s c key :
  is_checked files s key = true -> check_key files (s, c) key = Ok (s, c).
Proof.
  intros H. pose proof (check_key_spec s c key) as S.
  unfold is_checked in H.
  destruct (assoc (key_name key) s) as [r|]; [|discriminate H].
  destruct r; try discriminate H;
    destruct (is_str _ "downloaded"); simpl in H; try exact S;
    rewrite H in S; exact S.
Qed.

Lemma check_loop ks : forall s c s' c',
  forEach (check_key files) ks (s, c) = Ok (s', c') ->
  (forall key, In key ks -> is_checked files s' key = true) /\
  (forall k', is_normal (assoc k' s) = true -> is_normal (assoc k' s') = true) /\
  (c' = false -> s' = s /\ c = false).
Proof.
  induction ks as [|k0 ks IH]; intros s c s' c' H; simpl in H.
  - injection H as <- <-. split; [intros key []|auto].
  - destruct (check_key files (s, c) k0) as [[s1 c1]| |] eqn:S; simpl in H;
      try discriminate H.
    destruct (check_key_step _ _ _ _ _ S) as (S1 & S2 & S3 & S4).
    destruct (IH _ _ _ _ H) as (I1 & I2 & I3).
    split; [|split; [auto|]].
    + intros key [<-|Hin]; [|auto].
      (* the later steps keep what is checked *)
      clear - H S1. revert s1 c1 H S1.
      induction ks as [|k1 ks IHk]; intros s1 c1 H S1; simpl in H.
      * now injection H as <- <-.
      * destruct (check_key files (s1, c1) k1) as [[s2 c2]| |] eqn:S; simpl in H;
          try discriminate H.
        apply (IHk _ _ H).
        destruct (check_key_step _ _ _ _ _ S) as (T1 & T2 & _).
        destruct (ModelKey_eq_dec k1 k0) as [->|N]; [exact T1|].
        unfold is_checked in *. rewrite T2; [exact S1|].
        apply key_name_neq. congruence.
    + intros Hc. destruct (I3 Hc) as [-> Hc1]. auto.
Qed.

Lemma check_loop_checked ks : forall s c,
  (forall key, In key ks -> is_checked files s key = true) ->
  forEach (check_key files) ks (s, c) = Ok (s, c).
Proof.
  induction ks as [|k0 ks IH]; intros s c H; simpl; [reflexivity|].
  rewrite check_key_checked by (apply H; now left). simpl.
  apply IH. intros key Hin. apply H. now right.
Qed.

End CheckLoop.

Lemma normalize_returns w : snd (normalizeStatesOnStartup w) = Ok tt.
Proof. apply normalizeStatesOnStartup_spec. Qed.

(** On a normal store the normalization writes nothing. *)
Lemma normal_store_fixed w :
  normal_store (localStorage w) -> fst (normalizeStatesOnStartup w) = w.
Proof.
  intros N. destruct (normalizeStatesOnStartup_spec w) as [_ S].
  destruct (localStorage w) as [[t|v]|]; try exact S.
  destruct v as [| | | | |fs]; try exact S.
  destruct S as (fs' & c' & L & ->).
  destruct (normalize_loop MODEL_KEYS fs false) as (fs2 & c2 & L' & _ & _ & _ & L4 & _).
  rewrite L in L'. injection L' as <- <-.
  destruct L4 as [_ ->]; [intros key _; apply N|reflexivity].
Qed.

(** The normalization leaves a normal store. *)
Lemma normalize_normal w :
  normal_store (localStorage (fst (normalizeStatesOnStartup w))).
Proof.
  destruct (localStorage w) as [[t|v]|] eqn:E.
  - destruct (normalizeStatesOnStartup_spec w) as [_ S]. rewrite E in S.
    now rewrite S, E.
  - destruct v as [| | | | |fs];
      try (destruct (normalizeStatesOnStartup_spec w) as [_ S]; rewrite E in S;
           now rewrite S, E).
    destruct (normalized_storage w fs E) as (fs' & c' & L & _ & W).
    rewrite W. intros key.
    destruct (normalize_loop MODEL_KEYS fs false) as (fs2 & c2 & L' & L1 & _).
    rewrite L in L'. injection L' as <- <-.
    apply L1, In_MODEL_KEYS.
  - destruct (normalizeStatesOnStartup_spec w) as [_ S]. rewrite E in S.
    now rewrite S, E.
Qed.

(** What is read from a normal store is normal. *)
Lemma loaded_normal item states key :
  normal_store item -> loadStates RevB item = Ok states ->
  is_normal (assoc (key_name key) states) = true.
Proof.
  intros N L. pose proof (record_of_cases item key) as C.
  unfold record_of in C. rewrite L in C. rewrite C.
  destruct item as [[t|v]|]; try reflexivity.
  destruct (assoc (key_name key) (own_props v)) as [r|] eqn:A; [|reflexivity].
  destruct (named_prop_object _ _ _ (key_name_is_name key) A) as (fs & ->).
  simpl in A. rewrite <- A. apply N.
Qed.

(** [checkExistingFiles] writes the storage, and only when its loop
    changed a record. *)
Lemma checkExistingFiles_world w states :
  loadStates RevB (localStorage w) = Ok states ->
  fst (checkExistingFiles RevB w) =
  match forEach (check_key (disk w)) MODEL_KEYS (states, false) with
  | Ok (s', true) => with_storage (Some (Parses (JObj s'))) w
  | _ => w
  end.
Proof.
  intros L. unfold checkExistingFiles, bind, load. rewrite L.
  destruct (forEach (check_key (disk w)) MODEL_KEYS (states, false))
    as [[s' c']| |]; try reflexivity.
  destruct c'; cbn -[render].
  - match goal with |- context [render RevB ?x] =>
      pose proof (render_world RevB x) as W; destruct (render RevB x) as [w2 [u| |]]
    end; simpl in W; subst; reflexivity.
  - pose proof (render_world RevB w) as W.
    destruct (render RevB w) as [w2 [u| |]]; simpl in W; subst; reflexivity.
Qed.

(** After [checkExistingFiles] on a normal store, the store is normal and a
    second [checkExistingFiles] changes nothing. *)
Lemma checkExistingFiles_fixed w :
  normal_store (localStorage w) ->
  normal_store (localStorage (fst (checkExistingFiles RevB w))) /\
  fst (checkExistingFiles RevB (fst (checkExistingFiles RevB w))) =
  fst (checkExistingFiles RevB w).
Proof.
  intros N.
  destruct (loadStates_returns RevB (localStorage w)) as (states & L).
  pose proof (checkExistingFiles_world w states L) as W1.
  destruct (forEach (check_key (disk w)) MODEL_KEYS (states, false))
    as [[s' c']| |] eqn:F.
  2, 3: rewrite W1; split; [exact N|]; rewrite (checkExistingFiles_world w states L), F;
        reflexivity.
  destruct c'.
  2:{ rewrite W1; split; [exact N|]; rewrite (checkExistingFiles_world w states L), F;
      reflexivity. }
  destruct (check_loop _ _ _ _ _ _ F) as (I1 & I2 & _).
  rewrite W1. split.
  - intros key. apply I2. eapply loaded_normal; eauto.
  - rewrite (checkExistingFiles_world (with_storage (Some (Parses (JObj s'))) w)
               (spread_props defaultState s') eq_refl).
    change (disk (with_storage (Some (Parses (JObj s'))) w)) with (disk w).
    rewrite check_loop_checked; [reflexivity|].
    intros key _. pose proof (I1 key (In_MODEL_KEYS key)) as Ck.
    unfold is_checked in *. rewrite assoc_spread_props.
    destruct (assoc (key_name key) s'); [exact Ck|discriminate Ck].
Qed.

Lemma reconcile_world w :
  fst (reconcile w) = fst (checkExistingFiles RevB (fst (normalizeStatesOnStartup w))).
Proof.
  unfold reconcile, bind. pose proof (normalize_returns w) as R.
  destruct (normalizeStatesOnStartup w) as [w1 o]. simpl in R. now subst o.
Qed.

(** The handler ends where [checkExistingFiles] ends, or after the
    normalization when [render] throws. *)
Lemma onDOMContentLoaded_world w :
  fst (onDOMContentLoaded RevB w) =
  match snd (render RevB (fst (normalizeStatesOnStartup w))) with
  | Ok _ => fst (checkExistingFiles RevB (fst (normalizeStatesOnStartup w)))
  | _ => fst (normalizeStatesOnStartup w)
  end.
Proof.
  unfold onDOMContentLoaded, bind, try_catch.
  pose proof (normalize_returns w) as R.
  destruct (normalizeStatesOnStartup w) as [w1 o]. simpl in R. subst o. simpl.
  pose proof (render_world RevB w1) as W.
  destruct (render RevB w1) as [w2 [u| |]]; simpl in W; subst; try reflexivity.
  simpl. destruct (checkExistingFiles RevB w1) as [w3 [u'| |]]; reflexivity.
Qed.

(** C7: the startup repair of RevB is idempotent.  For every world (every
    persisted store, with the disk as it is), running
    [normalizeStatesOnStartup] followed by [checkExistingFiles] a second
    time leaves the world, and so the stored mapping, as the first run left
    it; the same holds for the whole [DOMContentLoaded] handler, which
    renders between the two. *)
Theorem startup_repair_idempotent (w : World) :
  fst (reconcile (fst (reconcile w))) = fst (reconcile w) /\
  fst (onDOMContentLoaded RevB (fst (onDOMContentLoaded RevB w))) =
  fst (onDOMContentLoaded RevB w).
Proof.
  pose proof (normalize_normal w) as N1.
  destruct (checkExistingFiles_fixed _ N1) as (N2 & F2).
  split.
  - rewrite !reconcile_world.
    rewrite (normal_store_fixed _ N2). exact F2.
  - rewrite (onDOMContentLoaded_world w).
    destruct (snd (render RevB (fst (normalizeStatesOnStartup w)))) eqn:R.
    + rewrite onDOMContentLoaded_world, (normal_store_fixed _ N2), F2.
      destruct (snd (render RevB
                  (fst (checkExistingFiles RevB (fst (normalizeStatesOnStartup w))))));
        reflexivity.
    + rewrite onDOMContentLoaded_world, (normal_store_fixed _ N1), R. reflexivity.
    + rewrite onDOMContentLoaded_world, (normal_store_fixed _ N1), R. reflexivity.
Qed.

(** ** An attempt keeps to its own key *)

Lemma frame_refl fr : attempt_frame fr fr.
Proof. unfold attempt_frame. repeat split; auto. Qed.

Lemma saved_record_of_other s s' key :
  assoc (key_name key) s' = assoc (key_name key) s ->
  saved_record_of s' key = saved_record_of s key.
Proof.
  intros E. unfold saved_record_of, JSON_stringify.
  now rewrite !saved_record, E.
Qed.

Lemma frame_trans fr1 fr2 fr3 :
  attempt_frame fr1 fr2 -> attempt_frame fr2 fr3 -> attempt_frame fr1 fr3.
Proof.
  intros (A1 & A2 & A3 & A4 & A5 & A6 & A7 & A8 & A9 & A10)
         (B1 & B2 & B3 & B4 & B5 & B6 & B7 & B8 & B9 & B10).
  rewrite A5 in *.
  unfold attempt_frame. repeat split; try congruence.
  - intros k N. rewrite B7, A7; auto.
  - intros key N. destruct (B8 key N) as [E|E]; rewrite E.
    + apply A8, N.
    + right. apply saved_record_of_other, A7, key_name_neq, N.
  - intros f N. rewrite B9, A9; auto.
  - auto.
Qed.

Lemma frame_bind {A B} (c : jsM frame A) (f : A -> jsM frame B) fr :
  attempt_frame fr (fst (c fr)) ->
  (forall a, snd (c fr) = Ok a -> attempt_frame (fst (c fr)) (fst (f a (fst (c fr))))) ->
  attempt_frame fr (fst (bind c f fr)).
Proof.
  unfold bind. destruct (c fr) as [fr1 [a| |]]; simpl; intros H K; auto.
  eapply frame_trans; eauto.
Qed.

Lemma frame_try_catch {A} (c : jsM frame A) (h : exn -> jsM frame A) fr :
  attempt_frame fr (fst (c fr)) ->
  (forall e, snd (c fr) = Throw e -> attempt_frame (fst (c fr)) (fst (h e (fst (c fr))))) ->
  attempt_frame fr (fst (try_catch c h fr)).
Proof.
  unfold try_catch. destruct (c fr) as [fr1 [a|e|]]; simpl; intros H K; auto.
  eapply frame_trans; eauto.
Qed.

Lemma frame_set_locals (f : Task -> Task) fr :
  t_key (f (snd fr)) = t_key (snd fr) ->
  t_controller (f (snd fr)) = t_controller (snd fr) ->
  t_states (f (snd fr)) = t_states (snd fr) ->
  attempt_frame fr (fst (set_locals f fr)).
Proof.
  intros K C S. unfold attempt_frame, set_locals. simpl.
  rewrite K, C, S. repeat split; auto.
Qed.

Lemma frame_assign_states f x fr : attempt_frame fr (fst (assign_states f x fr)).
Proof.
  unfold assign_states, bind, locals, lift, set_locals, assign. simpl.
  destruct (assoc (key_name (t_key (snd fr))) (t_states (snd fr))) as [r|];
    [|apply frame_refl].
  destruct (set_field r f x) as [r'| |]; simpl; try apply frame_refl.
  unfold attempt_frame. simpl. repeat split; auto.
  intros k N. now apply assoc_set_other.
Qed.

Lemma frame_save_states fr : attempt_frame fr (fst (save_states fr)).
Proof.
  unfold save_states, bind, locals, in_world, saveStates, attempt_frame. simpl.
  repeat split; auto.
Qed.

Lemma frame_render rev fr : fst (in_world (render rev) fr) = fr.
Proof.
  unfold in_world. pose proof (render_world rev (fst fr)) as W.
  destruct (render rev (fst fr)) as [w o]. simpl in *. subst. now destruct fr.
Qed.

Lemma frame_load rev fr : fst (in_world (load rev) fr) = fr.
Proof. unfold in_world, load. simpl. now destruct fr. Qed.

Lemma file_exists_cons files f g :
  file_exists (g :: files) f = String.eqb f g || file_exists files f.
Proof. reflexivity. Qed.

Lemma frame_create fr :
  attempt_frame fr (fst (in_world (create (getModelPath (t_key (snd fr)))) fr)).
Proof.
  unfold in_world, create.
  destruct (file_exists (disk (fst fr)) (getModelPath (t_key (snd fr)))) eqn:E;
    cbn [fst snd].
  - destruct fr. apply frame_refl.
  - unfold attempt_frame. cbn [fst snd with_disk disk localStorage abortControllers
                               aborted created container].
    repeat split; auto.
    + intros f N. rewrite file_exists_cons.
      apply String.eqb_neq in N. now rewrite N.
    + intros _. rewrite file_exists_cons, String.eqb_refl. reflexivity.
Qed.

Lemma frame_stored_state rev fr : fst (stored_state rev fr) = fr.
Proof.
  unfold stored_state, bind, locals, lift, in_world, load. simpl.
  destruct (loadStates rev (localStorage (fst fr))); simpl;
    try destruct (get_of _ "state"); now destruct fr.
Qed.

Ltac frame_tac :=
  repeat first
    [ apply frame_refl
    | apply frame_assign_states
    | apply frame_save_states
    | rewrite frame_render
    | rewrite frame_stored_state
    | apply frame_set_locals; reflexivity
    | apply frame_bind; [|intros ? ?] ].

Lemma frame_after_loop rev fr : attempt_frame fr (fst (after_loop rev fr)).
Proof.
  unfold after_loop. destruct rev; [apply frame_refl|].
  apply frame_bind; [rewrite frame_stored_state; apply frame_refl|intros st _].
  rewrite frame_stored_state.
  destruct (negb (is_str st "downloading")); frame_tac.
Qed.

Lemma frame_loop_head rev fr : attempt_frame fr (fst (loop_head rev fr)).
Proof.
  unfold loop_head. destruct rev; [apply frame_refl|].
  apply frame_bind; [rewrite frame_stored_state; apply frame_refl|intros st _].
  rewrite frame_stored_state.
  destruct (negb (is_str st "downloading")); [apply frame_after_loop|apply frame_refl].
Qed.

Lemma frame_on_chunk rev now len fr : attempt_frame fr (fst (on_chunk rev now len fr)).
Proof.
  unfold on_chunk.
  apply frame_bind; [apply frame_set_locals; reflexivity|intros _ _].
  apply frame_bind; [apply frame_refl|intros t _]. cbn [locals fst].
  destruct (t_total t >? 0); [|apply frame_refl].
  apply frame_bind; [apply frame_refl|intros cur _]. cbn [lift fst].
  destruct (negb (is_num cur _)); [|apply frame_refl].
  apply frame_bind; [apply frame_assign_states|intros _ _].
  destruct rev.
  - frame_tac.
  - destruct (now - t_lastRender t >? 30); frame_tac.
Qed.

Lemma frame_on_failure rev fr : attempt_frame fr (fst (on_failure rev fr)).
Proof. unfold on_failure. frame_tac. Qed.

Lemma frame_resume_body rev now r fr :
  attempt_frame fr (fst (resume_body rev now r fr)).
Proof.
  unfold resume_body.
  apply frame_bind; [apply frame_refl|intros t E].
  cbn [locals fst snd] in E |- *. injection E as <-.
  destruct (t_phase (snd fr)), r; try apply frame_refl.
  - destruct (negb ok || negb body); [apply frame_refl|].
    apply frame_bind; [apply frame_set_locals; reflexivity|intros _ _].
    apply frame_refl.
  - apply frame_bind; [apply frame_create|intros _ _].
    apply frame_bind; [apply frame_set_locals; reflexivity|intros _ _].
    apply frame_loop_head.
  - apply frame_after_loop.
  - apply frame_bind; [apply frame_on_chunk|intros _ _]. apply frame_loop_head.
  - frame_tac.
Qed.

Lemma confined_refl key s w : confined key s w w.
Proof. unfold confined. repeat split; auto. Qed.

Lemma confined_trans key s w1 w2 w3 :
  confined key s w1 w2 -> confined key s w2 w3 -> confined key s w1 w3.
Proof.
  intros (A1 & A2 & A3 & A4 & A5 & A6 & A7) (B1 & B2 & B3 & B4 & B5 & B6 & B7).
  unfold confined. repeat split; try congruence.
  - intros key' N. rewrite B4, A4; auto.
  - intros key' N. destruct (B5 key' N) as [E|E]; rewrite E; auto.
  - intros f N. rewrite B6, A6; auto.
  - auto.
Qed.

Lemma confined_of_frame w t fr :
  attempt_frame (w, t) fr -> confined (t_key t) (t_states t) w (fst fr).
Proof.
  intros (A1 & A2 & A3 & A4 & A5 & A6 & A7 & A8 & A9 & A10). simpl in *.
  unfold confined. repeat split; auto. intros key' _. now rewrite A1.
Qed.

Lemma ModelKey_eqb_eq a b : ModelKey_eqb a b = true <-> a = b.
Proof. destruct a, b; simpl; split; intros H; try reflexivity; discriminate H. Qed.

Lemma ModelKey_eqb_neq a b : ModelKey_eqb a b = false <-> a <> b.
Proof.
  destruct (ModelKey_eqb a b) eqn:E; split; intros H; try reflexivity;
    try discriminate H.
  - apply ModelKey_eqb_eq in E. contradiction.
  - intros ->. assert (ModelKey_eqb b b = true) by now apply ModelKey_eqb_eq.
    congruence.
Qed.

(** [delete abortControllers[key]] removes the entry of [key] and no
    other. *)
Lemma registered_without key key' r :
  registered key' (filter (fun kc => negb (ModelKey_eqb key (fst kc))) r) =
  if ModelKey_eqb key' key then None else registered key' r.
Proof.
  induction r as [|[k c] r IH]; simpl; [now destruct (ModelKey_eqb key' key)|].
  destruct (ModelKey_eqb key k) eqn:E; simpl.
  - apply ModelKey_eqb_eq in E. subst k. rewrite IH.
    now destruct (ModelKey_eqb key' key).
  - destruct (ModelKey_eqb key' k) eqn:E'; [|exact IH].
    apply ModelKey_eqb_eq in E'. subst k.
    destruct (ModelKey_eqb key' key) eqn:E2; [|reflexivity].
    apply ModelKey_eqb_eq in E2. subst key'.
    assert (ModelKey_eqb key key = true) by now apply ModelKey_eqb_eq. congruence.
Qed.

Lemma registered_unregister key key' w :
  registered key' (abortControllers (unregister key w)) =
  if ModelKey_eqb key' key then None else registered key' (abortControllers w).
Proof. unfold unregister. simpl. apply registered_without. Qed.

Lemma confined_unregister key s w :
  confined key s w (unregister key w).
Proof.
  unfold confined. repeat split; auto.
  intros key' N. rewrite registered_unregister.
  apply ModelKey_eqb_neq in N. now rewrite N.
Qed.

(** One stretch of an attempt, under its [catch] and [finally]. *)
Lemma guarded_frame rev body w t :
  (forall fr, attempt_frame fr (fst (body fr))) ->
  confined (t_key t) (t_states t) w (fst (guarded rev body (w, t))) /\
  (forall t', snd (guarded rev body (w, t)) = Ok (Some t') ->
     t_key t' = t_key t /\
     t_controller t' = t_controller t /\
     abortControllers (fst (guarded rev body (w, t))) = abortControllers w /\
     forall k, k <> key_name (t_key t) -> assoc k (t_states t') = assoc k (t_states t)) /\
  ((forall t', snd (guarded rev body (w, t)) <> Ok (Some t')) ->
   snd (guarded rev body (w, t)) <> Unmodelled ->
   registered (t_key t) (abortControllers (fst (guarded rev body (w, t)))) = None).
Proof.
  intros B. unfold guarded.
  assert (F : attempt_frame (w, t)
                (fst (try_catch body
                        (fun e => match e with
                                  | AbortError => ret None
                                  | _ => exec on_failure rev ;; ret None
                                  end) (w, t)))).
  { apply frame_try_catch; [apply B|]. intros e _.
    destruct e; try apply frame_refl;
      (apply frame_bind; [apply frame_on_failure|intros; apply frame_refl]). }
  destruct (try_catch body _ (w, t)) as [[w1 t1] o].
  pose proof (confined_of_frame _ _ _ F) as C.
  destruct F as (A1 & _ & _ & _ & A5 & A6 & A7 & _). simpl in *.
  assert (U : registered (t_key t) (abortControllers (unregister (t_key t1) w1)) = None).
  { rewrite registered_unregister, A5.
    assert (ModelKey_eqb (t_key t) (t_key t) = true) as -> by now apply ModelKey_eqb_eq.
    reflexivity. }
  assert (CU : confined (t_key t) (t_states t) w (unregister (t_key t1) w1)).
  { eapply confined_trans; [exact C|]. rewrite A5. apply confined_unregister. }
  destruct o as [[ph|]|e|]; simpl.
  - split; [exact C|]. split.
    + intros t' E. injection E as <-. simpl. auto.
    + intros H. now elim (H (with_phase ph t1)).
  - split; [exact CU|]. split; [intros t' E; discriminate E|auto].
  - split; [exact CU|]. split; [intros t' E; discriminate E|auto].
  - split; [exact C|]. split; [intros t' E; discriminate E|].
    intros _ H. now elim H.
Qed.

Lemma resume_frame rev now r t w :
  confined (t_key t) (t_states t) w (fst (resume rev now r t w)) /\
  (forall t', snd (resume rev now r t w) = Ok (Some t') ->
     t_key t' = t_key t /\
     t_controller t' = t_controller t /\
     abortControllers (fst (resume rev now r t w)) = abortControllers w /\
     forall k, k <> key_name (t_key t) -> assoc k (t_states t') = assoc k (t_states t)) /\
  ((forall t', snd (resume rev now r t w) <> Ok (Some t')) ->
   snd (resume rev now r t w) <> Unmodelled ->
   registered (t_key t) (abortControllers (fst (resume rev now r t w))) = None).
Proof. unfold resume. apply guarded_frame. intros fr. apply frame_resume_body. Qed.

Lemma confined_snapshot key s s' w w' :
  (forall k, k <> key_name key -> assoc k s' = assoc k s) ->
  confined key s' w w' -> confined key s w w'.
Proof.
  intros E (A1 & A2 & A3 & A4 & A5 & A6 & A7).
  unfold confined. repeat split; auto.
  intros key' N. destruct (A5 key' N) as [H|H]; [now left|right].
  rewrite H. apply saved_record_of_other, E, key_name_neq, N.
Qed.

Lemma run_confined (rev : revision) (replies : list (Z * reply)) :
  forall (t : Task) (w : World),
    confined (t_key t) (t_states t) w (fst (run rev t replies w)).
Proof.
  induction replies as [|[now r] rest IH]; intros t w; simpl.
  - apply confined_refl.
  - unfold bind. destruct (resume_frame rev now r t w) as (C & S & _).
    destruct (resume rev now r t w) as [w1 [[t1|]| |]]; simpl in *; auto.
    destruct (S t1 eq_refl) as (K & _ & _ & St).
    eapply confined_trans; [exact C|].
    rewrite <- K. eapply confined_snapshot; [|apply IH].
    intros k N. apply St. now rewrite <- K.
Qed.

(** X1: from its first [await] on, whatever the awaited calls settle
    with, an attempt for a key creates and aborts no controller, leaves the
    registry entries, the stored records and the files of the other keys
    alone, except that a stored record of another key may be put back to
    what the attempt loaded at its start, and never removes the file of its
    own key. *)
Theorem attempt_confined_to_its_key (rev : revision) (replies : list (Z * reply)) :
  forall (t : Task) (w : World),
    confined (t_key t) (t_states t) w (fst (run rev t replies w)).
Proof. apply run_confined. Qed.

(** X2: one stretch of [startDownload], from an [await] to the next or to
    the end, whatever the registry holds when the awaited call settles
    (other attempts or a cancel may have changed it in between).  A stretch
    that leaves the attempt suspended leaves [abortControllers] as it found
    it, and the attempt keeps its key and its controller.  A stretch that
    ends the attempt, by a return or by a rejection, leaves no entry for
    its key, whichever controller that entry held (the [finally] deletes by
    key), and leaves the entries of the other keys. *)
Theorem finally_unregisters_by_key (rev : revision) (now : Z) (r : reply)
    (t : Task) (w : World) :
  match snd (resume rev now r t w) with
  | Ok (Some t') =>
      abortControllers (fst (resume rev now r t w)) = abortControllers w /\
      t_key t' = t_key t /\ t_controller t' = t_controller t
  | Ok None | Throw _ =>
      registered (t_key t) (abortControllers (fst (resume rev now r t w))) = None /\
      forall key', key' <> t_key t ->
        registered key' (abortControllers (fst (resume rev now r t w)))
        = registered key' (abortControllers w)
  | Unmodelled => True
  end.
Proof.
  destruct (resume_frame rev now r t w) as (C & S & U).
  destruct C as (_ & _ & _ & Others & _).
  destruct (resume rev now r t w) as [w1 [[t1|]| |]]; cbn [fst snd] in *.
  - destruct (S t1 eq_refl) as (K & Ct & R & _). auto.
  - split; [apply U; [intros t' E|]; discriminate|exact Others].
  - split; [apply U; [intros t' E|]; discriminate|exact Others].
  - exact I.
Qed.

(** An awaited call that rejects with an AbortError ends the attempt at
    once, whatever [await] it is suspended at: the [catch] returns without
    writing and the [finally] removes the registry entry of the key. *)
Lemma resume_abort (rev : revision) (now : Z) (t : Task) (w : World) :
  resume rev now (Rejected AbortError) t w = (unregister (t_key t) w, Ok None).
Proof.
  unfold resume, guarded, try_catch, resume_body, bind, locals, lift. simpl.
  destruct (t_phase t); reflexivity.
Qed.

Lemma has_state_set_state fs s :
  has_state (Some (JObj (assoc_set "state" (JStr s) fs))) s = true.
Proof. simpl. rewrite assoc_set_same. simpl. apply String.eqb_refl. Qed.

(** The pieces of an attempt, on an object record. *)
Lemma bind_ok {S A B} (c : jsM S A) (f : A -> jsM S B) s s1 a :
  c s = (s1, Ok a) -> bind c f s = f a s1.
Proof. unfold bind. now intros ->. Qed.

Lemma assign_states_obj f x w t fs :
  assoc (key_name (t_key t)) (t_states t) = Some (JObj fs) ->
  assign_states f x (w, t) =
  ((w, with_states (assoc_set (key_name (t_key t)) (JObj (assoc_set f x fs)) (t_states t)) t),
   Ok tt).
Proof.
  intros E. unfold assign_states, bind, locals, lift, set_locals, assign. simpl.
  rewrite E. reflexivity.
Qed.

Lemma save_states_eq w t :
  save_states (w, t) =
  ((with_storage (Some (JSON_stringify (JObj (t_states t)))) w, t), Ok tt).
Proof. reflexivity. Qed.

Lemma in_world_render rev w t :
  in_world (render rev) (w, t) = ((w, t), snd (render rev w)).
Proof.
  unfold in_world. pose proof (render_world rev w) as W. simpl.
  destruct (render rev w) as [w' o]. simpl in *. now subst.
Qed.

Lemma registered_unregister_same key w :
  registered key (abortControllers (unregister key w)) = None.
Proof.
  rewrite registered_unregister.
  assert (ModelKey_eqb key key = true) as -> by now apply ModelKey_eqb_eq.
  reflexivity.
Qed.

Lemma localStorage_unregister key w :
  localStorage (unregister key w) = localStorage w.
Proof. reflexivity. Qed.

Lemma disk_unregister key w : disk (unregister key w) = disk w.
Proof. reflexivity. Qed.

Lemma on_failure_obj rev w t fs :
  assoc (key_name (t_key t)) (t_states t) = Some (JObj fs) ->
  on_failure rev (w, t) =
  let s' := assoc_set (key_name (t_key t))
              (JObj (assoc_set "state" (JStr "not-downloaded") fs)) (t_states t) in
  let w1 := with_storage (Some (JSON_stringify (JObj s'))) w in
  ((w1, with_states s' t), snd (render rev w1)).
Proof.
  intros E. unfold on_failure.
  rewrite (bind_ok _ _ _ _ _ (assign_states_obj _ _ w t fs E)).
  rewrite (bind_ok _ _ _ _ _ (save_states_eq _ _)).
  apply in_world_render.
Qed.

(** X4: an awaited call that rejects with any other error ends the attempt
    through the [catch] block: the record of the key is stored with state
    'not-downloaded' and with the progress the attempt had last written to
    its [states] (not reset), nothing on the disk is touched (a partial
    file stays), the registry entry of the key is removed, and the promise
    is not rejected unless [render] throws. *)
Theorem failure_reverts_state_only (rev : revision) (now : Z) (e : exn)
    (t : Task) (w : World) :
  e <> AbortError ->
  is_record (assoc (key_name (t_key t)) (t_states t)) = true ->
  has_state (record_of (localStorage (fst (resume rev now (Rejected e) t w))) (t_key t))
            "not-downloaded" = true /\
  (forall n, has_progress
               (record_of (localStorage (fst (resume rev now (Rejected e) t w))) (t_key t)) n
             = is_num (progress_of t) n) /\
  disk (fst (resume rev now (Rejected e) t w)) = disk w /\
  registered (t_key t) (abortControllers (fst (resume rev now (Rejected e) t w))) = None /\
  (renders rev (with_storage (localStorage (fst (resume rev now (Rejected e) t w))) w) ->
   snd (resume rev now (Rejected e) t w) = Ok None).
Proof.
  intros N R.
  destruct (assoc (key_name (t_key t)) (t_states t)) as [[| | | | |fs]|] eqn:E;
    try discriminate R.
  assert (B : resume_body rev now (Rejected e) (w, t) = ((w, t), Throw e)).
  { unfold resume_body, bind, locals, lift. simpl. now destruct (t_phase t). }
  unfold resume, guarded, try_catch. rewrite B.
  assert (H : (match e with
               | AbortError => ret None
               | _ => exec on_failure rev ;; ret None
               end) (w, t)
              = bind (on_failure rev) (fun _ => ret (None : option phase)) (w, t))
    by (destruct e; try reflexivity; now elim N).
  rewrite H. clear H.
  unfold bind. rewrite (on_failure_obj rev w t fs E). cbv zeta.
  set (s' := assoc_set (key_name (t_key t))
               (JObj (assoc_set "state" (JStr "not-downloaded") fs)) (t_states t)).
  set (w1 := with_storage (Some (JSON_stringify (JObj s'))) w).
  assert (S1 : record_of (localStorage w1) (t_key t)
               = Some (JObj (assoc_set "state" (JStr "not-downloaded") fs))).
  { unfold w1, s', JSON_stringify. simpl. now rewrite saved_record, assoc_set_same. }
  assert (P : forall n, has_progress (record_of (localStorage w1) (t_key t)) n
                        = is_num (progress_of t) n).
  { intros n. rewrite S1. unfold has_progress, progress_of. rewrite E. simpl.
    now rewrite assoc_set_other by discriminate. }
  pose proof (render_modelled rev w1) as M.
  unfold renders.
  destruct (snd (render rev w1)) as [u|e'|] eqn:Rr; try (now elim M);
    unfold ret; cbv beta iota; cbn [fst snd];
    rewrite ?localStorage_unregister, ?disk_unregister;
    (split; [rewrite S1; apply has_state_set_state|]);
    (split; [exact P|]);
    (split; [reflexivity|]);
    (split; [apply (registered_unregister_same (t_key t) w1)|]).
  - reflexivity.
  - change (with_storage (localStorage w1) w) with w1.
    rewrite Rr. discriminate.
Qed.

(** ** The registry under cancel and delete *)

Lemma js_registry_bind {A B} (c : js A) (f : A -> js B) w :
  abortControllers (fst (c w)) = abortControllers w /\ aborted (fst (c w)) = aborted w ->
  (forall a w1, abortControllers (fst (f a w1)) = abortControllers w1 /\
                aborted (fst (f a w1)) = aborted w1) ->
  abortControllers (fst (bind c f w)) = abortControllers w /\
  aborted (fst (bind c f w)) = aborted w.
Proof.
  unfold bind. intros [H1 H2] K. destruct (c w) as [w1 [a| |]]; simpl in *; auto.
  destruct (K a w1) as [K1 K2]. split; congruence.
Qed.

Lemma js_registry_after {A B} (c : js A) (f : A -> js B) w :
  (forall a w1, abortControllers (fst (f a w1)) = abortControllers w1 /\
                aborted (fst (f a w1)) = aborted w1) ->
  abortControllers (fst (bind c f w)) = abortControllers (fst (c w)) /\
  aborted (fst (bind c f w)) = aborted (fst (c w)).
Proof.
  unfold bind. intros K. destruct (c w) as [w1 [a| |]]; simpl; auto.
Qed.

Lemma render_registry rev w :
  abortControllers (fst (render rev w)) = abortControllers w /\
  aborted (fst (render rev w)) = aborted w.
Proof. now rewrite render_world. Qed.

(** The reset of [cancelDownload] after the abort, and [deleteDownload],
    touch neither the registry nor any controller. *)
Lemma cancel_reset_registry rev key w :
  abortControllers (fst (cancel_reset rev key w)) =
    abortControllers (fst (abort_registered key w)) /\
  aborted (fst (cancel_reset rev key w)) = aborted (fst (abort_registered key w)).
Proof.
  unfold cancel_reset. apply js_registry_after. intros _ w1.
  apply js_registry_bind; [split; reflexivity|intros states w2].
  apply js_registry_bind; [split; reflexivity|intros s' w3].
  apply js_registry_bind; [split; reflexivity|intros _ w4].
  apply render_registry.
Qed.

Lemma try_catch_registry {A} (c : js A) (h : exn -> js A) w :
  abortControllers (fst (c w)) = abortControllers w /\ aborted (fst (c w)) = aborted w ->
  (forall e w1, abortControllers (fst (h e w1)) = abortControllers w1 /\
                aborted (fst (h e w1)) = aborted w1) ->
  abortControllers (fst (try_catch c h w)) = abortControllers w /\
  aborted (fst (try_catch c h w)) = aborted w.
Proof.
  unfold try_catch. intros [H1 H2] K. destruct (c w) as [w1 [a|e|]]; simpl in *; auto.
  destruct (K e w1) as [K1 K2]. split; congruence.
Qed.

Lemma remove_registry filename rm w :
  abortControllers (fst (remove filename rm w)) = abortControllers w /\
  aborted (fst (remove filename rm w)) = aborted w.
Proof. unfold remove. destruct rm; split; reflexivity. Qed.

Lemma cancelDownload_registry rev key rm w :
  abortControllers (fst (cancelDownload rev key rm w)) =
    abortControllers (fst (abort_registered key w)) /\
  aborted (fst (cancelDownload rev key rm w)) = aborted (fst (abort_registered key w)).
Proof.
  unfold cancelDownload, bind.
  pose proof (cancel_reset_registry rev key w) as C.
  destruct (cancel_reset rev key w) as [w1 [u| |]]; simpl in *; auto.
  unfold cancel_cleanup.
  destruct (try_catch_registry (remove (getModelPath key) rm) (fun _ => ret tt) w1)
    as [T1 T2]; [apply remove_registry|intros; split; reflexivity|].
  destruct C. split; congruence.
Qed.

Lemma abort_registered_unregisters key w :
  registered key (abortControllers (fst (abort_registered key w))) = None.
Proof.
  unfold abort_registered.
  destruct (registered key (abortControllers w)) as [c|] eqn:R; simpl; [|exact R].
  rewrite registered_without.
  now assert (ModelKey_eqb key key = true) as -> by now apply ModelKey_eqb_eq.
Qed.

(** X5: [cancelDownload(key)] aborts the controller registered for the
    key, if there is one, and takes the key out of the registry; it aborts
    no other controller and leaves the entries of the other keys. *)
Theorem cancelDownload_aborts_registered (rev : revision) (key : ModelKey)
    (rm : io_result) (w : World) :
  registered key (abortControllers (fst (cancelDownload rev key rm w))) = None /\
  (forall key', key' <> key ->
     registered key' (abortControllers (fst (cancelDownload rev key rm w)))
     = registered key' (abortControllers w)) /\
  aborted (fst (cancelDownload rev key rm w)) =
    match registered key (abortControllers w) with
    | Some c => c :: aborted w
    | None => aborted w
    end.
Proof.
  destruct (cancelDownload_registry rev key rm w) as [-> ->].
  split; [apply abort_registered_unregisters|].
  unfold abort_registered.
  destruct (registered key (abortControllers w)) as [c|] eqn:R; simpl.
  - split; [|reflexivity].
    intros key' N. rewrite registered_without.
    apply ModelKey_eqb_neq in N. now rewrite N.
  - auto.
Qed.

Lemma filter_unregistered key (r : list (ModelKey * nat)) :
  registered key r = None ->
  filter (fun kc => negb (ModelKey_eqb key (fst kc))) r = r.
Proof.
  induction r as [|[k c] r IH]; simpl; [reflexivity|].
  destruct (ModelKey_eqb key k); [discriminate|].
  intros H. simpl. now rewrite IH.
Qed.

Lemma unregister_absent key w :
  registered key (abortControllers w) = None -> unregister key w = w.
Proof.
  intros H. unfold unregister, with_registry.
  rewrite (filter_unregistered _ _ H). now destruct w.
Qed.

(** X3: the abort that a cancel sends costs nothing more.  When the call
    an attempt is suspended at rejects with the AbortError, after
    [cancelDownload] of its key has reset the record (before or after the
    removal of the file), the attempt ends without an error and the world
    is exactly as the cancel left it: the [catch] writes nothing over the
    reset record, and the [finally] finds the key already out of the
    registry. *)
Theorem abort_after_cancel_changes_nothing (rev : revision) (now : Z) (t : Task)
    (rm : io_result) (w : World) :
  resume rev now (Rejected AbortError) t (fst (cancel_reset rev (t_key t) w))
  = (fst (cancel_reset rev (t_key t) w), Ok None) /\
  resume rev now (Rejected AbortError) t (fst (cancelDownload rev (t_key t) rm w))
  = (fst (cancelDownload rev (t_key t) rm w), Ok None).
Proof.
  rewrite !resume_abort. split; f_equal; apply unregister_absent.
  - destruct (cancel_reset_registry rev (t_key t) w) as [-> _].
    apply abort_registered_unregisters.
  - destruct (cancelDownload_registry rev (t_key t) rm w) as [-> _].
    apply abort_registered_unregisters.
Qed.

(** X6: [deleteDownload(key)] looks neither at the record's state nor at
    the registry: on any object record, with a removal that succeeds, it
    stores state 'not-downloaded' and progress 0 and the file is gone; and
    in every case its promise is not rejected, it aborts no controller and
    leaves the registry as it is, so a transfer running for the key stays
    registered. *)
Theorem deleteDownload_never_aborts (rev : revision) (key : ModelKey)
    (rm : io_result) (w : World) :
  abortControllers (fst (deleteDownload rev key rm w)) = abortControllers w /\
  aborted (fst (deleteDownload rev key rm w)) = aborted w /\
  (forall e, snd (deleteDownload rev key rm w) <> Throw e) /\
  (is_record (record_of (localStorage w) key) = true -> rm = None ->
   is_fresh (record_of (localStorage (fst (deleteDownload rev key rm w))) key) = true /\
   file_exists (disk (fst (deleteDownload rev key rm w))) (getModelPath key) = false).
Proof.
  assert (H : abortControllers (fst (deleteDownload rev key rm w)) = abortControllers w /\
              aborted (fst (deleteDownload rev key rm w)) = aborted w).
  { unfold deleteDownload.
    apply try_catch_registry; [|intros; split; reflexivity].
    apply js_registry_bind; [apply remove_registry|intros _ w1].
    apply js_registry_bind; [split; reflexivity|intros states w2].
    apply js_registry_bind; [split; reflexivity|intros s1 w3].
    apply js_registry_bind; [split; reflexivity|intros s2 w4].
    apply js_registry_bind; [split; reflexivity|intros _ w5].
    apply render_registry. }
  destruct H as [H1 H2]. split; [exact H1|]. split; [exact H2|]. split.
  - intros e0. unfold deleteDownload, try_catch.
    match goal with |- context [match ?c with _ => _ end] => destruct c as [w1 [u|e|]] end;
      simpl; discriminate.
  - intros R ->. destruct (deleteDownload_removed rev key w R) as (_ & F & D).
    split; [exact F|]. rewrite D. apply removed_absent.
Qed.

(** ** The start of an attempt *)

Lemma guarded_suspend rev body w t w' t' ph :
  body (w, t) = ((w', t'), Ok (Some ph)) ->
  guarded rev body (w, t) = (w', Ok (Some (with_phase ph t'))).
Proof. intros E. unfold guarded, try_catch. now rewrite E. Qed.

Lemma guarded_return rev body w t w' t' :
  body (w, t) = ((w', t'), Ok None) ->
  guarded rev body (w, t) = (unregister (t_key t') w', Ok None).
Proof. intros E. unfold guarded, try_catch. now rewrite E. Qed.

Lemma get_state_of r :
  r <> JNull -> get_of (Some r) "state" = Ok (assoc "state" (own_props r)).
Proof. destruct r; simpl; congruence. Qed.

(** The record both revisions load for a key whose stored record is an
    object: it is an object, and it says 'downloading' only in RevB and only
    when the store does. *)
Lemma loaded_record rev w key :
  is_record (record_of (localStorage w) key) = true ->
  (rev = RevB -> has_state (record_of (localStorage w) key) "downloading" = false) ->
  exists states fs,
    loadStates rev (localStorage w) = Ok states /\
    assoc (key_name key) states = Some (JObj fs) /\
    is_str (assoc "state" fs) "downloading" = false.
Proof.
  intros R D.
  destruct (loadStates_record rev _ key R) as (states & fs & L & E).
  exists states, fs. split; [exact L|]. split; [exact E|].
  destruct rev.
  - pose proof (loadStates_RevA_settled _ _ key L) as S.
    rewrite E in S. simpl in S. now apply negb_true_iff in S.
  - specialize (D eq_refl). unfold record_of in D. rewrite L, E in D. exact D.
Qed.

Lemma registered_register key c w :
  registered key (abortControllers (register key c w)) = Some c.
Proof.
  unfold register. simpl.
  now assert (ModelKey_eqb key key = true) as -> by now apply ModelKey_eqb_eq.
Qed.

Lemma registered_register_other key key' c w :
  key' <> key ->
  registered key' (abortControllers (register key c w)) = registered key' (abortControllers w).
Proof.
  intros N. unfold register. simpl.
  apply ModelKey_eqb_neq in N. rewrite N, registered_without. now rewrite N.
Qed.

(** What RevB loads is what [record_of] reads. *)
Lemma loaded_RevB item states key :
  loadStates RevB item = Ok states ->
  assoc (key_name key) states = record_of item key.
Proof. intros L. unfold record_of. now rewrite L. Qed.

Lemma startDownload_spec rev key w states fs :
  loadStates rev (localStorage w) = Ok states ->
  assoc (key_name key) states = Some (JObj fs) ->
  is_str (assoc "state" fs) "downloading" = false ->
  renders rev w ->
  let states' := assoc_set (key_name key) (downloading_record fs)
                   (assoc_set (key_name key)
                      (JObj (assoc_set "state" (JStr "downloading") fs)) states) in
  startDownload rev key w =
  (with_storage (Some (JSON_stringify (JObj states')))
     (register key (created w) (with_created (S (created w)) w)),
   Ok (Some (mkTask key (created w) states' 0 0 0 AwaitPath))) /\
  renders rev (with_storage (Some (JSON_stringify (JObj states')))
                 (register key (created w) (with_created (S (created w)) w))).
Proof.
  intros L E D Rn states'.
  set (w0 := register key (created w) (with_created (S (created w)) w)).
  set (w1 := with_storage (Some (JSON_stringify (JObj states'))) w0).
  assert (Rn' : renders rev w1).
  { apply (renders_after rev w); [exact Rn|reflexivity|].
    intros key'. unfold w1, JSON_stringify. simpl. rewrite saved_record.
    unfold states'. rewrite assoc_set_lookup.
    destruct (String.eqb (key_name key') (key_name key)) eqn:K;
      [right; discriminate|].
    apply String.eqb_neq in K. rewrite assoc_set_other by assumption.
    destruct rev.
    - right. pose proof (loadStates_RevA_settled _ _ key' L) as S.
      destruct (assoc (key_name key') states) as [[]|]; simpl in S;
        discriminate.
    - left. rewrite (loaded_RevB _ _ key' L).
      rewrite record_of_cases.
      destruct (localStorage w) as [[|v]|]; try reflexivity.
      now destruct (assoc (key_name key') (own_props v)). }
  split; [|exact Rn'].
  unfold startDownload, bind at 1, load. rewrite L.
  unfold bind at 1, lift. rewrite E.
  rewrite get_state_of by discriminate.
  change (own_props (JObj fs)) with fs. rewrite D. cbv beta. fold w0.
  match goal with |- guarded _ ?b ?fr = _ =>
    assert (B : b fr = ((w1, mkTask key (created w) states' 0 0 0 AwaitPath),
                        Ok (Some AwaitPath)))
  end.
  { rewrite (bind_ok _ _ _ _ _
               (assign_states_obj _ _ w0 (mkTask key (created w) states 0 0 0 AwaitPath) fs E)).
    erewrite bind_ok; [|apply assign_states_obj; simpl; apply assoc_set_same].
    rewrite (bind_ok _ _ _ _ _ (save_states_eq _ _)).
    unfold bind. rewrite in_world_render.
    cbn [with_states t_states t_key t_controller t_total t_received t_lastRender t_phase].
    change (with_storage _ w0) with w1.
    unfold renders in Rn'. rewrite Rn'. reflexivity. }
  rewrite (guarded_suspend _ _ _ _ _ _ _ B). reflexivity.
Qed.

Lemma downloading_record_fields fs :
  is_str (assoc "state" (own_props (downloading_record fs))) "downloading" = true /\
  is_num (assoc "progress" (own_props (downloading_record fs))) 0 = true.
Proof.
  unfold downloading_record. simpl. rewrite assoc_set_same.
  rewrite assoc_set_other by discriminate. now rewrite assoc_set_same.
Qed.

(** X7: on an object record that [loadStates] does not show as
    'downloading', [startDownload(key)] starts an attempt: it creates a
    new controller and registers it for the key (in place of an entry the
    key had, which is not aborted), stores the record with state
    'downloading' and progress 0, touches no file and no other registry
    entry, and is suspended at its first [await]. *)
Theorem startDownload_begins (rev : revision) (key : ModelKey) (w : World) :
  is_record (record_of (localStorage w) key) = true ->
  (rev = RevB -> has_state (record_of (localStorage w) key) "downloading" = false) ->
  renders rev w ->
  exists t,
    snd (startDownload rev key w) = Ok (Some t) /\
    t_key t = key /\ t_phase t = AwaitPath /\ t_controller t = created w /\
    created (fst (startDownload rev key w)) = S (created w) /\
    registered key (abortControllers (fst (startDownload rev key w))) = Some (created w) /\
    (forall key', key' <> key ->
       registered key' (abortControllers (fst (startDownload rev key w)))
       = registered key' (abortControllers w)) /\
    has_state (record_of (localStorage (fst (startDownload rev key w))) key)
              "downloading" = true /\
    has_progress (record_of (localStorage (fst (startDownload rev key w))) key) 0 = true /\
    disk (fst (startDownload rev key w)) = disk w /\
    aborted (fst (startDownload rev key w)) = aborted w.
Proof.
  intros R D Rn.
  destruct (loaded_record rev w key R D) as (states & fs & L & E & Dk).
  destruct (startDownload_spec rev key w states fs L E Dk Rn) as [Sd _].
  rewrite Sd. eexists. split; [reflexivity|]. cbn [fst snd t_key t_phase t_controller].
  destruct (downloading_record_fields fs) as [F1 F2].
  repeat split; auto.
  - exact (registered_register key (created w) (with_created (S (created w)) w)).
  - intros key' N.
    exact (registered_register_other key key' (created w)
             (with_created (S (created w)) w) N).
  - unfold JSON_stringify. cbn [localStorage with_storage].
    rewrite saved_record, assoc_set_same. exact F1.
  - unfold JSON_stringify. cbn [localStorage with_storage].
    rewrite saved_record, assoc_set_same. exact F2.
Qed.

(** ** A transfer nobody interferes with *)

Lemma running_renders rev key w t w' :
  running rev key w t ->
  container w' = container w ->
  localStorage w' = Some (JSON_stringify (JObj (t_states t))) ->
  snd (render rev w') = Ok tt.
Proof.
  intros (_ & _ & _ & [->|[C|N]]) Cw Sw.
  - now rewrite render_RevA.
  - destruct rev; [now rewrite render_RevA|].
    apply render_RevB. left. congruence.
  - destruct rev; [now rewrite render_RevA|].
    apply render_RevB. right. intros key'. rewrite Sw. apply N.
Qed.

Lemma running_saved rev key w t :
  running rev key w t ->
  running rev key (with_storage (Some (JSON_stringify (JObj (t_states t)))) w) t.
Proof.
  intros (K & (fs & E & D) & S & Rn). unfold running.
  split; [exact K|]. split; [now exists fs|]. split; [|exact Rn].
  unfold JSON_stringify. cbn [localStorage with_storage].
  now rewrite saved_record, E.
Qed.

Lemma running_assign rev key w t fs f x :
  running rev key w t ->
  assoc (key_name key) (t_states t) = Some (JObj fs) ->
  f <> "state" ->
  running rev key w
    (with_states (assoc_set (key_name key) (JObj (assoc_set f x fs)) (t_states t)) t).
Proof.
  intros (K & (fs' & E & D) & S & Rn) E' N. unfold running.
  rewrite E in E'. injection E' as <-.
  split; [exact K|]. split.
  - exists (assoc_set f x fs'). cbn [t_states with_states].
    rewrite assoc_set_same. split; [reflexivity|].
    rewrite assoc_set_other by congruence. exact D.
  - split; [exact S|].
    destruct Rn as [Rn|[Rn|Rn]]; auto. right. right.
    intros key'. unfold saved_record_of, JSON_stringify in *.
    cbn [t_states with_states]. rewrite saved_record, assoc_set_lookup.
    destruct (String.eqb (key_name key') (key_name key)); [discriminate|].
    specialize (Rn key'). now rewrite saved_record in Rn.
Qed.

Lemma running_locals rev key w t t' :
  running rev key w t ->
  t_key t' = t_key t -> t_states t' = t_states t ->
  running rev key w t'.
Proof. unfold running. intros H K S. now rewrite K, S. Qed.

(** The loop body on a running transfer returns and keeps it running. *)
Lemma on_chunk_running rev key now len w t :
  running rev key w t ->
  exists w' t',
    on_chunk rev now len (w, t) = ((w', t'), Ok tt) /\
    running rev key w' t' /\
    disk w' = disk w /\ abortControllers w' = abortControllers w /\
    t_phase t' = t_phase t.
Proof.
  intros Rn. pose proof Rn as (K & (fs & E & D) & S & _).
  unfold on_chunk. unfold bind at 1, set_locals. cbn [fst snd].
  unfold bind at 1, locals. cbn [fst snd].
  set (t1 := with_received (t_received t + Z.of_nat len) t).
  assert (R1 : running rev key w t1) by (eapply running_locals; eauto).
  change (t_total t1) with (t_total t). change (t_key t1) with (t_key t).
  change (t_states t1) with (t_states t). change (t_received t1) with (t_received t + Z.of_nat len).
  change (t_lastRender t1) with (t_lastRender t).
  destruct (t_total t >? 0);
    [|exists w, t1; split; [reflexivity|split; [exact R1|repeat split; reflexivity]]].
  unfold bind at 1, lift. rewrite K, E. cbn [get_of get own_props].
  destruct (negb (is_num (assoc "progress" fs) _));
    [|exists w, t1; split; [reflexivity|split; [exact R1|repeat split; reflexivity]]].
  set (p := percent (t_received t + Z.of_nat len) (t_total t)).
  assert (E1 : assoc (key_name (t_key t1)) (t_states t1) = Some (JObj fs))
    by (cbn; now rewrite K).
  rewrite (bind_ok _ _ _ _ _ (assign_states_obj "progress" (JNum p) w t1 fs E1)).
  change (t_key t1) with (t_key t). rewrite K.
  set (t2 := with_states _ t1).
  assert (R2 : running rev key w t2).
  { apply running_assign; [exact R1|exact E|discriminate]. }
  assert (Sv : forall t3, t_key t3 = key -> t_states t3 = t_states t2 ->
             running rev key (with_storage (Some (JSON_stringify (JObj (t_states t2)))) w) t3).
  { intros t3 K3 S3. eapply running_locals; [apply (running_saved _ _ _ _ R2)|..].
    - now rewrite K3, <- K.
    - exact S3. }
  destruct rev.
  - rewrite (bind_ok _ _ _ _ _ (save_states_eq _ _)).
    rewrite in_world_render,
        (running_renders _ _ _ _
           (with_storage (Some (JSON_stringify (JObj (t_states t2)))) w) R2 eq_refl eq_refl).
    eexists. eexists. split; [reflexivity|].
    split; [apply (running_saved _ _ _ _ R2)|repeat split; reflexivity].
  - destruct (now - t_lastRender t >? 30).
    + rewrite (bind_ok _ _ _ _ _ (save_states_eq _ _)).
      unfold bind at 1.
      rewrite in_world_render,
        (running_renders _ _ _ _
           (with_storage (Some (JSON_stringify (JObj (t_states t2)))) w) R2 eq_refl eq_refl).
      unfold set_locals. cbn [fst snd].
      eexists. eexists. split; [reflexivity|].
      split; [apply Sv; [exact K|reflexivity]|repeat split; reflexivity].
    + exists w, t2. split; [reflexivity|]. split; [exact R2|repeat split; reflexivity].
Qed.

Lemma stored_state_running rev key w t :
  running rev key w t ->
  exists st, stored_state RevB (w, t) = ((w, t), Ok st) /\
             is_str st "downloading" = true.
Proof.
  intros (K & _ & S & _).
  unfold stored_state, bind, locals, in_world, load, lift. cbn [fst snd].
  destruct (loadStates_returns RevB (localStorage w)) as (m & L). rewrite L.
  rewrite K, (loaded_RevB _ _ key L).
  destruct (record_of (localStorage w) key) as [r|]; [|discriminate S].
  simpl in S. assert (r <> JNull) by (intros ->; discriminate S).
  rewrite get_state_of by assumption. eauto.
Qed.

Lemma loop_head_running rev key w t :
  running rev key w t ->
  loop_head rev (w, t) = ((w, t), Ok (Some AwaitRead)).
Proof.
  intros Rn. unfold loop_head. destruct rev; [reflexivity|].
  destruct (stored_state_running _ _ _ _ Rn) as (st & S & D).
  rewrite (bind_ok _ _ _ _ _ S), D. reflexivity.
Qed.

Lemma run_cons rev t now r rest w w1 t1 :
  resume rev now r t w = (w1, Ok (Some t1)) ->
  run rev t ((now, r) :: rest) w = run rev t1 rest w1.
Proof. intros E. simpl. unfold bind. now rewrite E. Qed.

Lemma run_app rev l1 l2 : forall t w w1 t1,
  run rev t l1 w = (w1, Ok (Some t1)) ->
  run rev t (l1 ++ l2) w = run rev t1 l2 w1.
Proof.
  induction l1 as [|[now r] l1 IH]; intros t w w1 t1 E; simpl in *.
  - unfold ret in E. now injection E as <- <-.
  - unfold bind in *.
    destruct (resume rev now r t w) as [w2 [[t2|]| |]]; try discriminate E.
    now apply IH.
Qed.

Lemma resume_body_phase rev now r w t :
  resume_body rev now r (w, t) =
  match t_phase t, r with
  | _, Rejected e => ((w, t), Throw e)
  | AwaitPath, Resolved => ((w, t), Ok (Some AwaitMkdir))
  | AwaitMkdir, Resolved => ((w, t), Ok (Some AwaitFetch))
  | AwaitFetch, Response ok body content_length =>
      if negb ok || negb body then ((w, t), Throw OtherError)
      else ((w, with_total (match content_length with Some n => n | None => 0 end) t),
            Ok (Some AwaitCreate))
  | AwaitCreate, Resolved =>
      loop_head rev
        (fst (create (getModelPath (t_key t)) w), with_lastRender 0 (with_received 0 t))
  | AwaitRead, Done => after_loop rev (w, t)
  | AwaitRead, Chunk len => ((w, t), Ok (Some (AwaitWrite len)))
  | AwaitWrite len, Resolved => bind (on_chunk rev now len) (fun _ => loop_head rev) (w, t)
  | AwaitClose, Resolved => ((w, t), Ok (Some AwaitDataDir))
  | AwaitDataDir, Resolved => ((w, t), Ok (Some AwaitJoin))
  | AwaitJoin, Resolved =>
      bind (assign_states "state" (JStr "downloaded"))
        (fun _ => bind (assign_states "progress" (JNum 100))
           (fun _ => bind save_states
              (fun _ => bind (in_world (render rev)) (fun _ => ret None)))) (w, t)
  | _, _ => ((w, t), Unmodelled)
  end.
Proof.
  unfold resume_body. unfold bind at 1, locals. cbn [fst snd].
  destruct (t_phase t), r; try reflexivity.
  destruct (negb ok || negb body); reflexivity.
Qed.

Lemma resume_suspend rev now r w t w' t' ph :
  resume_body rev now r (w, t) = ((w', t'), Ok (Some ph)) ->
  resume rev now r t w = (w', Ok (Some (with_phase ph t'))).
Proof. apply guarded_suspend. Qed.

Lemma running_phase rev key w t ph :
  running rev key w t -> running rev key w (with_phase ph t).
Proof. intros R. eapply running_locals; eauto. Qed.

(** The chunks of a running transfer, one after the other. *)
Lemma run_chunks rev key chunks : forall w t,
  running rev key w t ->
  t_phase t = AwaitRead ->
  exists w' t',
    run rev t (chunk_replies chunks) w = (w', Ok (Some t')) /\
    running rev key w' t' /\
    t_phase t' = AwaitRead /\
    disk w' = disk w /\ abortControllers w' = abortControllers w.
Proof.
  induction chunks as [|[now len] rest IH]; intros w t R P.
  - exists w, t. split; [reflexivity|]. split; [exact R|]. repeat split; auto.
  - cbn [chunk_replies flat_map app fst snd].
    assert (S1 : resume rev now (Chunk len) t w = (w, Ok (Some (with_phase (AwaitWrite len) t)))).
    { apply resume_suspend. rewrite resume_body_phase, P. reflexivity. }
    rewrite (run_cons _ _ _ _ _ _ _ _ S1).
    pose proof (running_phase _ _ _ _ (AwaitWrite len) R) as R1.
    destruct (on_chunk_running rev key now len w _ R1) as (w2 & t2 & O & R2 & D2 & A2 & P2).
    assert (S2 : resume rev now Resolved (with_phase (AwaitWrite len) t) w
                 = (w2, Ok (Some (with_phase AwaitRead t2)))).
    { apply resume_suspend. rewrite resume_body_phase. cbn [t_phase with_phase].
      rewrite (bind_ok _ _ _ _ _ O). apply (loop_head_running _ _ _ _ R2). }
    rewrite (run_cons _ _ _ _ _ _ _ _ S2).
    destruct (IH w2 (with_phase AwaitRead t2)) as (w3 & t3 & Rn & R3 & P3 & D3 & A3);
      [now apply running_phase|reflexivity|].
    exists w3, t3. split; [exact Rn|]. split; [exact R3|].
    repeat split; congruence.
Qed.

Lemma create_exists filename w :
  file_exists (disk (fst (create filename w))) filename = true.
Proof.
  unfold create. destruct (file_exists (disk w) filename) eqn:E; cbn [fst]; [exact E|].
  cbn [disk with_disk]. now rewrite file_exists_cons, String.eqb_refl.
Qed.

Lemma running_world rev key w w' t :
  running rev key w t ->
  localStorage w' = localStorage w -> container w' = container w ->
  running rev key w' t.
Proof. unfold running. intros H S C. now rewrite S, C. Qed.

(** The end of a running transfer: the three calls after the stream and
    the final write. *)
Lemma run_ending rev key w t :
  running rev key w t ->
  t_phase t = AwaitRead ->
  exists w',
    run rev t [(0, Done); (0, Resolved); (0, Resolved); (0, Resolved)] w = (w', Ok None) /\
    has_state (record_of (localStorage w') key) "downloaded" = true /\
    has_progress (record_of (localStorage w') key) 100 = true /\
    disk w' = disk w /\
    registered key (abortControllers w') = None.
Proof.
  intros R P. pose proof R as (K & (fs & E & D) & S & _).
  (* the end of the stream *)
  assert (exists w1 t1,
             resume rev 0 Done t w = (w1, Ok (Some t1)) /\
             running rev key w1 t1 /\ t_phase t1 = AwaitClose /\ disk w1 = disk w)
    as (w1 & t1 & S1 & R1 & P1 & D1).
  { destruct rev.
    - exists w, (with_phase AwaitClose t).
      split; [|split; [now apply running_phase|split; reflexivity]].
      apply resume_suspend. rewrite resume_body_phase, P. reflexivity.
    - destruct (stored_state_running _ _ _ _ R) as (st & St & Dst).
      assert (E1 : assoc (key_name (t_key t)) (t_states t) = Some (JObj fs))
        by now rewrite K.
      pose proof (running_assign _ _ _ _ fs "progress" (JNum 100) R E
                    ltac:(discriminate)) as R2.
      eexists. eexists. split.
      + apply resume_suspend. rewrite resume_body_phase, P. unfold after_loop.
        rewrite (bind_ok _ _ _ _ _ St), Dst. cbn [negb].
        rewrite (bind_ok _ _ _ _ _ (assign_states_obj _ _ w t fs E1)).
        rewrite (bind_ok _ _ _ _ _ (save_states_eq _ _)).
        unfold bind. rewrite in_world_render. rewrite K.
        match goal with |- context [render RevB ?x] =>
          rewrite (running_renders _ _ _ _ x R2 eq_refl eq_refl)
        end. reflexivity.
      + split; [apply running_phase, running_saved, R2|]. split; reflexivity. }
  rewrite (run_cons _ _ _ _ _ _ _ _ S1).
  assert (S2 : resume rev 0 Resolved t1 w1 = (w1, Ok (Some (with_phase AwaitDataDir t1)))).
  { apply resume_suspend. rewrite resume_body_phase, P1. reflexivity. }
  rewrite (run_cons _ _ _ _ _ _ _ _ S2).
  assert (S3 : resume rev 0 Resolved (with_phase AwaitDataDir t1) w1
               = (w1, Ok (Some (with_phase AwaitJoin (with_phase AwaitDataDir t1))))).
  { apply resume_suspend. rewrite resume_body_phase. reflexivity. }
  rewrite (run_cons _ _ _ _ _ _ _ _ S3).
  (* the final write *)
  pose proof (running_phase _ _ _ _ AwaitJoin
                (running_phase _ _ _ _ AwaitDataDir R1)) as R3.
  pose proof R3 as (K3 & (fs3 & E3 & D3) & _).
  set (t3 := with_phase AwaitJoin (with_phase AwaitDataDir t1)) in *.
  assert (E3' : assoc (key_name (t_key t3)) (t_states t3) = Some (JObj fs3))
    by now rewrite K3.
  set (s4 := assoc_set (key_name key)
               (JObj (assoc_set "progress" (JNum 100)
                        (assoc_set "state" (JStr "downloaded") fs3)))
               (assoc_set (key_name key)
                  (JObj (assoc_set "state" (JStr "downloaded") fs3)) (t_states t3))).
  set (w4 := with_storage (Some (JSON_stringify (JObj s4))) w1).
  assert (Rn4 : snd (render rev w4) = Ok tt).
  { destruct rev; [now rewrite render_RevA|]. apply render_RevB.
    destruct R3 as (_ & _ & _ & [X|[X|X]]); [discriminate X|now left|right].
    intros key'. unfold w4, JSON_stringify. cbn [localStorage with_storage].
    rewrite saved_record. unfold s4. rewrite assoc_set_lookup.
    destruct (String.eqb (key_name key') (key_name key)) eqn:Q; [discriminate|].
    apply String.eqb_neq in Q. rewrite assoc_set_other by assumption.
    specialize (X key'). unfold saved_record_of, JSON_stringify in X.
    now rewrite saved_record in X. }
  assert (S4 : resume rev 0 Resolved t3 w1 = (unregister key w4, Ok None)).
  { unfold resume.
    assert (B : resume_body rev 0 Resolved (w1, t3)
                = ((w4, with_states s4
                          (with_states
                             (assoc_set (key_name key)
                                (JObj (assoc_set "state" (JStr "downloaded") fs3))
                                (t_states t3)) t3)), Ok None)).
    { rewrite resume_body_phase. cbn [t_phase t3 with_phase].
      rewrite (bind_ok _ _ _ _ _ (assign_states_obj _ _ w1 t3 fs3 E3')).
      erewrite bind_ok; [|apply assign_states_obj; cbn [t_key t_states with_states];
                          apply assoc_set_same].
      rewrite (bind_ok _ _ _ _ _ (save_states_eq _ _)).
      unfold bind. rewrite in_world_render.
      cbn [t_key t_states with_states]. rewrite K3. fold s4. fold w4.
      rewrite Rn4. reflexivity. }
    rewrite (guarded_return _ _ _ _ _ _ B).
    cbn [t_key with_states]. now rewrite K3. }
  exists (unregister key w4).
  split.
  { cbn [run]. unfold bind. rewrite S4. reflexivity. }
  rewrite localStorage_unregister, disk_unregister.
  unfold w4, JSON_stringify. cbn [localStorage with_storage disk].
  rewrite saved_record. unfold s4. rewrite assoc_set_same.
  split; [|split; [|split; [exact D1|apply registered_unregister_same]]].
  - simpl. rewrite assoc_set_other by discriminate. now rewrite assoc_set_same.
  - simpl. now rewrite assoc_set_same.
Qed.

(** The calls before the stream, on a running transfer. *)
Lemma run_prelude rev key content_length w t :
  running rev key w t ->
  t_phase t = AwaitPath ->
  exists w' t',
    run rev t [(0, Resolved); (0, Resolved);
               (0, Response true true content_length); (0, Resolved)] w
      = (w', Ok (Some t')) /\
    running rev key w' t' /\
    t_phase t' = AwaitRead /\
    file_exists (disk w') (getModelPath key) = true.
Proof.
  intros R P. pose proof R as (K & _).
  assert (S1 : resume rev 0 Resolved t w = (w, Ok (Some (with_phase AwaitMkdir t)))).
  { apply resume_suspend. rewrite resume_body_phase, P. reflexivity. }
  rewrite (run_cons _ _ _ _ _ _ _ _ S1).
  assert (S2 : resume rev 0 Resolved (with_phase AwaitMkdir t) w
               = (w, Ok (Some (with_phase AwaitFetch (with_phase AwaitMkdir t))))).
  { apply resume_suspend. rewrite resume_body_phase. reflexivity. }
  rewrite (run_cons _ _ _ _ _ _ _ _ S2).
  set (t2 := with_phase AwaitFetch (with_phase AwaitMkdir t)).
  set (n := match content_length with Some n => n | None => 0 end).
  assert (S3 : resume rev 0 (Response true true content_length) t2 w
               = (w, Ok (Some (with_phase AwaitCreate (with_total n t2))))).
  { apply resume_suspend. rewrite resume_body_phase. reflexivity. }
  rewrite (run_cons _ _ _ _ _ _ _ _ S3).
  set (t3 := with_phase AwaitCreate (with_total n t2)).
  set (w4 := fst (create (getModelPath (t_key t3)) w)).
  set (t4 := with_lastRender 0 (with_received 0 t3)).
  assert (R4 : running rev key w4 t4).
  { apply (running_world rev key w).
    - eapply running_locals; [exact R|reflexivity|reflexivity].
    - unfold w4, create. now destruct (file_exists _ _).
    - unfold w4, create. now destruct (file_exists _ _). }
  assert (S4 : resume rev 0 Resolved t3 w = (w4, Ok (Some (with_phase AwaitRead t4)))).
  { apply resume_suspend. rewrite resume_body_phase. cbn [t_phase t3 with_phase].
    apply (loop_head_running _ _ _ _ R4). }
  rewrite (run_cons _ _ _ _ _ _ _ _ S4).
  exists w4, (with_phase AwaitRead t4).
  split; [reflexivity|]. split; [now apply running_phase|]. split; [reflexivity|].
  unfold w4. change (t_key t3) with (t_key t). rewrite K. apply create_exists.
Qed.

(** X8: a transfer that nobody interferes with and in which every awaited
    call resolves completes, whatever the content-length header says and
    however the body is cut into chunks: [startDownload] returns without an
    error, the record of the key is stored with state 'downloaded' and
    progress 100, the file of the key is on the disk, and the key is out of
    the registry. *)
Theorem transfer_completes (rev : revision) (key : ModelKey)
    (content_length : option Z) (chunks : list (Z * nat)) (w : World) :
  is_record (record_of (localStorage w) key) = true ->
  (rev = RevB -> has_state (record_of (localStorage w) key) "downloading" = false) ->
  renders rev w ->
  snd (attempt rev key (transfer_replies content_length chunks) w) = Ok None /\
  has_state (record_of (localStorage
      (fst (attempt rev key (transfer_replies content_length chunks) w))) key)
    "downloaded" = true /\
  has_progress (record_of (localStorage
      (fst (attempt rev key (transfer_replies content_length chunks) w))) key)
    100 = true /\
  file_exists (disk (fst (attempt rev key (transfer_replies content_length chunks) w)))
    (getModelPath key) = true /\
  registered key (abortControllers
      (fst (attempt rev key (transfer_replies content_length chunks) w))) = None.
Proof.
  intros R D Rn.
  destruct (loaded_record rev w key R D) as (states & fs & L & E & Dk).
  destruct (startDownload_spec rev key w states fs L E Dk Rn) as [Sd Rn1].
  cbv zeta in Sd, Rn1.
  set (states' := assoc_set (key_name key) (downloading_record fs)
                    (assoc_set (key_name key)
                       (JObj (assoc_set "state" (JStr "downloading") fs)) states)) in *.
  set (w1 := with_storage (Some (JSON_stringify (JObj states')))
               (register key (created w) (with_created (S (created w)) w))) in *.
  set (t1 := mkTask key (created w) states' 0 0 0 AwaitPath) in *.
  assert (R1 : running rev key w1 t1).
  { unfold running. split; [reflexivity|]. split; [|split].
    - exists (assoc_set "progress" (JNum 0) (assoc_set "state" (JStr "downloading") fs)).
      split; [apply assoc_set_same|]. apply (downloading_record_fields fs).
    - unfold w1, JSON_stringify. cbn [localStorage with_storage].
      rewrite saved_record. unfold states'. rewrite assoc_set_same.
      apply (downloading_record_fields fs).
    - destruct rev; [now left|right].
      apply render_RevB in Rn1. destruct Rn1 as [C|N]; [now left|right].
      exact N. }
  destruct (run_prelude rev key content_length w1 t1 R1 eq_refl)
    as (w2 & t2 & Q2 & R2 & P2 & F2).
  destruct (run_chunks rev key chunks w2 t2 R2 P2)
    as (w3 & t3 & Q3 & R3 & P3 & D3 & _).
  destruct (run_ending rev key w3 t3 R3 P3) as (w4 & Q4 & H1 & H2 & D4 & U4).
  assert (A : attempt rev key (transfer_replies content_length chunks) w = (w4, Ok None)).
  { unfold attempt, bind. rewrite Sd. unfold transfer_replies.
    rewrite (run_app _ _ _ _ _ _ _ Q2), (run_app _ _ _ _ _ _ _ Q3). exact Q4. }
  rewrite A. cbn [fst snd]. repeat split; auto. congruence.
Qed.

(** ** Cancel seen by the attempt (RevB) *)

Lemma stored_state_spec w t :
  exists st,
    stored_state RevB (w, t) = ((w, t), st) /\
    (record_of (localStorage w) (t_key t) <> Some JNull ->
     exists x, st = Ok x /\
       is_str x "downloading" = has_state (record_of (localStorage w) (t_key t)) "downloading").
Proof.
  unfold stored_state, bind, locals, in_world, load, lift. cbn [fst snd].
  destruct (loadStates_returns RevB (localStorage w)) as (m & L). rewrite L.
  rewrite (loaded_RevB _ _ (t_key t) L).
  eexists. split; [reflexivity|]. intros N.
  pose proof (record_of_cases (localStorage w) (t_key t)) as C.
  destruct (record_of (localStorage w) (t_key t)) as [r|] eqn:Q.
  - assert (r <> JNull) by congruence.
    rewrite get_state_of by assumption. eexists. split; reflexivity.
  - destruct (localStorage w) as [[|v]|]; try discriminate C.
    destruct (assoc _ (own_props v)); discriminate C.
Qed.

(** X9: RevB stops an attempt whose record is no longer 'downloading' in
    the store.  When the stream ends, or when the file has just been
    created, and the stored record of the key is there but not
    'downloading', the attempt returns without writing the store: it does
    not reach 'downloaded', and its key leaves the registry. *)
Theorem cancelled_attempt_stops (now : Z) (t : Task) (w : World) :
  record_of (localStorage w) (t_key t) <> Some JNull ->
  has_state (record_of (localStorage w) (t_key t)) "downloading" = false ->
  (t_phase t = AwaitRead ->
   resume RevB now Done t w = (unregister (t_key t) w, Ok None)) /\
  (t_phase t = AwaitCreate ->
   resume RevB now Resolved t w =
   (unregister (t_key t) (fst (create (getModelPath (t_key t)) w)), Ok None)).
Proof.
  intros N D.
  assert (A : forall w' t', localStorage w' = localStorage w -> t_key t' = t_key t ->
                after_loop RevB (w', t') = ((w', t'), Ok None) /\
                loop_head RevB (w', t') = ((w', t'), Ok None)).
  { intros w' t' Sw Kt.
    destruct (stored_state_spec w' t') as (st & S & H).
    rewrite Sw, Kt in H. destruct (H N) as (x & -> & Dx). rewrite D in Dx.
    assert (AL : after_loop RevB (w', t') = ((w', t'), Ok None)).
    { unfold after_loop. rewrite (bind_ok _ _ _ _ _ S), Dx. reflexivity. }
    split; [exact AL|].
    unfold loop_head. rewrite (bind_ok _ _ _ _ _ S), Dx. exact AL. }
  split; intros P.
  - assert (B : resume_body RevB now Done (w, t) = ((w, t), Ok None)).
    { rewrite resume_body_phase, P. apply A; reflexivity. }
    unfold resume. now rewrite (guarded_return _ _ _ _ _ _ B).
  - assert (B : resume_body RevB now Resolved (w, t)
                = ((fst (create (getModelPath (t_key t)) w),
                    with_lastRender 0 (with_received 0 t)), Ok None)).
    { rewrite resume_body_phase, P. apply A; [|reflexivity].
      unfold create. now destruct (file_exists _ _). }
    unfold resume. now rewrite (guarded_return _ _ _ _ _ _ B).
Qed.

(** ** What the loop body does not write *)

Lemma on_chunk_unknown_total rev now len w t :
  t_total t <= 0 ->
  on_chunk rev now len (w, t) =
  ((w, with_received (t_received t + Z.of_nat len) t), Ok tt).
Proof.
  intros T. unfold on_chunk, bind, set_locals, locals. cbn [fst snd with_received t_total].
  assert ((t_total t >? 0) = false) as -> by lia. reflexivity.
Qed.

(** X10: without a usable content-length (no header, not a number, or not
    positive) the stream reports no progress: whatever chunks arrive, the
    store is not written and the records of the attempt stay as they were,
    only the byte count grows. *)
Theorem unknown_length_reports_nothing (rev : revision) (key : ModelKey)
    (chunks : list (Z * nat)) :
  forall (w : World) (t : Task),
    running rev key w t ->
    t_phase t = AwaitRead ->
    t_total t <= 0 ->
    run rev t (chunk_replies chunks) w =
    (w, Ok (Some (with_received (t_received t + total_bytes chunks) t))).
Proof.
  induction chunks as [|[now len] rest IH]; intros w t R P T.
  - cbn [chunk_replies flat_map run]. unfold ret, total_bytes. simpl.
    rewrite Z.add_0_r. now destruct t.
  - cbn [chunk_replies flat_map app fst snd].
    assert (S1 : resume rev now (Chunk len) t w = (w, Ok (Some (with_phase (AwaitWrite len) t)))).
    { apply resume_suspend. rewrite resume_body_phase, P. reflexivity. }
    rewrite (run_cons _ _ _ _ _ _ _ _ S1).
    set (t1 := with_phase (AwaitWrite len) t).
    set (t2 := with_received (t_received t1 + Z.of_nat len) t1).
    assert (R2 : running rev key w t2)
      by (eapply running_locals; [exact R|reflexivity|reflexivity]).
    assert (S2 : resume rev now Resolved t1 w = (w, Ok (Some (with_phase AwaitRead t2)))).
    { apply resume_suspend. rewrite resume_body_phase. cbn [t_phase t1 with_phase].
      rewrite (bind_ok _ _ _ _ _ (on_chunk_unknown_total rev now len w t1 T)).
      apply (loop_head_running _ _ _ _ R2). }
    rewrite (run_cons _ _ _ _ _ _ _ _ S2).
    change (chunk_replies rest) with (flat_map
      (fun c : Z * nat => [(fst c, Chunk (snd c)); (fst c, Resolved)]) rest).
    fold (chunk_replies rest).
    rewrite (IH w (with_phase AwaitRead t2));
      [|now apply running_phase|reflexivity|exact T].
    f_equal. f_equal. f_equal.
    unfold total_bytes. simpl. unfold with_received, with_phase, t2, t1. simpl.
    rewrite P. f_equal. lia.
Qed.

Lemma on_chunk_throttled now len w t fs :
  assoc (key_name (t_key t)) (t_states t) = Some (JObj fs) ->
  now - t_lastRender t <= 30 ->
  exists t',
    on_chunk RevB now len (w, t) = ((w, t'), Ok tt) /\
    t_key t' = t_key t /\ t_lastRender t' = t_lastRender t /\
    t_total t' = t_total t /\ t_phase t' = t_phase t /\
    t_received t' = t_received t + Z.of_nat len /\
    (forall k, k <> key_name (t_key t) -> assoc k (t_states t') = assoc k (t_states t)) /\
    exists fs', assoc (key_name (t_key t)) (t_states t') = Some (JObj fs') /\
                assoc "state" fs' = assoc "state" fs.
Proof.
  intros E T. unfold on_chunk. unfold bind at 1, set_locals. cbn [fst snd].
  unfold bind at 1, locals. cbn [fst snd].
  set (t1 := with_received (t_received t + Z.of_nat len) t).
  change (t_total t1) with (t_total t). change (t_key t1) with (t_key t).
  change (t_states t1) with (t_states t). change (t_lastRender t1) with (t_lastRender t).
  change (t_received t1) with (t_received t + Z.of_nat len).
  destruct (t_total t >? 0).
  2:{ exists t1. repeat split; auto. now exists fs. }
  unfold bind at 1, lift. rewrite E. cbn [get_of get own_props].
  destruct (negb (is_num (assoc "progress" fs) _)).
  2:{ exists t1. repeat split; auto. now exists fs. }
  assert (E1 : assoc (key_name (t_key t1)) (t_states t1) = Some (JObj fs)) by exact E.
  rewrite (bind_ok _ _ _ _ _ (assign_states_obj "progress" _ w t1 fs E1)).
  assert ((now - t_lastRender t >? 30) = false) as -> by lia.
  eexists. split; [reflexivity|]. cbn [t_key t_lastRender t_total t_phase t_received
                                       t_states with_states t1 with_received].
  repeat split; auto.
  - intros k N. now apply assoc_set_other.
  - eexists. split; [apply assoc_set_same|]. now apply assoc_set_other.
Qed.

(** X11: RevB throttles its writes.  Chunks that arrive no later than 30
    time units after the last render change the progress in the attempt's
    own [states] only: the store is not written (and the page not
    rendered), however many such chunks there are. *)
Theorem throttled_chunks_do_not_write (key : ModelKey) (chunks : list (Z * nat)) :
  forall (w : World) (t : Task),
    running RevB key w t ->
    t_phase t = AwaitRead ->
    Forall (fun c => fst c - t_lastRender t <= 30) chunks ->
    exists t',
      run RevB t (chunk_replies chunks) w = (w, Ok (Some t')) /\
      t_received t' = t_received t + total_bytes chunks /\
      t_lastRender t' = t_lastRender t.
Proof.
  induction chunks as [|[now len] rest IH]; intros w t R P F.
  - exists t. split; [reflexivity|]. unfold total_bytes. simpl. split; [lia|reflexivity].
  - inversion F as [|c l F1 F2]; subst. cbn [fst] in F1.
    cbn [chunk_replies flat_map app fst snd].
    assert (S1 : resume RevB now (Chunk len) t w
                 = (w, Ok (Some (with_phase (AwaitWrite len) t)))).
    { apply resume_suspend. rewrite resume_body_phase, P. reflexivity. }
    rewrite (run_cons _ _ _ _ _ _ _ _ S1).
    set (t1 := with_phase (AwaitWrite len) t).
    pose proof (running_phase _ _ _ _ (AwaitWrite len) R) as R1. fold t1 in R1.
    destruct (on_chunk_running RevB key now len w t1 R1)
      as (w2 & t2 & O & R2 & _ & _ & _).
    pose proof R1 as (K1 & (fs & E & _) & _).
    rewrite <- K1 in E.
    destruct (on_chunk_throttled now len w t1 fs E F1)
      as (t2' & O' & _ & L2 & _ & _ & Rc2 & _).
    rewrite O in O'. injection O' as -> ->.
    assert (S2 : resume RevB now Resolved t1 w = (w, Ok (Some (with_phase AwaitRead t2')))).
    { apply resume_suspend. rewrite resume_body_phase. cbn [t_phase t1 with_phase].
      rewrite (bind_ok _ _ _ _ _ O). apply (loop_head_running _ _ _ _ R2). }
    rewrite (run_cons _ _ _ _ _ _ _ _ S2).
    change (flat_map _ rest) with (chunk_replies rest).
    destruct (IH w (with_phase AwaitRead t2')) as (t3 & Q3 & Rc3 & L3);
      [now apply running_phase|reflexivity| |].
    { cbn [t_lastRender with_phase]. rewrite L2. exact F2. }
    exists t3. split; [exact Q3|].
    cbn [t_received t_lastRender with_phase] in Rc3, L3.
    rewrite Rc3, L3, Rc2, L2. unfold total_bytes. simpl. split; [lia|reflexivity].
Qed.

(** ** What [checkExistingFiles] changes *)

Section CheckResult.

Variable files : list string.

Lemma check_key_result s c key s1 c1 :
  check_key files (s, c) key = Ok (s1, c1) ->
  (is_stale files s key = true -> is_fresh (assoc (key_name key) s1) = true /\ c1 = true) /\
  (is_stale files s key = false -> s1 = s /\ c1 = c) /\
  (forall k', k' <> key_name key -> assoc k' s1 = assoc k' s).
Proof.
  intros H. pose proof (check_key_spec files s c key) as S.
  unfold is_stale, has_state.
  destruct (assoc (key_name key) s) as [r|] eqn:E; [|congruence].
  assert (N : r <> JNull) by (intros ->; congruence).
  destruct (is_str (assoc "state" (own_props r)) "downloaded") eqn:D.
  - destruct (file_exists files (getModelPath key)) eqn:F.
    + assert (check_key files (s, c) key = Ok (s, c)) as Q
        by (destruct r; try congruence; exact S).
      rewrite Q in H. injection H as <- <-. simpl. repeat split; auto; discriminate.
    + assert (exists fs, r = JObj fs /\ check_key files (s, c) key =
          Ok (assoc_set (key_name key) (reset_record fs)
                (assoc_set (key_name key)
                   (JObj (assoc_set "state" (JStr "not-downloaded") fs)) s), true))
        as (fs & -> & Q) by (destruct r; try congruence; exact S).
      rewrite Q in H. injection H as <- <-. simpl.
      split; [intros _; rewrite assoc_set_same; split;
              [apply is_fresh_reset_record|reflexivity]|].
      split; [discriminate|].
      intros k' K. now rewrite !assoc_set_other.
  - assert (check_key files (s, c) key = Ok (s, c)) as Q
      by (destruct r; try congruence; exact S).
    rewrite Q in H. injection H as <- <-. simpl. repeat split; auto; discriminate.
Qed.

Lemma fresh_not_stale s key :
  is_fresh (assoc (key_name key) s) = true -> is_stale files s key = false.
Proof.
  intros F. unfold is_stale.
  assert (has_state (assoc (key_name key) s) "downloaded" = false) as ->; [|reflexivity].
  unfold is_fresh in F. apply andb_true_iff in F. destruct F as [F _].
  destruct (assoc (key_name key) s) as [v|]; [|reflexivity]. simpl in *.
  eapply is_str_exclusive; eauto. discriminate.
Qed.

Lemma check_loop_result ks : forall s c s' c',
  forEach (check_key files) ks (s, c) = Ok (s', c') ->
  forall key,
    (In key ks -> is_stale files s key = true -> is_fresh (assoc (key_name key) s') = true) /\
    (is_stale files s key = false -> assoc (key_name key) s' = assoc (key_name key) s) /\
    (~ In key ks -> assoc (key_name key) s' = assoc (key_name key) s).
Proof.
  induction ks as [|k0 ks IH]; intros s c s' c' H key; simpl in H.
  - injection H as <- <-. repeat split; auto.
  - destruct (check_key files (s, c) k0) as [[s1 c1]| |] eqn:S; simpl in H;
      try discriminate H.
    destruct (check_key_result _ _ _ _ _ S) as (R1 & R2 & R3).
    destruct (IH _ _ _ _ H key) as (I1 & I2 & I3).
    destruct (ModelKey_eq_dec key k0) as [->|N].
    + assert (F : is_stale files s k0 = true -> is_fresh (assoc (key_name k0) s') = true).
      { intros St. destruct (R1 St) as [F1 _].
        rewrite I2; [exact F1|]. now apply fresh_not_stale. }
      split; [intros _; exact F|]. split.
      * intros St. destruct (R2 St) as [-> _]. now apply I2.
      * intros X. elim X. now left.
    + assert (E : assoc (key_name key) s1 = assoc (key_name key) s)
        by (apply R3, key_name_neq, N).
      assert (St : is_stale files s1 key = is_stale files s key) by (unfold is_stale; now rewrite E).
      split; [|split].
      * intros [X|Hin]; [congruence|]. intros Q. apply I1; congruence.
      * intros Q. rewrite I2; congruence.
      * intros X. rewrite I3; [exact E|]. intros Hin. apply X. now right.
Qed.

Lemma check_loop_returns ks : forall s c,
  (forall key, In key ks ->
     assoc (key_name key) s <> None /\ assoc (key_name key) s <> Some JNull) ->
  exists s' c', forEach (check_key files) ks (s, c) = Ok (s', c').
Proof.
  induction ks as [|k0 ks IH]; intros s c H; simpl; [eauto|].
  pose proof (check_key_spec files s c k0) as S.
  destruct (H k0 (or_introl eq_refl)) as [N1 N2].
  destruct (assoc (key_name k0) s) as [r|] eqn:E; [|congruence].
  assert (exists s1 c1, check_key files (s, c) k0 = Ok (s1, c1)) as (s1 & c1 & Q).
  { destruct (is_str (assoc "state" (own_props r)) "downloaded");
      [destruct (file_exists files (getModelPath k0))|].
    - destruct r; try congruence; eauto.
    - assert (exists fs, r = JObj fs /\ check_key files (s, c) k0 = Ok
          (assoc_set (key_name k0) (reset_record fs)
             (assoc_set (key_name k0)
                (JObj (assoc_set "state" (JStr "not-downloaded") fs)) s), true))
        as (fs & _ & Q) by (destruct r; try congruence; exact S).
      eauto.
    - destruct r; try congruence; eauto. }
  rewrite Q. simpl. apply IH. intros key Hin.
  destruct (check_key_result _ _ _ _ _ Q) as (R1 & R2 & R3).
  destruct (ModelKey_eq_dec key k0) as [->|N].
  - destruct (is_stale files s k0) eqn:St.
    + destruct (R1 eq_refl) as [F _].
      destruct (assoc (key_name k0) s1) as [[]|]; try discriminate F; split; congruence.
    + destruct (R2 eq_refl) as [-> _]. rewrite E. split; congruence.
  - rewrite R3 by (apply key_name_neq, N). apply H. now right.
Qed.

End CheckResult.

Lemma checkExistingFiles_result (w : World) :
  (forall key, record_of (localStorage w) key <> Some JNull) ->
  disk (fst (checkExistingFiles RevB w)) = disk w /\
  abortControllers (fst (checkExistingFiles RevB w)) = abortControllers w /\
  (forall key,
     has_state (record_of (localStorage w) key) "downloaded" = true ->
     file_exists (disk w) (getModelPath key) = false ->
     is_fresh (record_of (localStorage (fst (checkExistingFiles RevB w))) key) = true) /\
  (forall key,
     has_state (record_of (localStorage w) key) "downloaded" = false \/
     file_exists (disk w) (getModelPath key) = true ->
     record_of (localStorage (fst (checkExistingFiles RevB w))) key
     = record_of (localStorage w) key) /\
  (forall key,
     has_state (record_of (localStorage (fst (checkExistingFiles RevB w))) key)
               "downloaded" = true ->
     file_exists (disk (fst (checkExistingFiles RevB w))) (getModelPath key) = true).
Proof.
  intros N.
  destruct (loadStates_returns RevB (localStorage w)) as (states & L).
  assert (Rc : forall key, assoc (key_name key) states = record_of (localStorage w) key)
    by (intros key; apply loaded_RevB, L).
  assert (Some_rec : forall key, record_of (localStorage w) key <> None).
  { intros key. rewrite record_of_cases.
    destruct (localStorage w) as [[|v]|]; try discriminate.
    destruct (assoc (key_name key) (own_props v)); discriminate. }
  destruct (check_loop_returns (disk w) MODEL_KEYS states false) as (s' & c' & F).
  { intros key _. rewrite Rc. split; [apply Some_rec|apply N]. }
  pose proof (check_loop_result (disk w) MODEL_KEYS _ _ _ _ F) as Res.
  assert (St : forall key, is_stale (disk w) states key =
                has_state (record_of (localStorage w) key) "downloaded"
                && negb (file_exists (disk w) (getModelPath key)))
    by (intros key; unfold is_stale; now rewrite Rc).
  (* the store afterwards reads as the loop's result *)
  assert (W : fst (checkExistingFiles RevB w) =
              if c' then with_storage (Some (Parses (JObj s'))) w else w).
  { rewrite (checkExistingFiles_world w states L), F. now destruct c'. }
  assert (Rd : forall key,
             record_of (localStorage (fst (checkExistingFiles RevB w))) key
             = assoc (key_name key) s').
  { intros key. rewrite W. destruct c'.
    - cbn [localStorage with_storage]. rewrite saved_record.
      destruct (Res key) as (R1 & R2 & _).
      destruct (is_stale (disk w) states key) eqn:Q.
      + specialize (R1 (In_MODEL_KEYS key) eq_refl).
        destruct (assoc (key_name key) s'); [reflexivity|discriminate R1].
      + rewrite (R2 eq_refl), Rc.
        pose proof (Some_rec key).
        destruct (record_of (localStorage w) key); [reflexivity|congruence].
    - destruct (check_loop (disk w) _ _ _ _ _ F) as (_ & _ & I3).
      destruct (I3 eq_refl) as [-> _]. now rewrite Rc. }
  assert (Dk : disk (fst (checkExistingFiles RevB w)) = disk w)
    by (rewrite W; now destruct c').
  assert (Down : forall key,
             has_state (record_of (localStorage w) key) "downloaded" = true ->
             file_exists (disk w) (getModelPath key) = false ->
             is_fresh (record_of (localStorage (fst (checkExistingFiles RevB w))) key) = true).
  { intros key D Fx. rewrite Rd. destruct (Res key) as (R1 & _).
    apply R1; [apply In_MODEL_KEYS|]. rewrite St, D, Fx. reflexivity. }
  assert (Keep : forall key,
             has_state (record_of (localStorage w) key) "downloaded" = false \/
             file_exists (disk w) (getModelPath key) = true ->
             record_of (localStorage (fst (checkExistingFiles RevB w))) key
             = record_of (localStorage w) key).
  { intros key H. rewrite Rd, <- Rc. destruct (Res key) as (_ & R2 & _).
    apply R2. rewrite St.
    destruct H as [-> | ->]; [reflexivity|apply andb_false_r]. }
  split; [exact Dk|]. split; [rewrite W; now destruct c'|].
  split; [exact Down|]. split; [exact Keep|].
  intros key D. rewrite Dk.
  destruct (file_exists (disk w) (getModelPath key)) eqn:Fx; [reflexivity|].
  destruct (has_state (record_of (localStorage w) key) "downloaded") eqn:D0.
  - pose proof (Down key D0 Fx) as Fr2. unfold is_fresh in Fr2.
    apply andb_true_iff in Fr2.
    destruct Fr2 as [Fr2 _].
    destruct (record_of (localStorage (fst (checkExistingFiles RevB w))) key) as [v|];
      [|discriminate D]. simpl in D, Fr2.
    rewrite (is_str_exclusive _ _ "downloaded" Fr2) in D by discriminate. discriminate D.
  - rewrite (Keep key (or_introl D0)) in D. congruence.
Qed.

(** X12: on a store without a [null] record, [checkExistingFiles] (RevB)
    downgrades exactly the records that say 'downloaded' while their file
    is missing, to state 'not-downloaded' and progress 0, and leaves every
    other record as it is: afterwards every record that says 'downloaded'
    has its file on the disk.  It never touches the disk or the registry,
    so a file without a 'downloaded' record is neither removed nor
    adopted. *)
Theorem checkExistingFiles_reconciles (w : World) :
  (forall key, record_of (localStorage w) key <> Some JNull) ->
  disk (fst (checkExistingFiles RevB w)) = disk w /\
  abortControllers (fst (checkExistingFiles RevB w)) = abortControllers w /\
  (forall key,
     has_state (record_of (localStorage w) key) "downloaded" = true ->
     file_exists (disk w) (getModelPath key) = false ->
     is_fresh (record_of (localStorage (fst (checkExistingFiles RevB w))) key) = true) /\
  (forall key,
     has_state (record_of (localStorage w) key) "downloaded" = false \/
     file_exists (disk w) (getModelPath key) = true ->
     record_of (localStorage (fst (checkExistingFiles RevB w))) key
     = record_of (localStorage w) key) /\
  (forall key,
     has_state (record_of (localStorage (fst (checkExistingFiles RevB w))) key)
               "downloaded" = true ->
     file_exists (disk (fst (checkExistingFiles RevB w))) (getModelPath key) = true).
Proof. apply checkExistingFiles_result. Qed.

(** ** What [normalizeStatesOnStartup] leaves *)

Lemma normalize_key_downloaded fs c key fs1 c1 :
  normalize_key (JObj fs, c) key = Ok (JObj fs1, c1) ->
  forall k', has_state (assoc k' fs1) "downloaded" = has_state (assoc k' fs) "downloaded".
Proof.
  intros H k'. pose proof (normalize_key_obj fs c key) as S.
  destruct (assoc (key_name key) fs) as [st|] eqn:E;
    [|rewrite S in H; now injection H as <- <-].
  destruct (truthy st); simpl in S; [|rewrite S in H; now injection H as <- <-].
  destruct (needs_reset st) eqn:R.
  - rewrite S in H. injection H as <- <-. rewrite assoc_set_lookup.
    destruct (String.eqb k' (key_name key)) eqn:K; [|reflexivity].
    apply String.eqb_eq in K. subst k'. rewrite E. simpl.
    unfold needs_reset in R. apply andb_true_iff in R. destruct R as [R _].
    apply orb_true_iff in R. symmetry.
    destruct R as [R|R]; eapply is_str_exclusive; eauto; discriminate.
  - destruct (needs_100 st) eqn:N.
    + destruct S as (f & -> & S). rewrite S in H. injection H as <- <-.
      rewrite assoc_set_lookup.
      destruct (String.eqb k' (key_name key)) eqn:K; [|reflexivity].
      apply String.eqb_eq in K. subst k'. rewrite E. simpl.
      now rewrite assoc_set_other by discriminate.
    + rewrite S in H. now injection H as <- <-.
Qed.

Lemma normalize_loop_downloaded ks : forall fs c fs' c',
  forEach normalize_key ks (JObj fs, c) = Ok (JObj fs', c') ->
  forall k', has_state (assoc k' fs') "downloaded" = has_state (assoc k' fs) "downloaded".
Proof.
  induction ks as [|k0 ks IH]; intros fs c fs' c' H k'; simpl in H.
  - now injection H as <- <-.
  - destruct (normalize_key_step fs c k0) as (fs1 & c1 & S & _).
    rewrite S in H. simpl in H.
    rewrite (IH _ _ _ _ H k'). eapply normalize_key_downloaded; eauto.
Qed.

(** X13: after [normalizeStatesOnStartup], whatever the store held, every
    catalog record is settled: one that says 'downloaded' has progress 100,
    one that says 'not-downloaded' has progress 0, and none says
    'downloading'.  The pass downgrades no 'downloaded' record and upgrades
    none: a record says 'downloaded' afterwards exactly when it did
    before. *)
Theorem normalized_store_is_settled (w : World) (key : ModelKey) :
  (has_state (record_of (localStorage (fst (normalizeStatesOnStartup w))) key)
             "downloaded" = true ->
   has_progress (record_of (localStorage (fst (normalizeStatesOnStartup w))) key) 100
   = true) /\
  (has_state (record_of (localStorage (fst (normalizeStatesOnStartup w))) key)
             "not-downloaded" = true ->
   has_progress (record_of (localStorage (fst (normalizeStatesOnStartup w))) key) 0
   = true) /\
  has_state (record_of (localStorage (fst (normalizeStatesOnStartup w))) key)
            "downloading" = false /\
  has_state (record_of (localStorage (fst (normalizeStatesOnStartup w))) key) "downloaded"
  = has_state (record_of (localStorage w) key) "downloaded".
Proof.
  pose proof (normalize_normal w) as Nm.
  assert (Nk : is_normal (record_of (localStorage (fst (normalizeStatesOnStartup w))) key)
               = true).
  { destruct (loadStates_returns RevB (localStorage (fst (normalizeStatesOnStartup w))))
      as (m & L).
    rewrite <- (loaded_RevB _ _ key L). eapply loaded_normal; eauto. }
  assert (Obj : forall (r : option json) s,
             has_state r s = true -> exists f, r = Some (JObj f)).
  { intros [v|] s H; [|discriminate H]. simpl in H.
    destruct (assoc "state" (own_props v)) as [x|] eqn:A; [|discriminate H].
    destruct (named_prop_object v "state" x eq_refl A) as (f & ->). eauto. }
  split; [|split; [|split]].
  - intros D. destruct (Obj _ _ D) as (f & E). rewrite E in *.
    simpl in Nk, D |- *. unfold needs_reset, needs_100 in Nk. simpl in Nk.
    rewrite D in Nk.
    rewrite (is_str_exclusive _ _ "downloading" D) in Nk by discriminate.
    rewrite (is_str_exclusive _ _ "not-downloaded" D) in Nk by discriminate.
    simpl in Nk. now destruct (is_num (assoc "progress" f) 100).
  - intros D. destruct (Obj _ _ D) as (f & E). rewrite E in *.
    simpl in Nk, D |- *. unfold needs_reset, needs_100 in Nk. simpl in Nk.
    rewrite D in Nk.
    rewrite (is_str_exclusive _ _ "downloading" D) in Nk by discriminate.
    rewrite (is_str_exclusive _ _ "downloaded" D) in Nk by discriminate.
    simpl in Nk. now destruct (is_num (assoc "progress" f) 0).
  - apply normalized_no_downloading.
  - destruct (normalizeStatesOnStartup_spec w) as [_ S].
    destruct (localStorage w) as [[t|v]|] eqn:E; try (now rewrite S, E).
    destruct v as [| | | | |fs]; try (now rewrite S, E).
    destruct (normalized_storage w fs E) as (fs' & c' & L & _ & W).
    rewrite W, !saved_record.
    pose proof (normalize_loop_downloaded _ _ _ _ _ L (key_name key)) as Dn.
    destruct (assoc (key_name key) fs') as [r'|] eqn:A';
      destruct (assoc (key_name key) fs) as [r|] eqn:A; auto.
Qed.

(** ** Saving and loading again *)

Lemma assoc_value k ps v : assoc k ps = Some v -> In v (map snd ps).
Proof.
  induction ps as [|[k' v'] r IH]; simpl; [discriminate|].
  destruct (assoc k r) as [x|].
  - intros H. right. apply IH. exact H.
  - destruct (String.eqb k k'); [|discriminate].
    intros H. injection H as <-. now left.
Qed.

Lemma keys_in_assoc k ps : In k (map fst ps) -> assoc k ps <> None.
Proof.
  induction ps as [|[k' v'] r IH]; simpl; [intros []|].
  intros [<-|H].
  - destruct (assoc k' r); [discriminate|]. now rewrite String.eqb_refl.
  - specialize (IH H). destruct (assoc k r); [discriminate|congruence].
Qed.

Lemma defaultState_value k v : assoc k defaultState = Some v -> v = fresh_record.
Proof.
  intros H. apply assoc_value in H. vm_compute in H.
  repeat (destruct H as [H|H]; [now subst v|]). destruct H.
Qed.

(** What [loadStates] returns: the default, or the default overridden by
    the properties [ps] read from the store, which RevA has settled. *)
Lemma loadStates_shape rev item m :
  loadStates rev item = Ok m ->
  exists ps, m = spread_props defaultState ps /\
    (rev = RevA -> forall k, assoc k ps <> None -> settled (assoc k ps) = true).
Proof.
  assert (D : exists ps, defaultState = spread_props defaultState ps /\
    (rev = RevA -> forall k, assoc k ps <> None -> settled (assoc k ps) = true))
    by (exists []; split; [reflexivity|intros _ k H; now elim H]).
  destruct item as [raw|]; simpl; [|intros H; injection H as <-; exact D].
  unfold loadStates_try.
  destruct (is_empty raw); [intros H; injection H as <-; exact D|].
  destruct raw as [t|v]; simpl; [intros H; injection H as <-; exact D|].
  destruct rev.
  - destruct (Object_keys v) as [ks| |] eqn:K; simpl;
      [|intros H; injection H as <-; exact D|discriminate].
    destruct (forEach reset_downloading ks (own_props v)) as [ps| |] eqn:F; simpl;
      [|intros H; injection H as <-; exact D|discriminate].
    intros H. injection H as <-. exists ps. split; [reflexivity|].
    intros _ k A.
    destruct (forEach_reset_settles _ _ _ F) as (I1 & _ & I3).
    apply I1.
    assert (ks = map fst (own_props v)) as -> by (destruct v; cbn in K |- *; congruence).
    apply assoc_in_keys, I3, A.
  - intros H. injection H as <-. exists (own_props v). split; [reflexivity|discriminate].
Qed.

Lemma forEach_reset_settled ks : forall p,
  (forall k, In k ks -> settled (assoc k p) = true) ->
  forEach reset_downloading ks p = Ok p.
Proof.
  induction ks as [|k r IH]; intros p H; simpl; [reflexivity|].
  assert (R : reset_downloading p k = Ok p).
  { pose proof (reset_downloading_spec p k) as S.
    pose proof (H k (or_introl eq_refl)) as T. unfold settled in T.
    destruct (assoc k p) as [x|]; [|discriminate T].
    destruct x; try discriminate T;
      destruct (is_str _ "downloading"); try discriminate T; exact S. }
  rewrite R. simpl. apply IH. intros k' Hin. apply H. now right.
Qed.

(** X14: the mapping [loadStates] returns survives [saveStates] and a
    second [loadStates]: loading what was saved from a loaded mapping
    gives, for every property name, the record the mapping has.  In
    particular the second load of RevA resets nothing more. *)
Theorem saved_states_load_back (rev : revision) (w : World) (m : props) :
  snd (load rev w) = Ok m ->
  exists m', snd (load rev (fst (saveStates m w))) = Ok m' /\
             forall k, assoc k m' = assoc k m.
Proof.
  intros L. cbn [load snd] in L.
  destruct (loadStates_shape _ _ _ L) as (ps & E & Q).
  exists (spread_props defaultState m). split.
  - cbn [load snd saveStates fst localStorage with_storage]. unfold JSON_stringify.
    cbn [loadStates loadStates_try is_empty JSON_parse obind].
    destruct rev; [|reflexivity].
    cbn [Object_keys own_props obind].
    rewrite forEach_reset_settled; [reflexivity|].
    intros k Hin. apply keys_in_assoc in Hin. subst m.
    rewrite assoc_spread_props in Hin |- *.
    destruct (assoc k ps) as [x|] eqn:A.
    + rewrite <- A. apply (Q eq_refl). congruence.
    + destruct (assoc k defaultState) as [d|] eqn:Dk; [|congruence].
      now rewrite (defaultState_value _ _ Dk).
  - intros k. rewrite assoc_spread_props.
    destruct (assoc k m) as [x|] eqn:A; [reflexivity|].
    subst m. rewrite assoc_spread_props in A.
    destruct (assoc k ps); [discriminate A|exact A].
Qed.

(** ** The rows of RevA *)




(** ** The extension check *)

Lemma lower_dot c : Ascii.eqb (lower c) "." = Ascii.eqb c ".".
Proof.
  destruct c as [[] [] [] [] [] [] [] []]; reflexivity.
Qed.

Lemma has_dot_lower s : has_dot (toLowerCase s) = has_dot s.
Proof. induction s as [|c r IH]; simpl; [reflexivity|]. now rewrite lower_dot, IH. Qed.

Lemma split_dotless e : has_dot e = false -> split_dot e = (e, []).
Proof.
  induction e as [|c r IH]; simpl; [reflexivity|].
  intros H. apply orb_false_iff in H. destruct H as [C R].
  now rewrite (IH R), C.
Qed.

Lemma last_cons {A} (a d : A) l : last (a :: l) d = last l a.
Proof.
  revert a d. induction l as [|b l IH]; intros a d; [reflexivity|].
  change (last (b :: l) d = last (b :: l) a). now rewrite !IH.
Qed.

Lemma last_default {A} (d d' : A) l : l <> [] -> last l d = last l d'.
Proof.
  destruct l as [|a l]; [congruence|]. intros _. now rewrite !last_cons.
Qed.

Lemma last_piece_after_dot e : has_dot e = false -> forall s,
  last_piece ((s ++ ".") ++ e) = e /\ snd (split_dot ((s ++ ".") ++ e)) <> [].
Proof.
  intros E. induction s as [|c s IH]; unfold last_piece in *; simpl.
  - rewrite (split_dotless _ E). simpl. split; [reflexivity|discriminate].
  - destruct (split_dot ((s ++ ".") ++ e)) as [q qs]. simpl in IH. destruct IH as [L N].
    destruct (Ascii.eqb c "."); simpl.
    + split; [|discriminate]. rewrite <- L. destruct qs; [congruence|].
      apply (last_default "" q). discriminate.
    + split; [|exact N]. rewrite <- L. now apply last_default.
Qed.

Lemma last_piece_split p :
  has_dot (last_piece p) = false /\
  exists stem, p = stem ++ last_piece p /\
    match snd (split_dot p) with
    | [] => stem = ""
    | _ => exists s, stem = s ++ "."
    end.
Proof.
  induction p as [|c r IH]; unfold last_piece in *; simpl.
  - split; [reflexivity|]. now exists "".
  - destruct (split_dot r) as [q qs]. simpl in IH. destruct IH as (D & stem & E & S).
    destruct (Ascii.eqb c ".") eqn:C; cbv beta iota; cbn [snd].
    + apply Ascii.eqb_eq in C. subst c. rewrite last_cons. split; [exact D|].
      exists ("." ++ stem). split; [cbn [append]; now rewrite <- E|].
      destruct qs; [subst stem; now exists ""|].
      destruct S as (s0 & ->). now exists ("." ++ s0).
    + destruct qs as [|x qs].
      * simpl in *. subst stem. rewrite C, D. split; [reflexivity|].
        exists "". split; [simpl; now rewrite E at 1|reflexivity].
      * rewrite (last_default (String c q) q) by discriminate. split; [exact D|].
        destruct S as (s0 & ->). exists (String c (s0 ++ ".")).
        split; [cbn [append]; now rewrite <- E|]. now exists (String c s0).
Qed.

Lemma lower_wav e : toLowerCase e = "wav" -> has_dot e = false.
Proof. intros H. rewrite <- has_dot_lower, H. reflexivity. Qed.

(** X16: [isValidFileExtension] accepts exactly the paths whose text after
    the last dot is 'wav' in any mix of upper and lower case.  The dot is
    not needed: a path without a dot is accepted when the whole path is
    such a text; what stands before the last dot is not looked at. *)
Theorem isValidFileExtension_spec (filePath : string) :
  isValidFileExtension filePath = true <->
  exists stem ext,
    filePath = stem ++ ext /\
    (stem = "" \/ exists s, stem = s ++ ".") /\
    toLowerCase ext = "wav".
Proof.
  unfold isValidFileExtension. split.
  - intros H. destruct (last_piece_split filePath) as (_ & stem & E & S).
    exists stem, (last_piece filePath). split; [exact E|]. split.
    + destruct (snd (split_dot filePath)); [now left|now right].
    + destruct (String.eqb (toLowerCase (last_piece filePath)) "") eqn:Z;
        [discriminate H|]. simpl in H. rewrite orb_false_r in H.
      now apply String.eqb_eq in H.
  - intros (stem & ext & -> & S & L).
    assert (P : last_piece (stem ++ ext) = ext).
    { pose proof (lower_wav _ L) as D. destruct S as [->|(s & ->)].
      - unfold last_piece. simpl. now rewrite (split_dotless _ D).
      - now apply last_piece_after_dot. }
    rewrite P, L. reflexivity.
Qed.

(** ** The selection of the main page *)


Lemma set_dragover_selected b p : selectedFilePath (set_dragover b p) = selectedFilePath p.
Proof. reflexivity. Qed.







(** ** The start button *)

Lemma set_start_guarded b p :
  (b = false -> is_path (selectedFilePath p) = true) -> start_guarded (set_start b p).
Proof.
  unfold start_guarded, set_start. simpl. intros H.
  destruct (startBtn p); [|discriminate]. intros E. injection E as ->. now apply H.
Qed.

Lemma setSelectedFile_guarded path p :
  start_guarded p -> start_guarded (setSelectedFile path p).
Proof.
  intros H. unfold setSelectedFile.
  destruct (is_path path && negb (isValidFileExtension _)); [exact H|].
  apply set_start_guarded. simpl. now intros E%negb_false_iff.
Qed.

Lemma forwardDragDropToUi_guarded payload p :
  start_guarded p ->
  start_guarded (forwardDragDropToUi (fun path => setSelectedFile (Some path)) payload p).
Proof.
  intros H. unfold forwardDragDropToUi.
  destruct payload as [| | |[[|firstPath rest]|]|]; try exact H.
  destruct (is_path (Some firstPath)); [|exact H].
  now apply setSelectedFile_guarded.
Qed.

Lemma handle_guarded p e : start_guarded p -> start_guarded (handle p e).
Proof.
  intros H. destruct e; simpl.
  - destruct (dropZone p); [now apply forwardDragDropToUi_guarded|exact H].
  - exact H.
  - exact H.
  - exact H.
  - destruct (dropZone p); [|exact H]. unfold on_zone_drop.
    destruct dt as [dt|]; [|exact H].
    destruct (dt_file dt); [now apply setSelectedFile_guarded|].
    destruct (is_path (Some (dt_text dt))); [now apply setSelectedFile_guarded|exact H].
  - unfold on_file_input. destruct f; [now apply setSelectedFile_guarded|exact H].
  - unfold chooseFile. apply set_start_guarded. now intros E%negb_false_iff.
  - unfold refreshModelSelect. destruct (modelSelect p); [|exact H].
    destruct (length (model_options files probe) =? 0)%nat;
      apply set_start_guarded; [discriminate|].
    simpl. now intros E%negb_false_iff.
  - unfold start_click. destruct (negb (is_path (selectedFilePath p))); [exact H|].
    destruct (modelSelect p); [|exact H].
    destruct (negb (is_path (Some (select_value form)))); exact H.
  - unfold click_resume, runTranscription.
    destruct ph, r; try exact H; try (destruct b; try exact H);
      cbn [fst]; apply set_start_guarded; try discriminate;
      simpl; now intros E%negb_false_iff.
Qed.

(** X18: the start button is never enabled without a selected file.  Every
    handler of the page that touches the button (the selection by drop,
    file input or dialog, the refresh of the model list, the start handler
    at its start and at its end) sets it from [selectedFilePath] or
    disables it, so on a page that starts that way the button, over any
    sequence of events, is enabled only while a non-empty path is
    selected. *)
Theorem start_enabled_only_with_file (events : list event) :
  forall p : Page, start_guarded p -> start_guarded (fold_left handle events p).
Proof.
  induction events as [|e events IH]; intros p H; simpl; [exact H|].
  apply IH. now apply handle_guarded.
Qed.

(** ** The models on offer *)

Lemma options_loop (f : ModelKey -> bool) (g : ModelKey -> select_option) ks : forall acc,
  fold_left (fun opts key => if f key then (opts ++ [g key])%list else opts) ks acc
  = (acc ++ map g (filter f ks))%list.
Proof.
  induction ks as [|k ks IH]; intros acc; simpl; [now rewrite List.app_nil_r|].
  rewrite IH. destruct (f k); simpl; [now rewrite <- List.app_assoc|reflexivity].
Qed.

Lemma model_options_eq files probe :
  model_options files probe =
  map (fun key => mkOption (key_name key) (key_name key) false)
      (filter (fun key => exists_or_false files (getModelPath key) (probe key)) MODEL_KEYS).
Proof.
  unfold model_options.
  exact (options_loop
           (fun key => exists_or_false files (getModelPath key) (probe key))
           (fun key => mkOption (key_name key) (key_name key) false) MODEL_KEYS []).
Qed.

Lemma key_name_eqb a b : String.eqb (key_name a) (key_name b) = ModelKey_eqb a b.
Proof. destruct a, b; reflexivity. Qed.

Lemma offered_among keys key :
  existsb (fun o => String.eqb (opt_value o) (key_name key) && negb (opt_disabled o))
          (map (fun k => mkOption (key_name k) (key_name k) false) keys)
  = existsb (ModelKey_eqb key) keys.
Proof.
  induction keys as [|k keys IH]; simpl; [reflexivity|].
  rewrite IH, key_name_eqb, andb_true_r. f_equal. now destruct k, key.
Qed.

Lemma existsb_filter_key (f : ModelKey -> bool) key ks :
  existsb (ModelKey_eqb key) (filter f ks) = f key && existsb (ModelKey_eqb key) ks.
Proof.
  induction ks as [|k ks IH]; simpl; [now rewrite andb_false_r|].
  destruct (f k) eqn:F; simpl; rewrite IH.
  - destruct (ModelKey_eqb key k) eqn:E; simpl; [|reflexivity].
    apply ModelKey_eqb_eq in E. subst k. now rewrite F.
  - destruct (ModelKey_eqb key k) eqn:E; simpl; [|reflexivity].
    apply ModelKey_eqb_eq in E. subst k. rewrite F. reflexivity.
Qed.

Lemma refreshModelSelect_offers files probe p key :
  offers (refreshModelSelect files probe p) key =
  match modelSelect p with
  | Some _ => exists_or_false files (getModelPath key) (probe key)
  | None => false
  end.
Proof.
  unfold refreshModelSelect, offers.
  destruct (modelSelect p) as [old|] eqn:M; [|now rewrite M].
  assert (K : existsb (ModelKey_eqb key) MODEL_KEYS = true) by now destruct key.
  destruct (length (model_options files probe) =? 0)%nat eqn:Z;
    cbn [modelSelect set_start set_options]; rewrite M.
  - rewrite existsb_app. cbn [existsb opt_value opt_disabled].
    rewrite andb_false_r, !orb_false_r.
    rewrite model_options_eq, offered_among, existsb_filter_key, K. apply andb_true_r.
  - rewrite model_options_eq, offered_among, existsb_filter_key, K. apply andb_true_r.
Qed.

(** X19: [refreshModelSelect] offers a model exactly when its file
    [models/<key>.bin] is on the disk (and the [exists] call for it did not
    reject); the status store is not looked at.  The file is the one the
    download manager writes ([getModelPath]). *)
Theorem refreshModelSelect_follows_disk (files : list string)
    (probe : ModelKey -> io_result) (p : Page) (key : ModelKey) :
  offers (refreshModelSelect files probe p) key =
  match modelSelect p with
  | Some _ =>
      match probe key with
      | None => file_exists files (getModelPath key)
      | Some _ => false
      end
  | None => false
  end.
Proof. apply refreshModelSelect_offers. Qed.

(** X20: from the moment its file is created, a download makes its model
    selectable on the main page, whatever becomes of it: after any further
    steps of the attempt (chunks, a failure, an abort, the end) the file is
    still there, and a refresh of the model list of a page that has the
    select offers the model, whatever the store then says about it. *)
Theorem partial_file_is_offered (rev : revision) (replies : list (Z * reply))
    (t : Task) (w : World) (p : Page) :
  file_exists (disk w) (getModelPath (t_key t)) = true ->
  modelSelect p <> None ->
  offers (refreshModelSelect (disk (fst (run rev t replies w))) (fun _ => None) p)
         (t_key t) = true.
Proof.
  intros F M. rewrite refreshModelSelect_offers.
  destruct (modelSelect p); [|congruence]. cbn [exists_or_false].
  now apply (run_confined rev replies t w).
Qed.

(** X21: after [checkExistingFiles], on a store without a [null] record,
    the two pages agree on what is downloaded: every model whose record
    says 'downloaded' is offered by a refresh of the model list of the main
    page. *)
Theorem downloaded_models_are_offered (w : World) (p : Page) (key : ModelKey) :
  (forall key', record_of (localStorage w) key' <> Some JNull) ->
  modelSelect p <> None ->
  has_state (record_of (localStorage (fst (checkExistingFiles RevB w))) key) "downloaded"
    = true ->
  offers (refreshModelSelect (disk (fst (checkExistingFiles RevB w))) (fun _ => None) p)
         key = true.
Proof.
  intros N M D. rewrite refreshModelSelect_offers.
  destruct (modelSelect p); [|congruence]. cbn [exists_or_false].
  now apply (checkExistingFiles_result w N).
Qed.

(** ** The start handler *)

Lemma parsePositiveInt_positive input fallback :
  positive fallback -> positive (parsePositiveInt input fallback).
Proof.
  intros F. unfold parsePositiveInt. destruct input as [[|z| |]|]; simpl; auto.
  destruct (z <=? 0) eqn:Z; [exact F|]. simpl. lia.
Qed.

Lemma click_run_over form p res replies :
  (forall ph, res <> Awaiting ph) -> (forall rq, res <> Invoked rq) ->
  click_run form (p, res) replies = (p, res).
Proof.
  intros A B. destruct replies as [|r rest]; [reflexivity|]. simpl.
  destruct res; try reflexivity; [now elim (A ph)|now elim (B request)].
Qed.

Ltac click_over H :=
  rewrite click_run_over in H by (intros; discriminate); discriminate H.

(** X22: the start handler, followed through its awaits with no other
    event in between, calls the backend only when everything is in place: a non-empty path is selected, the model select is there and
    holds a non-empty value, both path calls resolved and [exists] answered
    true for the model path.  The request then carries the selected path,
    that model path and segment limits above 0, and the start button is
    disabled while the backend works.  A failure of the backend is not
    shown on the page: the handler ends without a rejection, the status
    line keeps the text 'Starting transcription', and the button is
    enabled again. *)
Theorem backend_called_only_when_ready (form : Form) (p p' : Page)
    (replies : list click_reply) (request : TranscriptionRequest) :
  click_run form (start_click form p) replies = (p', Invoked request) ->
  is_path (selectedFilePath p) = true /\
  filePath request = selectedFilePath p /\
  modelSelect p <> None /\
  is_path (Some (select_value form)) = true /\
  (exists baseDir, replies = [Path baseDir; Path (model request); Exists true]) /\
  positive (maxSegmentLength request) /\
  positive (maxCharactersPerSegment request) /\
  startBtn p' <> Some false /\
  statusEl p' =
    match statusEl p with
    | Some _ => Some (StartingTranscription (select_value form) (selectedFilePath p))
    | None => None
    end /\
  forall e,
    click_run form (start_click form p) (replies ++ [Fails e])%list
    = (set_start false p', Finished).
Proof.
  unfold start_click.
  destruct (is_path (selectedFilePath p)) eqn:S; cbn [negb];
    [|intros H; click_over H].
  destruct (modelSelect p) as [opts|] eqn:M; [|intros H; click_over H].
  destruct (is_path (Some (select_value form))) eqn:V; cbn [negb];
    [|intros H; click_over H].
  destruct replies as [|r1 replies]; [discriminate|].
  destruct r1 as [baseDir| | |e1]; cbn [click_run snd fst click_resume];
    try (intros H; click_over H).
  destruct replies as [|r2 replies]; [discriminate|].
  destruct r2 as [fullPath| | |e2]; cbn [click_run snd fst click_resume];
    try (intros H; click_over H).
  destruct replies as [|r3 replies]; [discriminate|].
  destruct r3 as [|[|]| |e3]; cbn [click_run snd fst click_resume negb];
    try (intros H; click_over H).
  destruct replies as [|r4 replies].
  - cbn [click_run]. intros H. injection H as <- <-. cbn [filePath model maxSegmentLength
      maxCharactersPerSegment].
    split; [reflexivity|]. split; [reflexivity|]. split; [discriminate|].
    split; [reflexivity|]. split; [now exists baseDir|].
    split; [now apply parsePositiveInt_positive|].
    split; [now apply parsePositiveInt_positive|].
    split; [simpl; destruct (startBtn p); discriminate|].
    split; [reflexivity|].
    intros e. cbn [app click_run snd fst click_resume runTranscription negb].
    change (selectedFilePath (set_status _ (set_start true p))) with (selectedFilePath p).
    rewrite S. reflexivity.
  - cbn [click_run snd fst click_resume]. unfold runTranscription.
    destruct r4; intros H; click_over H.
Qed.

(** ** The properties at concrete inputs *)

Lemma failure_reverts_state_only_witness :
  let t := mkTask base 0
             (assoc_set "base" (JObj [("state", JStr "downloading"); ("progress", JNum 50)])
                        defaultState)
             100 50 0 AwaitRead in
  let w := mkWorld None ["models/base.bin"] [(base, 0%nat)] [] 1 true in
  has_state (record_of (localStorage (fst (resume RevB 7 (Rejected OtherError) t w))) base)
            "not-downloaded" = true /\
  has_progress (record_of (localStorage (fst (resume RevB 7 (Rejected OtherError) t w))) base)
               50 = true /\
  disk (fst (resume RevB 7 (Rejected OtherError) t w)) = ["models/base.bin"].
Proof.
  intros t w.
  assert (E : OtherError <> AbortError) by discriminate.
  pose proof (failure_reverts_state_only RevB 7 OtherError t w E eq_refl) as H.
  split; [exact (proj1 H)|]. split; [|exact (proj1 (proj2 (proj2 H)))].
  exact (eq_trans (proj1 (proj2 H) 50) eq_refl).
Defined.

Lemma startDownload_begins_witness :
  let w := mkWorld None [] [] [] 0 true in
  exists t,
    snd (startDownload RevB base w) = Ok (Some t) /\
    t_phase t = AwaitPath /\
    registered base (abortControllers (fst (startDownload RevB base w))) = Some 0%nat /\
    has_state (record_of (localStorage (fst (startDownload RevB base w))) base)
              "downloading" = true.
Proof.
  intros w.
  destruct (startDownload_begins RevB base w eq_refl (fun _ => eq_refl) eq_refl)
    as (t & H1 & _ & H3 & _ & _ & H6 & _ & H8 & _).
  exists t. split; [exact H1|]. split; [exact H3|]. split; [exact H6|exact H8].
Defined.

Lemma transfer_completes_witness :
  let w := mkWorld None [] [] [] 0 true in
  let replies := transfer_replies (Some 8) [(40, 4%nat); (90, 4%nat)] in
  snd (attempt RevA small replies w) = Ok None /\
  has_state (record_of (localStorage (fst (attempt RevA small replies w))) small)
            "downloaded" = true /\
  file_exists (disk (fst (attempt RevA small replies w))) (getModelPath small) = true.
Proof.
  intros w replies.
  assert (R : RevA = RevB ->
              has_state (record_of (localStorage w) small) "downloading" = false)
    by discriminate.
  pose proof (transfer_completes RevA small (Some 8) [(40, 4%nat); (90, 4%nat)] w
                eq_refl R eq_refl) as H.
  split; [exact (proj1 H)|]. split; [exact (proj1 (proj2 H))|].
  exact (proj1 (proj2 (proj2 (proj2 H)))).
Defined.

Lemma cancelled_attempt_stops_witness :
  let t := mkTask base 0
             (assoc_set "base" (JObj [("state", JStr "downloading"); ("progress", JNum 50)])
                        defaultState)
             100 50 0 AwaitRead in
  let w := mkWorld None [] [] [0%nat] 1 true in
  resume RevB 9 Done t w = (w, Ok None).
Proof.
  intros t w.
  assert (N : record_of (localStorage w) (t_key t) <> Some JNull)
    by (vm_compute; discriminate).
  exact (proj1 (cancelled_attempt_stops 9 t w N eq_refl) eq_refl).
Defined.

Lemma unknown_length_reports_nothing_witness :
  let s := assoc_set "base" (JObj [("state", JStr "downloading"); ("progress", JNum 0)])
                     defaultState in
  let t := mkTask base 0 s 0 0 0 AwaitRead in
  let w := mkWorld (Some (JSON_stringify (JObj s))) ["models/base.bin"] [(base, 0%nat)] []
                   1 true in
  run RevA t (chunk_replies [(10, 5%nat); (20, 7%nat)]) w
  = (w, Ok (Some (with_received 12 t))).
Proof.
  intros s t w.
  assert (R : running RevA base w t).
  { split; [reflexivity|]. split; [|split; [reflexivity|now left]].
    eexists. split; reflexivity. }
  assert (T : t_total t <= 0) by (vm_compute; discriminate).
  exact (unknown_length_reports_nothing RevA base [(10, 5%nat); (20, 7%nat)] w t R eq_refl T).
Defined.

Lemma throttled_chunks_do_not_write_witness :
  let s := assoc_set "base" (JObj [("state", JStr "downloading"); ("progress", JNum 0)])
                     defaultState in
  let t := mkTask base 0 s 100 0 0 AwaitRead in
  let w := mkWorld (Some (JSON_stringify (JObj s))) ["models/base.bin"] [(base, 0%nat)] []
                   1 true in
  exists t',
    run RevB t (chunk_replies [(10, 5%nat); (20, 7%nat)]) w = (w, Ok (Some t')) /\
    t_received t' = 12.
Proof.
  intros s t w.
  assert (R : running RevB base w t).
  { split; [reflexivity|]. split; [|split; [reflexivity|]].
    - eexists. split; reflexivity.
    - right. right. intros []; vm_compute; discriminate. }
  assert (F : Forall (fun c : Z * nat => fst c - t_lastRender t <= 30)
                     [(10, 5%nat); (20, 7%nat)])
    by (repeat constructor; vm_compute; discriminate).
  destruct (throttled_chunks_do_not_write base [(10, 5%nat); (20, 7%nat)] w t R eq_refl F)
    as (t' & E & Rc & _).
  exists t'. split; [exact E|exact Rc].
Defined.

Lemma checkExistingFiles_reconciles_witness :
  let done := JObj [("state", JStr "downloaded"); ("progress", JNum 100)] in
  let w := mkWorld (Some (Parses (JObj [("base", done); ("small", done)])))
                   ["models/small.bin"] [] [] 0 true in
  is_fresh (record_of (localStorage (fst (checkExistingFiles RevB w))) base) = true /\
  record_of (localStorage (fst (checkExistingFiles RevB w))) small = Some done /\
  disk (fst (checkExistingFiles RevB w)) = ["models/small.bin"].
Proof.
  intros done w.
  assert (N : forall key, record_of (localStorage w) key <> Some JNull)
    by (intros []; vm_compute; discriminate).
  pose proof (checkExistingFiles_reconciles w N) as H.
  split; [exact (proj1 (proj2 (proj2 H)) base eq_refl eq_refl)|].
  split; [|exact (proj1 H)].
  exact (proj1 (proj2 (proj2 (proj2 H))) small (or_intror eq_refl)).
Defined.

Lemma saved_states_load_back_witness :
  let w := mkWorld (Some (Parses (JObj [("base", JObj [("state", JStr "downloading");
                                                       ("progress", JNum 37)])])))
                   [] [] [] 0 true in
  exists m m',
    snd (load RevA w) = Ok m /\
    snd (load RevA (fst (saveStates m w))) = Ok m' /\
    assoc "base" m' = assoc "base" m /\
    has_state (assoc "base" m) "not-downloaded" = true.
Proof.
  intros w.
  destruct (saved_states_load_back RevA w _ eq_refl) as (m' & L & E).
  eexists. exists m'. split; [reflexivity|]. split; [exact L|].
  split; [apply E|reflexivity].
Defined.


Lemma start_enabled_only_with_file_witness :
  let p := mkPage None (Some "") (Some true) (Some (StatusText "")) (Some false)
                  (Some []) 0 in
  let events := [FileChosen (Some "b.wav");
                 ModelsRefreshed ["models/base.bin"] (fun _ => None);
                 FileChosen None] in
  start_guarded (fold_left handle events p).
Proof.
  intros p events.
  assert (G : start_guarded p) by (intros E; discriminate E).
  exact (start_enabled_only_with_file events p G).
Defined.

Lemma partial_file_is_offered_witness :
  let s := assoc_set "base" (JObj [("state", JStr "downloading"); ("progress", JNum 50)])
                     defaultState in
  let t := mkTask base 0 s 100 50 0 AwaitRead in
  let w := mkWorld (Some (JSON_stringify (JObj s))) ["models/base.bin"] [(base, 0%nat)] []
                   1 true in
  let p := mkPage None None None None None (Some []) 0 in
  offers (refreshModelSelect (disk (fst (run RevB t [(5, Rejected OtherError)] w)))
                             (fun _ => None) p) base = true.
Proof.
  intros s t w p.
  assert (M : modelSelect p <> None) by discriminate.
  exact (partial_file_is_offered RevB [(5, Rejected OtherError)] t w p eq_refl M).
Defined.

Lemma downloaded_models_are_offered_witness :
  let done := JObj [("state", JStr "downloaded"); ("progress", JNum 100)] in
  let w := mkWorld (Some (Parses (JObj [("base", done); ("small", done)])))
                   ["models/small.bin"] [] [] 0 true in
  let p := mkPage None None None None None (Some []) 0 in
  offers (refreshModelSelect (disk (fst (checkExistingFiles RevB w))) (fun _ => None) p)
         small = true.
Proof.
  intros done w p.
  assert (N : forall key, record_of (localStorage w) key <> Some JNull)
    by (intros []; vm_compute; discriminate).
  assert (M : modelSelect p <> None) by discriminate.
  exact (downloaded_models_are_offered w p small N M eq_refl).
Defined.

Lemma backend_called_only_when_ready_witness :
  let form := mkForm "base" None (Some (Num 12)) (Some NaN) in
  let p := mkPage (Some "talk.wav") (Some "talk.wav") (Some false)
                  (Some (StatusText "Choose a file to begin.")) (Some false)
                  (Some [mkOption "base" "base" false]) 0 in
  let replies := [Path "/data"; Path "/data/models/base.bin"; Exists true] in
  exists p' request,
    click_run form (start_click form p) replies = (p', Invoked request) /\
    model request = "/data/models/base.bin" /\
    maxSegmentLength request = Num 12 /\
    maxCharactersPerSegment request = Num 80 /\
    snd (click_run form (start_click form p) (replies ++ [Fails OtherError])%list)
    = Finished.
Proof.
  intros form p replies.
  pose proof (backend_called_only_when_ready form p _ replies _ eq_refl) as H.
  eexists. eexists. split; [reflexivity|].
  split; [reflexivity|]. split; [reflexivity|]. split; [reflexivity|].
  destruct H as (_ & _ & _ & _ & _ & _ & _ & _ & _ & H).
  now rewrite (H OtherError).
Defined.

(** ** The progress an attempt writes *)















(** [guarded] is [settle] followed by the [finally]. *)
Lemma resume_settle rev now r t w :
  resume rev now r t w =
  match settle rev now r (w, t) with
  | ((w', t'), Ok (Some ph)) => (w', Ok (Some (with_phase ph t')))
  | ((w', t'), Ok None) => (unregister (t_key t') w', Ok None)
  | ((w', t'), Throw e) => (unregister (t_key t') w', Throw e)
  | ((w', t'), Unmodelled) => (w', Unmodelled)
  end.
Proof. reflexivity. Qed.















(** The percentage as the kernel's binary64 arithmetic computes it, on
    the lengths up to 60 (and up to twice the total). *)
Lemma percent_is_binary64 :
  forallb (fun p => percent (fst p) (snd p) =? percent_binary64 (fst p) (snd p))
          (length_grid 60) = true.
Proof. vm_compute. reflexivity. Qed.
